(** * CLiQR: capacitive lickometry recording and offline lick detection

    A shallow embedding of the acquisition/storage pipeline
    ([src/recording/recorder.py], [src/utils/state.py]) and of the offline
    analysis ([src/data_analysis.py]), with the properties of the
    specification stated and settled against it.

    Conventions of the embedding:
    - Python exceptions are values of [exn]; a fallible function returns a
      [result].
    - an HDF5 group is a finite map from names to datasets; the recording
      file is the three-level hierarchy board / sensor / dataset that
      [initialize_hdf5_file] creates, plus the top-level [comments] field.
    - a Python [dict] whose iteration order matters is an association list
      in insertion order.
    - timestamps and volumes of the analysis are rationals ([Q]): the float
      arithmetic of NumPy is idealised as exact arithmetic.  Capacitance
      counts are integers ([Z]), as the 16-bit register values are. *)

From Stdlib Require Import ZArith QArith Qabs Qround Lia List String Ascii Sorted.
From stdpp Require Import gmap strings list pretty sorting.

Local Open Scope string_scope.
Local Open Scope nat_scope.
Local Open Scope list_scope.
Local Open Scope stdpp_scope.

(** ** Exceptions and the error monad *)

Inductive exn : Type :=
  | KeyError (key : string)
  | IndexError
  | ValueError (msg : string)
  | TypeError
  | OSError
  | AttributeError
  | UnboundLocalError.

Inductive result (A : Type) : Type :=
  | Ok (a : A)
  | Raise (e : exn).
Arguments Ok {A} a.
Arguments Raise {A} e.

Global Instance result_ret : MRet result := fun A a => Ok a.
Global Instance result_bind : MBind result := fun A B f m =>
  match m with
  | Ok a => f a
  | Raise e => Raise e
  end.
Global Instance result_fmap : FMap result := fun A B f m =>
  match m with
  | Ok a => Ok (f a)
  | Raise e => Raise e
  end.

(** [for a in l: body] over a state that is threaded through the loop; the
    first exception leaves the loop. *)
Fixpoint forM_ {A S : Type} (l : list A) (body : A → S → result S) (s : S)
  : result S :=
  match l with
  | [] => Ok s
  | a :: l' => s' ← body a s; forM_ l' body s'
  end.

(** [seq[idx]] for a non-negative index. *)
Definition index {A : Type} (l : list A) (idx : nat) : result A :=
  match l !! idx with
  | Some x => Ok x
  | None => Raise IndexError
  end.

(** Python's [enumerate]. *)
Definition enumerate {A : Type} (l : list A) : list (nat * A) :=
  zip (seq 0 (length l)) l.

(** ** [src/utils/state.py]: constants *)

(** [HISTORY_SIZE = 100]: buffer size before an HDF5 write (the flush
    cadence N of the specification). *)
Definition HISTORY_SIZE : nat := 100.

(** [NUM_CHANNELS = 6]: channels per MPR121 (every other channel). *)
Definition NUM_CHANNELS : nat := 6.

(** The MPR121 register addresses. *)
Definition SOFT_RESET : Z := 128.   (* 0x80 *)
Definition CONFIG : Z := 94.        (* 0x5E *)
Definition DATA : Z := 4.           (* 0x04 *)

(** [SERIAL_NUMBER_SENSOR_MAP], a dict in insertion order. *)
Definition SERIAL_NUMBER_SENSOR_MAP : list (string * list nat) :=
  [ ("FT232H0", [1; 2; 3; 7; 8; 9]);
    ("FT232H1", [4; 5; 6; 10; 11; 12]);
    ("FT232H2", [13; 14; 15; 19; 20; 21]);
    ("FT232H3", [16; 17; 18; 22; 23; 24]) ]%nat.

(** [d.get(k, default)] on an association list. *)
Fixpoint dict_get {V : Type} (k : string) (d : list (string * V)) : option V :=
  match d with
  | [] => None
  | (k', v) :: d' => if decide (k = k') then Some v else dict_get k d'
  end.

(** [SERIAL_NUMBER_SENSOR_MAP.get(sn, [])]. *)
Definition sensors_of (sn : string) : list nat :=
  default [] (dict_get sn SERIAL_NUMBER_SENSOR_MAP).

(** The f-strings that name the groups of the file. *)
Definition board_name (sn : string) : string := "board_" +:+ sn.
Definition sensor_name (sensor : nat) : string := "sensor_" +:+ pretty sensor.

(** ** [src/hardware/mpr121.py] *)

Module MPR121.

(** [collections.deque(maxlen=maxlen).append(x)] *)
Definition deque_append {A : Type} (maxlen : nat) (d : list A) (x : A)
  : list A :=
  let d' := d ++ [x] in drop (length d' - maxlen) d'.

Section MPR121.

(** The hardware and the clock.  [read_from sn register n] is what
    [port.read_from(register, n)] returns on the port of board [sn] (the
    bytes, each in [0 .. 255], or a transport error), [write_to] likewise
    for [port.write_to(register, data)], and [time_time k] is the value of
    the [k]-th call of [time.time()] during one read.  Every entry of
    [self.controllers] holds its ["port"], as [FT232HManager] stores it;
    [controllers] lists the keys. *)
Context {time : Type}.
Variable controllers : list string.
Variable write_to : string → Z → list Z → result unit.
Variable read_from : string → Z → nat → result (list Z).
Variable time_time : nat → time.

(** [MPR121Manager._configure_single_sensor]: any exception is caught and
    reported as a failure. *)
Definition configure_single_sensor (serial_number : string) : bool :=
  match
    (* Perform soft reset *)
    _ ← write_to serial_number SOFT_RESET [99%Z];        (* b'\x63' *)
    (* Configure the MPR121 *)
    _ ← write_to serial_number CONFIG [143%Z];           (* b'\x8F' *)
    (* Verify configuration by reading data *)
    cap ← read_from serial_number DATA 24;
    Ok (bool_decide (cap ≠ replicate 24 0%Z))
  with
  | Ok success => success
  | Raise _ => false
  end.

(** [MPR121Manager.configure_all_sensors] *)
Definition configure_all_sensors : list string :=
  foldl (fun messages sn =>
           if configure_single_sensor sn
           then messages ++ ["Board " +:+ sn +:+ " configured successfully"]
           else messages ++ ["Board " +:+ sn +:+ " configuration failed"])
    [] controllers.

(** The body of the loop over the channels:
    [value = raw_buffer[2 * chan] | (raw_buffer[2 * chan + 1] << 8)], then
    the two appends; the state carries the number of calls of
    [time.time()] made so far. *)
Definition read_channel (raw_buffer : list Z) (chan : nat)
    (s : list time * list Z * nat) : result (list time * list Z * nat) :=
  let '(local_time_data, local_cap_data, calls) := s in
  lo ← index raw_buffer (2 * chan);
  hi ← index raw_buffer (2 * chan + 1);
  let value := Z.lor lo (Z.shiftl hi 8) in
  let local_cap_data := deque_append NUM_CHANNELS local_cap_data value in
  let local_time_data :=
    deque_append NUM_CHANNELS local_time_data (time_time calls) in
  Ok (local_time_data, local_cap_data, S calls).

(** [MPR121Manager.read_sensor_data] *)
Definition read_sensor_data (serial_number : string)
  : result (list time * list Z * string) :=
  if decide (serial_number ∈ controllers) then
    (* Read 24 bytes (2 bytes for each of the 12 channels) *)
    raw_buffer ← read_from serial_number DATA 24;
    '(local_time_data, local_cap_data, _) ←
      (if decide (NUM_CHANNELS = 6) then
         (* We only record every other channel starting with channel 1 *)
         forM_ (seq 0 12) (fun chan s =>
           if decide (chan `mod` 2 = 0) then Ok s
           else read_channel raw_buffer chan s) ([], [], 0)
       else
         (* Record all 12 channels *)
         forM_ (seq 0 12) (read_channel raw_buffer) ([], [], 0));
    Ok (local_time_data, local_cap_data, serial_number)
  else Raise (ValueError ("No controller found for " +:+ serial_number)).

End MPR121.
End MPR121.

(** ** [src/recording/recorder.py] *)

Module Recorder.

Section Recorder.

(** The type of the stored numbers (Python floats and ints alike); the
    recorder never computes with them, it only tests volumes and weights
    for [> 0] and lets HDF5 pad a resized array with its fill value. *)
Context {num : Type}.
Variable fill : num.
Variable positive : num → bool.

Inductive dataset : Type :=
  | Scalar (v : num)
  | Array (l : list num).

(** The recording file: [groups] maps a board group name to its sensor
    groups, each a map from dataset names to datasets. *)
Record h5file : Type := mk_h5file {
  groups : gmap string (gmap string (gmap string dataset));
  comments : option string
}.

Definition empty_file : h5file := mk_h5file ∅ None.

Definition set_groups (f : h5file) g : h5file := mk_h5file g (comments f).

(** [h5f[board][sensor]] *)
Definition get_group (f : h5file) (board sensor : string)
  : result (gmap string dataset) :=
  match groups f !! board with
  | None => Raise (KeyError board)
  | Some b =>
      match b !! sensor with
      | None => Raise (KeyError sensor)
      | Some g => Ok g
      end
  end.

(** Writing back the group object obtained by [get_group] (h5py groups are
    handles into the file, so a change to one is a change to the file). *)
Definition put_group (f : h5file) (board sensor : string)
    (g : gmap string dataset) : h5file :=
  match groups f !! board with
  | None => f
  | Some b => set_groups f (<[board := <[sensor := g]> b]> (groups f))
  end.

(** [group.create_dataset(name, data=...)]: refuses an existing name. *)
Definition create_dataset (g : gmap string dataset) (name : string)
    (d : dataset) : result (gmap string dataset) :=
  match g !! name with
  | Some _ => Raise (ValueError "name already exists")
  | None => Ok (<[name := d]> g)
  end.

(** [collections.deque(maxlen=HISTORY_SIZE).append(x)]: the oldest element
    is discarded once the deque is full. *)
Definition deque_append (d : list num) (x : num) : list num :=
  let d' := d ++ [x] in drop (length d' - HISTORY_SIZE) d'.

Record SensorRecorder : Type := mk_recorder {
  controllers : list string;          (* keys of the controllers dict *)
  recording : bool;
  loop_counter : nat;
  board_time_data : gmap string (gmap nat (list num));
  board_cap_data : gmap string (gmap nat (list num));
  h5 : option h5file                  (* the file at [filename], if any *)
}.

Definition set_recording (st : SensorRecorder) (b : bool) : SensorRecorder :=
  mk_recorder (controllers st) b (loop_counter st)
    (board_time_data st) (board_cap_data st) (h5 st).
Definition set_loop_counter (st : SensorRecorder) (n : nat) : SensorRecorder :=
  mk_recorder (controllers st) (recording st) n
    (board_time_data st) (board_cap_data st) (h5 st).
Definition set_board_time_data (st : SensorRecorder) m : SensorRecorder :=
  mk_recorder (controllers st) (recording st) (loop_counter st)
    m (board_cap_data st) (h5 st).
Definition set_board_cap_data (st : SensorRecorder) m : SensorRecorder :=
  mk_recorder (controllers st) (recording st) (loop_counter st)
    (board_time_data st) m (h5 st).
Definition set_h5 (st : SensorRecorder) (f : option h5file) : SensorRecorder :=
  mk_recorder (controllers st) (recording st) (loop_counter st)
    (board_time_data st) (board_cap_data st) f.

(** [{sensor: deque(maxlen=HISTORY_SIZE) for sensor in sensors}] *)
Definition empty_buffers (sensors : list nat) : gmap nat (list num) :=
  foldl (fun m sensor => <[sensor := []]> m) ∅ sensors.

(** [SensorRecorder.__init__] *)
Definition init (ctrls : list string) : SensorRecorder :=
  let bufs :=
    foldl (fun m sn => <[sn := empty_buffers (sensors_of sn)]> m) ∅ ctrls in
  mk_recorder ctrls false 0 bufs bufs None.

(** [SensorRecorder.initialize_hdf5_file]: mode ["w"] starts from an empty
    file; [create_group] refuses a name that exists. *)
Definition create_sensor_groups (sensors : list nat)
  : result (gmap string (gmap string dataset)) :=
  forM_ sensors (fun sensor b =>
    match b !! sensor_name sensor with
    | Some _ => Raise (ValueError "name already exists")
    | None => g ← Ok ∅; Ok (<[sensor_name sensor := g]> b)
    end) ∅.

Definition initialize_hdf5_file (st : SensorRecorder) : result SensorRecorder :=
  gs ← forM_ (controllers st) (fun sn gs =>
          match gs !! board_name sn with
          | Some _ => Raise (ValueError "name already exists")
          | None =>
              b ← create_sensor_groups (sensors_of sn);
              Ok (<[board_name sn := b]> gs)
          end) ∅;
  Ok (set_h5 st (Some (mk_h5file gs None))).

(** [self.board_time_data[sn][sensor]] *)
Definition get_buffer (bufs : gmap string (gmap nat (list num)))
    (sn : string) (sensor : nat) : result (list num) :=
  match bufs !! sn with
  | None => Raise (KeyError sn)
  | Some b =>
      match b !! sensor with
      | None => Raise (KeyError (pretty sensor))
      | Some d => Ok d
      end
  end.

(** [self.board_time_data[sn][sensor].append(x)] *)
Definition buffer_append (bufs : gmap string (gmap nat (list num)))
    (sn : string) (sensor : nat) (x : num)
  : result (gmap string (gmap nat (list num))) :=
  match bufs !! sn with
  | None => Raise (KeyError sn)
  | Some b =>
      match b !! sensor with
      | None => Raise (KeyError (pretty sensor))
      | Some d => Ok (<[sn := <[sensor := deque_append d x]> b]> bufs)
      end
  end.

(** The body of the inner loop of "Append data to buffers":
    [self.board_time_data[serial_number][sensor].append(local_time[idx])]
    and the same for the capacitance. *)
Definition append_sample (local_time local_cap : list num)
    (serial_number : string) (idx sensor : nat) (st : SensorRecorder)
  : result SensorRecorder :=
  t ← index local_time idx;
  tb ← buffer_append (board_time_data st) serial_number sensor t;
  let st := set_board_time_data st tb in
  c ← index local_cap idx;
  cb ← buffer_append (board_cap_data st) serial_number sensor c;
  Ok (set_board_cap_data st cb).

(** The outer loop body, for one board's result
    [(local_time, local_cap, serial_number)]. *)
Definition append_result (r : list num * list num * string)
    (st : SensorRecorder) : result SensorRecorder :=
  let '(local_time, local_cap, serial_number) := r in
  forM_ (enumerate (sensors_of serial_number))
    (fun '(idx, sensor) => append_sample local_time local_cap serial_number idx sensor)
    st.

(** [h5py.File(self.filename, "r+")] *)
Definition open_rw (st : SensorRecorder) : result h5file :=
  match h5 st with
  | Some f => Ok f
  | None => Raise OSError
  end.

(** [SensorRecorder._write_initial_data]: the body for one sensor, then
    the loops over boards and sensors. *)
Definition write_initial_sensor (st : SensorRecorder) (sn : string)
    (sensor : nat) (f : h5file) : result h5file :=
  group ← get_group f (board_name sn) (sensor_name sensor);
  tb ← get_buffer (board_time_data st) sn sensor;
  group ← create_dataset group "time_data" (Array tb);
  cb ← get_buffer (board_cap_data st) sn sensor;
  group ← create_dataset group "cap_data" (Array cb);
  Ok (put_group f (board_name sn) (sensor_name sensor) group).

Definition write_initial_data (st : SensorRecorder) : result SensorRecorder :=
  f ← open_rw st;
  f' ← forM_ (controllers st) (fun sn =>
         forM_ (sensors_of sn) (write_initial_sensor st sn)) f;
  Ok (set_h5 st (Some f')).

(** [dataset.resize((new_size,))]: truncates, or pads with the fill
    value. *)
Definition resize (new_size : nat) (l : list num) : list num :=
  take new_size l ++ replicate (new_size - length l) fill.

(** [dataset[lo:hi] = data] on a one-dimensional dataset: the slice is
    clipped to the dataset, and [data] must have the length of the
    selection or be a single value, which is broadcast. *)
Definition write_slice (lo hi : nat) (data : list num) (l : list num)
  : result (list num) :=
  let hi := hi `min` length l in
  let n := hi - lo in
  if decide (length data = n) then
    Ok (take lo l ++ data ++ drop hi l)
  else match data with
       | [x] => Ok (take lo l ++ replicate n x ++ drop hi l)
       | _ => Raise TypeError
       end.

(** [group[name].resize((new_size,))] *)
Definition resize_dataset (g : gmap string dataset) (name : string)
    (new_size : nat) : result (gmap string dataset) :=
  match g !! name with
  | None => Raise (KeyError name)
  | Some (Scalar _) => Raise TypeError
  | Some (Array l) => Ok (<[name := Array (resize new_size l)]> g)
  end.

(** [group[name][lo:hi] = data] *)
Definition write_dataset_slice (g : gmap string dataset) (name : string)
    (lo hi : nat) (data : list num) : result (gmap string dataset) :=
  match g !! name with
  | None => Raise (KeyError name)
  | Some (Scalar _) => Raise TypeError
  | Some (Array l) =>
      l' ← write_slice lo hi data l;
      Ok (<[name := Array l']> g)
  end.

(** [SensorRecorder._append_data]: the body for one sensor, then the
    loops over boards and sensors. *)
Definition append_sensor (st : SensorRecorder) (sn : string)
    (sensor : nat) (f : h5file) : result h5file :=
  let tmp_ctr := loop_counter st - HISTORY_SIZE in
  group ← get_group f (board_name sn) (sensor_name sensor);
  let new_size := tmp_ctr + HISTORY_SIZE in
  group ← resize_dataset group "time_data" new_size;
  group ← resize_dataset group "cap_data" new_size;
  tb ← get_buffer (board_time_data st) sn sensor;
  group ← write_dataset_slice group "time_data" tmp_ctr new_size tb;
  cb ← get_buffer (board_cap_data st) sn sensor;
  group ← write_dataset_slice group "cap_data" tmp_ctr new_size cb;
  Ok (put_group f (board_name sn) (sensor_name sensor) group).

Definition append_data (st : SensorRecorder) : result SensorRecorder :=
  f ← open_rw st;
  f' ← forM_ (controllers st) (fun sn =>
         forM_ (sensors_of sn) (append_sensor st sn)) f;
  Ok (set_h5 st (Some f')).

(** [SensorRecorder.stop] *)
Definition stop (st : SensorRecorder) : SensorRecorder :=
  set_recording st false.

(** The board that carries a sensor:
    [sn_idx = [sensor_id in sensors for sensors in MAP.values()]] and
    [np.array(list(MAP.keys()))[sn_idx].item()], which raises unless
    exactly one board matches. *)
Definition board_of (sensor_id : nat) : result string :=
  match filter (fun kv => sensor_id ∈ kv.2) SERIAL_NUMBER_SENSOR_MAP with
  | [(sn, _)] => Ok sn
  | _ => Raise (ValueError "can only convert an array of size 1 to a Python scalar")
  end.

(** The cycle-suffixed dataset names: cycle 0 uses the bare name. *)
Definition cycle_name (base : string) (cycle : nat) : string :=
  if decide (cycle = 0) then base else base +:+ pretty cycle.

(** [if v is not None and name not in group: group.create_dataset(name, data=v)] *)
Definition write_once (name : string) (v : option num)
    (g : gmap string dataset) : gmap string dataset :=
  match v with
  | Some x => match g !! name with
              | None => <[name := Scalar x]> g
              | Some _ => g
              end
  | None => g
  end.

(** [if v is not None and v > 0: (del group[name] if present); group.create_dataset(name, data=v)] *)
Definition overwrite_positive (name : string) (v : option num)
    (g : gmap string dataset) : gmap string dataset :=
  match v with
  | Some x =>
      if positive x then
        let g := match g !! name with
                 | Some _ => delete name g
                 | None => g
                 end in
        <[name := Scalar x]> g
      else g
  | None => g
  end.

(** [SensorRecorder.write_sensor_metadata] on the file. *)
Definition write_sensor_metadata_file (f : h5file) (sensor_id : nat)
    (start_time stop_time start_vol stop_vol weight : option num)
    (cycle : nat) : result h5file :=
  sn ← board_of sensor_id;
  (* Create the sensor group if it doesn't exist *)
  b ← match groups f !! board_name sn with
      | None => Raise (KeyError (board_name sn))
      | Some b => Ok b
      end;
  let group := default ∅ (b !! sensor_name sensor_id) in
  let group := write_once (cycle_name "start_time" cycle) start_time group in
  let group := write_once (cycle_name "stop_time" cycle) stop_time group in
  let group := overwrite_positive (cycle_name "start_vol" cycle) start_vol group in
  let group := overwrite_positive (cycle_name "stop_vol" cycle) stop_vol group in
  let group := overwrite_positive (cycle_name "weight" cycle) weight group in
  Ok (set_groups f (<[board_name sn := <[sensor_name sensor_id := group]> b]> (groups f))).

Definition write_sensor_metadata (st : SensorRecorder) (sensor_id : nat)
    (start_time stop_time start_vol stop_vol weight : option num)
    (cycle : nat) : result SensorRecorder :=
  sn ← board_of sensor_id;
  f ← open_rw st;
  f' ← write_sensor_metadata_file f sensor_id
         start_time stop_time start_vol stop_vol weight cycle;
  Ok (set_h5 st (Some f')).

(** [SensorRecorder.write_comments] *)
Definition write_comments (st : SensorRecorder) (text : string)
  : result SensorRecorder :=
  f ← open_rw st;
  Ok (set_h5 st (Some (mk_h5file (groups f) (Some text)))).

(** [l[-n:]] for an integer [n]: the last [n] elements when [n] is
    positive, and [l[k:]] when [n = -k] is not, so the whole list for
    [n = 0]. *)
Definition last_slice {A : Type} (n : Z) (l : list A) : list A :=
  if (0 <? n)%Z then drop (length l - Z.to_nat n) l
  else drop (Z.to_nat (- n)) l.

(** [SensorRecorder.get_recent_samples]; [None] stands for the pair
    [(None, None)]. *)
Definition get_recent_samples (st : SensorRecorder) (sensor_id : nat)
    (num_samples : Z) : result (option (list num * list num)) :=
  (* Find which board this sensor is on *)
  let sn_idx :=
    (fun kv => bool_decide (sensor_id ∈ kv.2)) <$> SERIAL_NUMBER_SENSOR_MAP in
  if negb (existsb id sn_idx) then Ok None
  else
    sn ← board_of sensor_id;
    (* Check if this sensor has data in the buffer *)
    match board_cap_data st !! sn ≫= (.!! sensor_id) with
    | None => Ok None
    | Some cap_buffer =>
        time_buffer ← get_buffer (board_time_data st) sn sensor_id;
        if decide (length cap_buffer = 0) then Ok None
        else
          let n := (num_samples `min` Z.of_nat (length cap_buffer))%Z in
          Ok (Some (last_slice n cap_buffer, last_slice n time_buffer))
    end.

(** *** The recording loop

    The loop suspends once per iteration, at [await asyncio.sleep(0)];
    there the other tasks of the event loop (the control surface) may call
    the recorder's methods.  An exception raised by such a call belongs to
    the calling task and leaves the recorder as it was. *)
Inductive call : Type :=
  | CallStop
  | CallWriteSensorMetadata (sensor_id : nat)
      (start_time stop_time start_vol stop_vol weight : option num)
      (cycle : nat)
  | CallWriteComments (text : string).

Definition apply_call (st : SensorRecorder) (c : call) : SensorRecorder :=
  match c with
  | CallStop => stop st
  | CallWriteSensorMetadata sensor_id t0 t1 v0 v1 w cycle =>
      match write_sensor_metadata st sensor_id t0 t1 v0 v1 w cycle with
      | Ok st' => st'
      | Raise _ => st
      end
  | CallWriteComments text =>
      match write_comments st text with
      | Ok st' => st'
      | Raise _ => st
      end
  end.

(** The environment of a session: what the other tasks do at the yield of
    iteration [i], and what the hardware delivers when a board is read at
    iteration [i]: the capture timestamps and the channel values, or a
    transport error. *)
Variable other_tasks : nat → list call.
Variable sensor_reader : nat → string → result (list num * list num).

(** [MPR121Manager.read_sensor_data(serial_number)] returns
    [(local_time_data, local_cap_data, serial_number)]. *)
Definition read_sensor_data (i : nat) (serial_number : string)
  : result (list num * list num * string) :=
  '(local_time_data, local_cap_data) ← sensor_reader i serial_number;
  Ok (local_time_data, local_cap_data, serial_number).

(** The flush at the end of an iteration: "Write to HDF5 file every
    HISTORY_SIZE loops". *)
Definition flush (st : SensorRecorder) : result SensorRecorder :=
  if decide (loop_counter st = HISTORY_SIZE) then
    write_initial_data st
  else if decide (0 < loop_counter st ∧ loop_counter st `mod` HISTORY_SIZE = 0) then
    append_data st
  else Ok st.

(** One pass through the body of [while self.recording]. *)
Definition iteration (st : SensorRecorder) : result SensorRecorder :=
  (* await asyncio.sleep(0) *)
  let st := foldl apply_call st (other_tasks (loop_counter st)) in
  (* one read per board; the results are collected in submission order *)
  results ← mapM (read_sensor_data (loop_counter st)) (controllers st);
  st ← forM_ results append_result st;
  st ← flush st;
  Ok (set_loop_counter st (loop_counter st + 1)).

(** [while self.recording: ...], for at most [fuel] iterations: [Some st]
    when the loop was left in state [st], [None] when it is still
    running. *)
Fixpoint while_recording (fuel : nat) (st : SensorRecorder)
  : result (option SensorRecorder) :=
  match fuel with
  | 0 => Ok None
  | S fuel' =>
      if recording st then
        st' ← iteration st; while_recording fuel' st'
      else Ok (Some st)
  end.

(** [ThreadPoolExecutor(max_workers=num_boards)]: a pool without workers
    is refused. *)
Definition thread_pool_executor (max_workers : nat) : result unit :=
  if decide (max_workers = 0)
  then Raise (ValueError "max_workers must be greater than 0")
  else Ok ().

(** The prologue of [record_sensors], up to the entry of the loop: the
    flag and the counter, the file, and the executor for the reads. *)
Definition start (st : SensorRecorder) : result SensorRecorder :=
  st ← initialize_hdf5_file (set_loop_counter (set_recording st true) 0);
  let num_boards := length (controllers st) in
  _ ← thread_pool_executor num_boards;
  Ok st.

(** [SensorRecorder.record_sensors] *)
Definition record_sensors (fuel : nat) (st : SensorRecorder)
  : result (option SensorRecorder) :=
  st ← start st;
  while_recording fuel st.

(** The states the loop passes through at the head of [while
    self.recording]. *)
Inductive at_loop_head (ctrls : list string) : SensorRecorder → Prop :=
  | head_start st :
      start (init ctrls) = Ok st → at_loop_head ctrls st
  | head_next st st' :
      at_loop_head ctrls st → recording st = true →
      iteration st = Ok st' → at_loop_head ctrls st'.

End Recorder.
End Recorder.

(** ** [src/data_analysis.py] *)

Module Analysis.

(** *** NumPy and Python primitives on lists *)

(** [x < y] on rationals, as a boolean. *)
Definition Qltb (x y : Q) : bool :=
  match Qcompare x y with
  | Lt => true
  | _ => false
  end.

(** [int(q)]: truncation towards zero. *)
Definition Qtrunc (q : Q) : Z := Z.quot (Qnum q) (Zpos (Qden q)).

(** [a[i]] for a possibly negative index, which counts from the end. *)
Definition np_index {A : Type} (l : list A) (i : Z) : result A :=
  let n := Z.of_nat (length l) in
  let j := if (i <? 0)%Z then (i + n)%Z else i in
  if ((0 <=? j) && (j <? n))%Z then
    match l !! Z.to_nat j with
    | Some x => Ok x
    | None => Raise IndexError
    end
  else Raise IndexError.

(** [a[lo:hi]] for non-negative bounds. *)
Definition slice {A : Type} (lo hi : nat) (l : list A) : list A :=
  take (hi - lo) (drop lo l).

(** [np.argmin]: the first index of the minimum. *)
Fixpoint argmin_go {A : Type} (ltb : A → A → bool) (best : A)
    (best_i i : nat) (l : list A) : nat :=
  match l with
  | [] => best_i
  | x :: l' =>
      if ltb x best then argmin_go ltb x i (S i) l'
      else argmin_go ltb best best_i (S i) l'
  end.

Definition argmin {A : Type} (ltb : A → A → bool) (l : list A) : result nat :=
  match l with
  | [] => Raise (ValueError "attempt to get argmin of an empty sequence")
  | x :: l' => Ok (argmin_go ltb x 0 1 l')
  end.

(** [np.where(mask)[0]]: the indices at which the mask holds. *)
Fixpoint np_where_from (i : nat) (mask : list bool) : list nat :=
  match mask with
  | [] => []
  | b :: mask' =>
      if b then i :: np_where_from (S i) mask' else np_where_from (S i) mask'
  end.
Definition np_where (mask : list bool) : list nat := np_where_from 0 mask.

(** [np.diff(a)]: [a[1:] - a[:-1]]. *)
Definition np_diff (a : list Z) : list Z :=
  zip_with (fun x y => (y - x)%Z) (take (length a - 1) a) (drop 1 a).

(** [np.unique(a)]: the sorted distinct values. *)
Fixpoint insert_unique (x : Z) (l : list Z) : list Z :=
  match l with
  | [] => [x]
  | y :: l' =>
      if (x <? y)%Z then x :: l
      else if (x =? y)%Z then l
      else y :: insert_unique x l'
  end.
Definition np_unique (a : list Z) : list Z := foldr insert_unique [] a.

(** The elements of [l] whose test in [keep] came out true, in order: the
    list a filtering loop or comprehension builds. *)
Fixpoint select {A : Type} (l : list A) (keep : list bool) : list A :=
  match l, keep with
  | x :: l', b :: keep' => if b then x :: select l' keep' else select l' keep'
  | _, _ => []
  end.

(** [d[k] = v] on a dict in insertion order. *)
Fixpoint dict_set {V : Type} (k : string) (v : V) (d : list (string * V))
  : list (string * V) :=
  match d with
  | [] => [(k, v)]
  | (k', v') :: d' =>
      if decide (k = k') then (k, v) :: d' else (k', v') :: dict_set k v d'
  end.

(** *** The raw file as [filter_data] reads it into [data_dict]

    A sensor group holds the two arrays and scalar fields; [fields] lists
    the scalar datasets in the order in which the group yields its keys. *)
Record sensor_data : Type := mk_sensor_data {
  time_data : option (list Q);
  cap_data : option (list Z);
  fields : list (string * Q)
}.

(** A top-level object of the raw file, which has the layout the recorder
    gives it: the group [board_<sn>] of a board with its sensor groups, or
    a dataset (the [comments] field that [write_comments] stores).  The
    raw file is the list of these objects in the order in which h5py
    yields the keys. *)
Inductive top_level : Type :=
  | BoardGroup (sn : string) (sensors : list (string * sensor_data))
  | TopDataset (name : string).

Definition key_of (t : top_level) : string :=
  match t with
  | BoardGroup sn _ => board_name sn
  | TopDataset name => name
  end.

(** What [data_dict[board][sensor]] holds after the truncation loop, the
    dict the detection algorithms receive as [data]. *)
Record subject_data : Type := mk_subject_data {
  s_time_data : list Q;
  s_cap_data : list Z;
  s_fs : option Q;            (* [None]: the division gave inf or nan *)
  s_fields : list (string * Q);
  used_start_idx : nat;
  used_stop_idx : nat
}.

(** What [data_dict] holds under a top-level key after the truncation
    loop: the dict of a board with its truncated sensors, or the h5py
    dataset that the first loop stored as it is. *)
Inductive dict_node : Type :=
  | DictBoard (sensors : list (string * subject_data))
  | DictDataset.

(** [lick_indices]: the threshold scan stores a bare integer instead of an
    array when there is exactly one event. *)
Inductive indices : Type :=
  | IndexScalar (i : Z)
  | IndexArray (l : list Z).

Definition indices_list (ix : indices) : list Z :=
  match ix with
  | IndexScalar i => [i]
  | IndexArray l => l
  end.

Record detection : Type := mk_detection {
  lick_times : list Q;
  lick_indices : indices;
  num_licks : nat
}.

(** A subject's group in the output file. *)
Record out_group : Type := mk_out_group {
  o_lick_times : option (list Q);
  o_lick_indices : option indices;
  o_used_start_idx : option nat;
  o_used_stop_idx : option nat;
  o_consumed_vol : option Q;
  o_weight : option Q
}.

(** *** Effects of the analysis: what is printed, what is appended to the
    log file, and the output file. *)
Record world : Type := mk_world {
  stdout : list string;
  logfile : list string;
  filtered_h5f : list (string * out_group)
}.

Record M (A : Type) : Type := mk_M { run : world → result A * world }.
Arguments mk_M {A} run.
Arguments run {A} m w.

Global Instance M_ret : MRet M := fun A a => mk_M (fun w => (Ok a, w)).
Global Instance M_bind : MBind M := fun A B f m =>
  mk_M (fun w =>
    match run m w with
    | (Ok a, w') => run (f a) w'
    | (Raise e, w') => (Raise e, w')
    end).

Definition raise {A : Type} (e : exn) : M A := mk_M (fun w => (Raise e, w)).
Definition lift {A : Type} (r : result A) : M A := mk_M (fun w => (r, w)).
Definition print (msg : string) : M unit :=
  mk_M (fun w => (Ok tt, mk_world (stdout w ++ [msg]) (logfile w) (filtered_h5f w))).
Definition log_write (msg : string) : M unit :=
  mk_M (fun w => (Ok tt, mk_world (stdout w) (logfile w ++ [msg]) (filtered_h5f w))).

(** [for a in l: body] in [M]. *)
Fixpoint for_each {A : Type} (l : list A) (body : A → M unit) : M unit :=
  match l with
  | [] => mret tt
  | a :: l' => _ ← body a; for_each l' body
  end.

(** *** [filter_data]: the analysis window of a sensor *)

(** [\d]: a decimal digit.  The characters of the model's strings are
    the code points below 256, and among these the class of decimal
    digits consists of [0] to [9] alone (the superscripts and fractions
    of Latin-1 are not decimal digits). *)
Definition is_digit (c : ascii) : bool :=
  let n := nat_of_ascii c in (48 <=? n) && (n <=? 57).

Fixpoint strip_prefix (p s : string) : option string :=
  match p, s with
  | EmptyString, _ => Some s
  | String a p', String b s' =>
      if decide (a = b) then strip_prefix p' s' else None
  | String _ _, EmptyString => None
  end.

(** The longest run of decimal digits at the head of [s], read as a number
    (on top of [acc]), and what follows it. *)
Fixpoint parse_digits (s : string) (acc : Z) : Z * string :=
  match s with
  | String c s' =>
      if is_digit c
      then parse_digits s' (10 * acc + (Z.of_nat (nat_of_ascii c) - 48))%Z
      else (acc, s)
  | EmptyString => (acc, s)
  end.

(** Where [$] matches: at the end, or before a final newline. *)
Definition at_end (s : string) : bool :=
  bool_decide (s = "") || bool_decide (s = String "010" "").

(** [re.compile(r'^start_time(\d+)?$').match(k)], with
    [int(m.group(1)) if m.group(1) else -1]. *)
Definition match_start_time (k : string) : option Z :=
  match strip_prefix "start_time" k with
  | None => None
  | Some rest =>
      match rest with
      | String c _ =>
          if is_digit c then
            let '(n, tail) := parse_digits rest 0 in
            if at_end tail then Some n else None
          else if at_end rest then Some (-1)%Z else None
      | EmptyString => Some (-1)%Z
      end
  end.

(** [matches[num] = k] *)
Fixpoint matches_set (num : Z) (k : string) (matches : list (Z * string))
  : list (Z * string) :=
  match matches with
  | [] => [(num, k)]
  | (n', k') :: m' =>
      if (num =? n')%Z then (num, k) :: m' else (n', k') :: matches_set num k m'
  end.

Fixpoint matches_get (num : Z) (matches : list (Z * string)) : option string :=
  match matches with
  | [] => None
  | (n', k') :: m' => if (num =? n')%Z then Some k' else matches_get num m'
  end.

(** The dict [matches] after the loop over the keys. *)
Definition start_matches (keys : list string) : list (Z * string) :=
  foldl (fun matches k =>
           match match_start_time k with
           | Some num => matches_set num k matches
           | None => matches
           end) [] keys.

(** [num = -np.inf; for n in matches.keys(): if n > num: num = n], with
    [None] for minus infinity. *)
Definition max_num (matches : list (Z * string)) : option Z :=
  foldl (fun num nk =>
           match num with
           | None => Some nk.1
           | Some x => if (x <? nk.1)%Z then Some nk.1 else Some x
           end) None matches.

(** [last_start = matches[num]], when [matches] is not empty. *)
Definition last_start (keys : list string) : option string :=
  match max_num (start_matches keys) with
  | Some num => matches_get num (start_matches keys)
  | None => None
  end.

(** ['stop' + last_start[5:]] *)
Definition stop_key (last_start : string) : string :=
  "stop" +:+ String.substring 5 (String.length last_start - 5) last_start.

(** [sensor_data['time_data'][0]] and [sensor_data['time_data'][-1]] *)
Definition time_at (sd : sensor_data) (i : Z) : result Q :=
  match time_data sd with
  | None => Raise (KeyError "time_data")
  | Some t => np_index t i
  end.

Definition no_start_warning (board_id sensor_id : string) : string :=
  "Warning: no start/stop times recorded for " +:+ board_id +:+ " "
  +:+ sensor_id
  +:+ ", create a time fix file or we will default to the entire trace.".

(** Lines 41-64: the start and stop time of the window. *)
Definition resolve_window (board_id sensor_id : string) (sd : sensor_data)
  : M (Q * Q) :=
  match last_start (fields sd).*1 with
  | Some last_start =>
      start_time ← lift (match dict_get last_start (fields sd) with
                         | Some v => Ok v
                         | None => Raise (KeyError last_start)
                         end);
      stop_time ← lift (match dict_get (stop_key last_start) (fields sd) with
                        | Some v => Ok v
                        | None =>
                            (* Stop time wasn't recorded *)
                            time_at sd (-1)
                        end);
      mret (start_time, stop_time)
  | None =>
      _ ← print (no_start_warning board_id sensor_id);
      start_time ← lift (time_at sd 0);
      stop_time ← lift (time_at sd (-1));
      mret (start_time, stop_time)
  end.

(** [np.argmin(np.abs(time_data - t))] *)
Definition nearest (time : list Q) (t : Q) : result nat :=
  argmin Qltb ((fun x => Qabs (x - t)) <$> time).

(** Lines 37-92: the body of the truncation loop for one sensor. *)
Definition process_sensor (board_id sensor_id : string) (sd : sensor_data)
  : M subject_data :=
  '(start_time, stop_time) ← resolve_window board_id sensor_id sd;
  lift (
    time ← match time_data sd with
           | Some t => Ok t
           | None => Raise (KeyError "time_data")
           end;
    start_idx ← nearest time start_time;
    stop_idx ← nearest time stop_time;
    t0 ← index time start_idx;
    let time' := (fun x => x - t0)%Q <$> slice start_idx stop_idx time in
    cap ← match cap_data sd with
          | Some c => Ok c
          | None => Raise (KeyError "cap_data")
          end;
    let cap' := slice start_idx stop_idx cap in
    t_last ← np_index time' (-1);
    t_first ← np_index time' 0;
    let fs :=
      if Qeq_bool (t_last - t_first) 0 then None
      else Some (inject_Z (Z.of_nat stop_idx - Z.of_nat start_idx)
                 / (t_last - t_first))%Q in
    fields' ← match dict_get "stop_vol" (fields sd) with
              | Some stop_vol =>
                  match dict_get "start_vol" (fields sd) with
                  | Some start_vol =>
                      Ok (dict_set "consumed_vol" (start_vol - stop_vol)%Q
                            (fields sd))
                  | None => Raise (KeyError "start_vol")
                  end
              | None => Ok (fields sd)
              end;
    Ok (mk_subject_data time' cap' fs fields' start_idx stop_idx)).

(** *** [save_filtered_data] *)

Definition volumes_log (key animal : string) : string :=
  "Caught KeyError '" +:+ key +:+ "', volumes not recorded for " +:+ animal
  +:+ String "010" "".
Definition weight_log (key animal : string) : string :=
  "Caught KeyError '" +:+ key +:+ "', weight not recorded for " +:+ animal
  +:+ String "010" "".

(** [grp.create_dataset(name, data=data[name])] for an optional entry of
    [data]: a missing key is caught, logged and printed. *)
Definition save_optional (name : string) (v : option Q)
    (log msg : string) : M (option Q) :=
  match v with
  | Some x => mret (Some x)
  | None => _ ← log_write log; _ ← print msg; mret None
  end.

(** The [ValueError] of [filtered_h5f.create_group(animal)] for a name
    that is in the file.  h5py composes the text from the error stack of
    HDF5, so it varies with the release of HDF5; this is the text of
    HDF5 1.14. *)
Definition group_exists : exn :=
  ValueError "Unable to synchronously create group (name already exists)".

(** [filtered_h5f.create_group(animal)] and the datasets of the group;
    the group is in the file from its creation on. *)
Definition put_out_group (animal : string) (g : out_group) : M unit :=
  mk_M (fun w =>
    (Ok tt, mk_world (stdout w) (logfile w)
              (dict_set animal g (filtered_h5f w)))).

Definition save_filtered_data (data : subject_data) (d : detection)
    (animal : string) : M unit :=
  w ← mk_M (fun w => (Ok w, w));
  _ ← match dict_get animal (filtered_h5f w) with
      | Some _ => raise group_exists
      | None => mret tt
      end;
  let grp := mk_out_group (Some (lick_times d)) (Some (lick_indices d))
               (Some (used_start_idx data)) (Some (used_stop_idx data))
               None None in
  _ ← put_out_group animal grp;
  consumed ← save_optional "consumed_vol"
               (dict_get "consumed_vol" (s_fields data))
               (volumes_log "consumed_vol" animal)
               ("Caught KeyError 'consumed_vol', volumes were likely not recorded for "
                +:+ animal);
  let grp := mk_out_group (o_lick_times grp) (o_lick_indices grp)
               (o_used_start_idx grp) (o_used_stop_idx grp) consumed None in
  _ ← put_out_group animal grp;
  weight ← save_optional "weight"
             (dict_get "weight" (s_fields data))
             (weight_log "weight" animal)
             ("Caught KeyError 'weight', weight was likely not recorded for "
              +:+ animal);
  put_out_group animal
    (mk_out_group (o_lick_times grp) (o_lick_indices grp)
       (o_used_start_idx grp) (o_used_stop_idx grp) consumed weight).

Definition licks_message (animal : string) (n : nat) : string :=
  "Animal " +:+ animal +:+ " had " +:+ pretty n +:+ " licks detected".

(** *** [basic_algorithm]: the threshold scan *)

(** [max_lick_time = 1. / 6.]: the double nearest to one sixth, which is
    [6004799503160661 / 2^55], a little less than one sixth. *)
Definition max_lick_time : Q := 6004799503160661 # 36028797018963968.

(** [a + b] on [int64] values, the type of the capacitance array: NumPy
    computes the sum modulo [2^64]. *)
Definition int64_add (a b : Z) : Z :=
  ((a + b + 2 ^ 63) `mod` 2 ^ 64 - 2 ^ 63)%Z.

(** [(unique_vals[:-1] + unique_vals[1:]) / 2.0] *)
Definition thresholds_of (unique_vals : list Z) : list Q :=
  zip_with (fun a b => inject_Z (int64_add a b) / 2)%Q
    (take (length unique_vals - 1) unique_vals) (drop 1 unique_vals).

(** [np.where(v == x)[0]] *)
Definition np_where_eq (x : Z) (v : list Z) : list nat :=
  np_where ((fun y => (y =? x)%Z) <$> v).

(** The two index arrays [peak_starts] and [peak_ends] of a threshold,
    after the first and last sample have been handled. *)
Definition peak_bounds (trace : list Z) (thr : Q)
  : result (list nat * list nat) :=
  let below := (fun x => Qltb (inject_Z x) thr) <$> trace in
  let peak_trans := np_diff (Z.b2z <$> below) in
  let peak_starts := S <$> np_where_eq 1 peak_trans in
  let peak_ends := np_where_eq (-1) peak_trans in
  first ← np_index below 0;
  let peak_starts := if first : bool then 0 :: peak_starts else peak_starts in
  last ← np_index below (-1);
  let peak_ends :=
    if last : bool then peak_ends ++ [length trace - 1] else peak_ends in
  Ok (peak_starts, peak_ends).

(** [trace[ps_:pe_+1]] of the peak with index [p_idx]. *)
Definition peak_trace (trace : list Z) (peak_starts peak_ends : list nat)
    (p_idx : nat) : result (nat * list Z) :=
  ps_ ← index peak_starts p_idx;
  pe_ ← index peak_ends p_idx;
  Ok (ps_, slice ps_ (pe_ + 1) trace).

(** The [while] loop that deletes from [good_peaks] the peaks that do not
    cross the threshold two steps deeper; the peaks that are kept stay in
    order. *)
Fixpoint deep_peaks (trace : list Z) (peak_starts peak_ends : list nat)
    (depth_thr : Q) (good_peaks : list nat) : result (list nat) :=
  match good_peaks with
  | [] => Ok []
  | p_idx :: rest =>
      '(_, tr) ← peak_trace trace peak_starts peak_ends p_idx;
      rest' ← deep_peaks trace peak_starts peak_ends depth_thr rest;
      if decide (length (filter (fun x => Qltb (inject_Z x) depth_thr = true) tr) = 0)
      then Ok rest' else Ok (p_idx :: rest')
  end.

(** The body of [for i_thr in range(2, len(thresholds))]: the value of
    [peak_bins[i_thr]]; [n_peaks[i_thr]] is its length. *)
Definition threshold_peaks (trace : list Z) (times : list Q)
    (thresholds : list Q) (i_thr : nat) : result (list Z) :=
  thr ← index thresholds i_thr;
  '(peak_starts, peak_ends) ← peak_bounds trace thr;
  if decide (length peak_starts = 0 ∨ length peak_ends = 0) then Ok []
  else
    let m := length peak_starts `min` length peak_ends in
    let peak_starts := take m peak_starts in
    let peak_ends := take m peak_ends in
    (* Remove peaks that are below threshold for too long *)
    t_ends ← mapM (index times) peak_ends;
    t_starts ← mapM (index times) peak_starts;
    let peak_t := zip_with (fun e s => e - s)%Q t_ends t_starts in
    let good_peaks := np_where ((fun t => Qltb t max_lick_time) <$> peak_t) in
    if decide (length good_peaks = 0) then Ok []
    else
      (* Only look at peaks that are at least two thresholds deep *)
      depth_thr ← index thresholds (i_thr - 2);
      good_peaks ← deep_peaks trace peak_starts peak_ends depth_thr good_peaks;
      if decide (length good_peaks = 0) then Ok []
      else
        mapM (fun p_idx =>
                '(ps_, tr) ← peak_trace trace peak_starts peak_ends p_idx;
                match tr with
                | [] => Ok (-1)%Z
                | _ => peak_rel_min ← argmin Z.ltb tr;
                       Ok (Z.of_nat (ps_ + peak_rel_min))
                end) good_peaks.

(** The arrays [n_peaks] ([None] for NaN) and [peak_bins] after the loop
    over the thresholds. *)
Definition scan_thresholds (trace : list Z) (times : list Q)
    (thresholds : list Q)
  : result (list (option nat) * list (option (list Z))) :=
  forM_ (seq 2 (length thresholds - 2))
    (fun i_thr '(n_peaks, peak_bins) =>
       bins ← threshold_peaks trace times thresholds i_thr;
       Ok (<[i_thr := Some (length bins)]> n_peaks,
           <[i_thr := Some bins]> peak_bins))
    (replicate (length thresholds) None, replicate (length thresholds) None).

(** [np.nanmax(peaks_row)] for a row that is not all NaN. *)
Definition nanmax (row : list (option nat)) : nat :=
  foldr (fun x acc => match x with Some n => n `max` acc | None => acc end) 0 row.

(** [int(np.where(peaks_row == max_peaks)[0][0])] *)
Definition first_index_of (m : nat) (row : list (option nat)) : result nat :=
  index (np_where ((fun x => bool_decide (x = Some m)) <$> row)) 0.

(** The NumPy that runs the analysis.  The repository pins no release,
    and [int(a)] for a one-dimensional array [a] of one element depends on
    it: up to NumPy 2.3 the array is converted to its element (from 1.25
    on with a [DeprecationWarning]), from NumPy 2.4 on the conversion
    raises [TypeError]. *)
Inductive numpy_release : Type :=
  | numpy_up_to_2_3
  | numpy_from_2_4.

(** [int(pb_)] for an index array of one element. *)
Definition int_of_array (numpy : numpy_release) (i : Z) : result Z :=
  match numpy with
  | numpy_up_to_2_3 => Ok i
  | numpy_from_2_4 => Raise TypeError
  end.

(** The detection of one subject; [None] stands for [continue]: nothing is
    stored for the subject. *)
Definition basic_detect (numpy : numpy_release) (trace : list Z)
    (times : list Q) : result (option detection) :=
  let unique_vals := np_unique trace in
  if decide (3 < length unique_vals) then
    let thresholds := thresholds_of unique_vals in
    '(n_peaks, peak_bins) ← scan_thresholds trace times thresholds;
    if forallb (fun x => bool_decide (x = None)) n_peaks then Ok None
    else
      let max_peaks := nanmax n_peaks in
      i_thr ← first_index_of max_peaks n_peaks;
      pb_ ← index peak_bins i_thr;
      match pb_ with
      | None => Raise TypeError          (* [len(None)] *)
      | Some [i] =>
          pb_ ← int_of_array numpy i;
          t ← np_index times pb_;
          Ok (Some (mk_detection [t] (IndexScalar pb_) 1))
      | Some pb_ =>
          ts ← mapM (np_index times) pb_;
          Ok (Some (mk_detection ts (IndexArray pb_) (length ts)))
      end
  else Ok None.

Definition basic_algorithm (numpy : numpy_release)
    (data_by_animal : list (string * subject_data)) : M unit :=
  for_each data_by_animal (fun '(animal, data) =>
    d ← lift (basic_detect numpy (s_cap_data data) (s_time_data data));
    match d with
    | None => mret tt
    | Some d =>
        _ ← print (licks_message animal (num_licks d));
        save_filtered_data data d animal
    end).

(** *** [hilbert_algorithm]: the envelope-based detection *)

Section Hilbert.

(** SciPy's filter design and filtering, and the envelope test, are taken
    as given: [butter order cutoff high fs] stands for
    [scs.butter(order, cutoff, btype, fs=fs)], [filtfilt] for
    [scs.filtfilt(b, a, x)], and [envelope_mask x] for
    [env > 0.261 * np.max(env)] with [env = np.abs(scs.hilbert(x))]. *)
Variable signal : Type.
Variable coeffs : Type.
Variable butter : nat → Q → bool → Q → result coeffs.
Variable filtfilt : coeffs → signal → result signal.
Variable of_trace : list Z → signal.
Variable envelope_mask : signal → list bool.

(** [[scs.filtfilt(b, a, x) for _ in range(6)][-1]] *)
Definition last_of_six (c : coeffs) (x : signal) : result signal :=
  ys ← mapM (fun _ : nat => filtfilt c x) (seq 0 6);
  np_index ys (-1).

(** Lines 246-252: [filtered_data]. *)
Definition filtered_data (fs : Q) (trace : list Z) : result signal :=
  bh ← butter 4 8 true fs;
  bl ← butter 8 12 false fs;
  filtered_data ← filtfilt bh (of_trace trace);
  filtered_data ← filtfilt bl filtered_data;
  filtered_data ← last_of_six bh filtered_data;
  filtered_data ← last_of_six bl filtered_data;
  Ok filtered_data.

(** [np.where((trace[:-1] > trace[1:] + 15))[0] + 1] *)
Definition downs (trace : list Z) : list Z :=
  (fun i => Z.of_nat i + 1)%Z <$>
    np_where (zip_with (fun a b => (b + 15 <? a)%Z)
                (take (length trace - 1) trace) (drop 1 trace)).

(** [[i for i in downs if env_mask[i]]] *)
Definition candidates_of (env_mask : list bool) (downs : list Z)
  : result (list Z) :=
  keep ← mapM (np_index env_mask) downs;
  Ok (select downs keep).

(** The deduplication loop: a candidate is appended when [lick_idxs] is
    empty or the candidate is more than [min_dist] after its last
    element. *)
Definition dedup_step (min_dist : Z) (lick_idxs : list Z) (idx : Z) : list Z :=
  match last lick_idxs with
  | None => lick_idxs ++ [idx]
  | Some l => if (min_dist <? idx - l)%Z then lick_idxs ++ [idx] else lick_idxs
  end.

Definition dedup (min_dist : Z) (candidates : list Z) : list Z :=
  foldl (dedup_step min_dist) [] candidates.

Definition near (a b d : Z) : bool := (Z.abs (a - b) <? d)%Z.

(** Whether the continuity loop appends the [i]-th kept candidate. *)
Definition continuous (max_dist : Z) (lick_idxs : list Z) (i : nat) (idx : Z)
  : result bool :=
  if decide (i = 0) then
    ir ← index lick_idxs (i + 1);
    ir2 ← index lick_idxs (i + 2);
    Ok (near idx ir max_dist && near idx ir2 (2 * max_dist))
  else if decide (i = length lick_idxs - 1) then
    il ← index lick_idxs (i - 1);
    il2 ← index lick_idxs (i - 2);
    Ok (near idx il max_dist && near idx il2 (2 * max_dist))
  else
    il ← index lick_idxs (i - 1);
    ir ← index lick_idxs (i + 1);
    if near idx il max_dist && near idx ir max_dist then Ok true
    else if near idx il max_dist then
      if decide (i = 1) then Ok false
      else il2 ← index lick_idxs (i - 2);
           Ok (near idx il2 (2 * max_dist))
    else if near idx ir max_dist then
      if decide (length lick_idxs - 2 ≤ i) then Ok false
      else ir2 ← index lick_idxs (i + 2);
           Ok (near idx ir2 (2 * max_dist))
    else Ok false.

Definition continuity_filter (max_dist : Z) (lick_idxs : list Z)
  : result (list Z) :=
  keep ← mapM (fun '(i, idx) => continuous max_dist lick_idxs i idx)
              (enumerate lick_idxs);
  Ok (select lick_idxs keep).

(** The deduplicated candidates of a trace: [lick_idxs] before the
    continuity filter. *)
Definition kept_candidates (fs : Q) (trace : list Z) : result (list Z) :=
  x ← filtered_data fs trace;
  candidates ← candidates_of (envelope_mask x) (downs trace);
  Ok (dedup (Qtrunc ((8 # 100) * fs)) candidates).

(** The detection of one subject; [None] stands for the [continue] taken
    with fewer than three kept candidates. *)
Definition hilbert_detect (fs : option Q) (trace : list Z)
  : result (option detection) :=
  match fs with
  | None =>
      Raise (ValueError "Digital filter critical frequencies must be 0 < Wn < fs/2")
  | Some fs =>
      lick_idxs ← kept_candidates fs trace;
      let max_dist := Qtrunc ((1 # 2) * fs) in
      if decide (length lick_idxs < 3) then Ok None
      else
        lick_idxs ← continuity_filter max_dist lick_idxs;
        let lick_times := (fun i => inject_Z i / fs)%Q <$> lick_idxs in
        Ok (Some (mk_detection lick_times (IndexArray lick_idxs)
                    (length lick_times)))
  end.

Definition hilbert_algorithm (data_by_animal : list (string * subject_data))
  : M unit :=
  for_each data_by_animal (fun '(animal, data) =>
    d ← lift (hilbert_detect (s_fs data) (s_cap_data data));
    match d with
    | None => print ("No licks recorded for " +:+ animal)
    | Some d =>
        _ ← print (licks_message animal (num_licks d));
        save_filtered_data data d animal
    end).

(** *** [filter_data] *)

(** The truncation loop over the boards and sensors of [data_dict]. *)
Fixpoint process_sensors (board_id : string)
    (sensors : list (string * sensor_data)) : M (list (string * subject_data)) :=
  match sensors with
  | [] => mret []
  | (sensor_id, sd) :: rest =>
      d ← process_sensor board_id sensor_id sd;
      ds ← process_sensors board_id rest;
      mret ((sensor_id, d) :: ds)
  end.

(** A dataset is skipped when it is the [comments] field; any other one
    has no [items()].  The name of a board group is never [comments]. *)
Fixpoint process_boards (raw : list top_level)
  : M (list (string * dict_node)) :=
  match raw with
  | [] => mret []
  | t :: rest =>
      b ← match t with
          | TopDataset board_id =>
              if decide (board_id = "comments") then mret DictDataset
              else raise AttributeError
          | BoardGroup sn sensors =>
              board_data ← process_sensors (board_name sn) sensors;
              mret (DictBoard board_data)
          end;
      bs ← process_boards rest;
      mret ((key_of t, b) :: bs)
  end.

(** The static partition of the sensors into boards; a sensor outside it
    leaves [board_id] as it was: as the previous row set it or, before the
    first row, as the truncation loop left it. *)
Definition board_of_sensor (sensor : nat) (board_id : option string)
  : option string :=
  if bool_decide (sensor ∈ [1; 2; 3; 7; 8; 9]) then Some "board_FT232H0"
  else if bool_decide (sensor ∈ [4; 5; 6; 10; 11; 12]) then Some "board_FT232H1"
  else if bool_decide (sensor ∈ [13; 14; 15; 19; 20; 21]) then Some "board_FT232H2"
  else if bool_decide (sensor ∈ [16; 17; 18; 22; 23; 24]) then Some "board_FT232H3"
  else board_id.

(** The loop over the rows [(sensor, animal)] of [sensor_animal_map];
    [board_id] is [None] while the variable is unbound.  Indexing the
    [comments] dataset with a sensor name raises the [ValueError] that
    h5py has for a field name on a dataset without fields, which the
    [except KeyError] does not catch. *)
Fixpoint by_animal (data_dict : list (string * dict_node))
    (rows : list (nat * string)) (board_id : option string)
    (data_by_animal : list (string * subject_data))
  : M (list (string * subject_data)) :=
  match rows with
  | [] => mret data_by_animal
  | (sensor, animal) :: rest =>
      let board_id := board_of_sensor sensor board_id in
      match board_id with
      | None => raise UnboundLocalError
      | Some b =>
          data_by_animal ←
            match dict_get b data_dict with
            | None =>
                _ ← print ("Missing key in data_dict: '" +:+ b +:+ "'");
                mret data_by_animal
            | Some DictDataset =>
                raise (ValueError "Field names only allowed for compound types")
            | Some (DictBoard board) =>
                match dict_get (sensor_name sensor) board with
                | None =>
                    _ ← print ("Missing key in data_dict: '"
                               +:+ sensor_name sensor +:+ "'");
                    mret data_by_animal
                | Some data => mret (dict_set animal data data_by_animal)
                end
            end;
          by_animal data_dict rest board_id data_by_animal
      end
  end.

Inductive algorithm : Type := basic_threshold | hilbert | other_algorithm.

(** After the truncation loop its variable [board_id] is still bound to
    the last top-level key of the raw file, [comments] included; it is
    unbound only when the file has no key at all. *)
Definition filter_data (numpy : numpy_release) (raw_h5f : list top_level)
    (sensor_animal_map : list (nat * string)) (alg : algorithm) : M unit :=
  data_dict ← process_boards raw_h5f;
  let board_id := last (key_of <$> raw_h5f) in
  data_by_animal ← by_animal data_dict sensor_animal_map board_id [];
  match alg with
  | basic_threshold => basic_algorithm numpy data_by_animal
  | hilbert => hilbert_algorithm data_by_animal
  | other_algorithm => mret tt
  end.

End Hilbert.

End Analysis.

(** * Properties *)

(** ** Loops in the error monad *)

Section loops.
Context {A S : Type}.
Implicit Types (l : list A) (body : A → S → result S).

Lemma forM__app l1 l2 body s :
  forM_ (l1 ++ l2) body s = (s' ← forM_ l1 body s; forM_ l2 body s').
Proof.
  revert s. induction l1 as [|a l1 IH]; intros s; simpl; [done|].
  destruct (body a s) as [s1|e]; simpl; [apply IH | done].
Qed.

Lemma forM__preserves (P : S → Prop) l body s s' :
  (∀ a s1 s2, a ∈ l → P s1 → body a s1 = Ok s2 → P s2) →
  P s → forM_ l body s = Ok s' → P s'.
Proof.
  revert s. induction l as [|a l IH]; intros s Hbody HP Hrun; simpl in Hrun.
  - by inversion Hrun; subst.
  - destruct (body a s) as [s1|e] eqn:Ha; simpl in Hrun; [|done].
    apply (IH s1); [|by eapply Hbody; [left| |]|done].
    intros a' s2 s3 Hin. apply Hbody. by right.
Qed.

Lemma forM__ext l body1 body2 s :
  (∀ a s, a ∈ l → body1 a s = body2 a s) →
  forM_ l body1 s = forM_ l body2 s.
Proof.
  revert s. induction l as [|a l IH]; intros s Hext; simpl; [done|].
  rewrite Hext; [|by left]. destruct (body2 a s); simpl; [|done].
  apply IH. intros a' s' Hin. apply Hext. by right.
Qed.
End loops.

Lemma forM__fmap {A B S : Type} (f : A → B) (l : list A)
    (body : B → S → result S) (s : S) :
  forM_ (f <$> l) body s = forM_ l (fun a => body (f a)) s.
Proof.
  revert s. induction l as [|a l IH]; intros s; simpl; [done|].
  destruct (body (f a) s); simpl; [apply IH | done].
Qed.

(** Nested loops are one loop over the pairs. *)
Lemma forM__nested {A B S : Type} (f : A → list B) (l : list A)
    (body : A → B → S → result S) (s : S) :
  forM_ l (fun a => forM_ (f a) (body a)) s =
  forM_ (l ≫= fun a => pair a <$> f a) (fun ab => body ab.1 ab.2) s.
Proof.
  revert s. induction l as [|a l IH]; intros s; simpl; [done|].
  rewrite forM__app, forM__fmap. simpl.
  destruct (forM_ (f a) (body a) s); simpl; [apply IH | done].
Qed.

(** A loop whose body rewrites one entry of a keyed store, for distinct
    keys: every visited entry is rewritten once, the others are left. *)
Section pointwise.
Context {A K S V : Type}.
Variable key : A → K.
Variable view : S → K → option V.
Variable body : A → S → result S.
Variable R : A → V → V → Prop.

Lemma forM__pointwise (l : list A) (s s' : S) :
  (∀ a s1 s2, a ∈ l → body a s1 = Ok s2 →
     (∃ v v', view s1 (key a) = Some v ∧ view s2 (key a) = Some v' ∧ R a v v')
     ∧ ∀ k, k ≠ key a → view s2 k = view s1 k) →
  NoDup (key <$> l) →
  forM_ l body s = Ok s' →
  (∀ a, a ∈ l →
     ∃ v v', view s (key a) = Some v ∧ view s' (key a) = Some v' ∧ R a v v')
  ∧ (∀ k, k ∉ key <$> l → view s' k = view s k).
Proof.
  revert s. induction l as [|a l IH]; intros s Hbody Hnd Hrun; simpl in Hrun.
  - inversion Hrun; subst. split; [intros a Ha; by apply elem_of_nil in Ha | done].
  - destruct (body a s) as [s1|e] eqn:Ha; simpl in Hrun; [|done].
    rewrite fmap_cons in Hnd. apply NoDup_cons in Hnd as [Hnotin Hnd].
    destruct (Hbody a s s1) as [(v & v1 & Hv & Hv1 & HR) Hother]; [by left|done|].
    destruct (IH s1) as [IHin IHout]; [|done|done|].
    { intros a' s2 s3 Hin. apply Hbody. by right. }
    split.
    + intros a' [->|Hin]%elem_of_cons.
      * exists v, v1. by rewrite (IHout _ Hnotin).
      * destruct (IHin a' Hin) as (w & w' & Hw & Hw' & HR').
        exists w, w'. split_and!; [|done..].
        rewrite <- Hw. symmetry. apply Hother.
        intros Heq. apply Hnotin. rewrite <- Heq.
        by apply list_elem_of_fmap_2.
    + intros k Hk. rewrite fmap_cons in Hk.
      apply not_elem_of_cons in Hk as [Hne Hk].
      rewrite (IHout _ Hk). by apply Hother.
Qed.
End pointwise.

(** A loop that creates named entries: it succeeds only on fresh, distinct
    names, and leaves every entry it created. *)
Lemma forM__create {A V : Type} (name : A → string) (mk : A → result V)
    (e : exn) (l : list A) (m0 m : gmap string V) :
  forM_ l (fun a m =>
    match m !! name a with
    | Some _ => Raise e
    | None => v ← mk a; Ok (<[name a := v]> m)
    end) m0 = Ok m →
  NoDup (name <$> l)
  ∧ (∀ a, a ∈ l → m0 !! name a = None ∧ ∃ v, mk a = Ok v ∧ m !! name a = Some v)
  ∧ (∀ k v, m0 !! k = Some v → m !! k = Some v).
Proof.
  revert m0. induction l as [|a l IH]; intros m0 Hrun; simpl in Hrun.
  - inversion Hrun; subst. split_and!; [constructor | | done].
    intros a Ha. by apply elem_of_nil in Ha.
  - destruct (m0 !! name a) eqn:Hfresh; [done|].
    destruct (mk a) as [v|] eqn:Hmk; simpl in Hrun; [|done].
    destruct (IH _ Hrun) as (Hnd & Hin & Hmono).
    assert (Hkept : m !! name a = Some v).
    { apply Hmono. by rewrite lookup_insert_eq. }
    split_and!.
    + rewrite fmap_cons. apply NoDup_cons. split; [|done].
      intros (a' & Heq & Ha')%list_elem_of_fmap.
      destruct (Hin a' Ha') as [Hnone _].
      rewrite <- Heq, lookup_insert_eq in Hnone. done.
    + intros a' [->|Ha']%elem_of_cons; [eauto|].
      destruct (Hin a' Ha') as [Hnone Hsome]. split; [|done].
      destruct (decide (name a = name a')) as [Heq|Hne].
      * rewrite <- Heq, lookup_insert_eq in Hnone. done.
      * by rewrite lookup_insert_ne in Hnone.
    + intros k w Hk. apply Hmono.
      rewrite lookup_insert_ne; [done|]. intros <-. congruence.
Qed.

Lemma mapM_result_Forall2 {A B : Type} (f : A → result B) (l : list A)
    (k : list B) :
  mapM f l = Ok k → Forall2 (fun a b => f a = Ok b) l k.
Proof.
  revert k. induction l as [|a l IH]; intros k Hk; simpl in Hk.
  - inversion Hk. constructor.
  - destruct (f a) as [b|] eqn:Hfa; simpl in Hk; [|done].
    destruct (mapM f l) as [k'|]; simpl in Hk; [|done].
    inversion Hk; subst. constructor; [done | by apply IH].
Qed.

(** ** Names *)

Lemma HISTORY_SIZE_pos : 0 < HISTORY_SIZE.
Proof. unfold HISTORY_SIZE. lia. Qed.

Lemma board_name_inj sn1 sn2 : board_name sn1 = board_name sn2 → sn1 = sn2.
Proof. unfold board_name. intros H. by simplify_eq/=. Qed.

Lemma sensor_name_inj s1 s2 : sensor_name s1 = sensor_name s2 → s1 = s2.
Proof. unfold sensor_name. intros H. simplify_eq/=. by apply (inj pretty). Qed.

Lemma sensors_of_NoDup sn : NoDup (sensors_of sn).
Proof.
  unfold sensors_of, SERIAL_NUMBER_SENSOR_MAP. simpl.
  repeat case_decide; simpl; try constructor;
    apply (bool_decide_unpack _); vm_compute; exact I.
Qed.

(** ** The recorder *)

(** Two-level dictionaries: [m[k1][k2]]. *)
Definition lookup2 {K1 K2 V : Type} `{Countable K1, Countable K2}
    (m : gmap K1 (gmap K2 V)) (k1 : K1) (k2 : K2) : option V :=
  m !! k1 ≫= (.!! k2).

Lemma lookup2_insert_eq {K1 K2 V : Type} `{Countable K1, Countable K2}
    (m : gmap K1 (gmap K2 V)) k1 k2 b v :
  lookup2 (<[k1 := <[k2 := v]> b]> m) k1 k2 = Some v.
Proof. unfold lookup2. rewrite lookup_insert_eq. simpl. apply lookup_insert_eq. Qed.

Lemma lookup2_insert_ne {K1 K2 V : Type} `{Countable K1, Countable K2}
    (m : gmap K1 (gmap K2 V)) k1 k2 k1' k2' b v :
  m !! k1 = Some b → (k1, k2) ≠ (k1', k2') →
  lookup2 (<[k1 := <[k2 := v]> b]> m) k1' k2' = lookup2 m k1' k2'.
Proof.
  intros Hb Hne. unfold lookup2.
  destruct (decide (k1 = k1')) as [<-|Hk1].
  - rewrite lookup_insert_eq, Hb. simpl. apply lookup_insert_ne. congruence.
  - by rewrite lookup_insert_ne.
Qed.

Lemma lookup_foldl_insert {K V : Type} `{Countable K} (g : K → V)
    (l : list K) (m0 : gmap K V) (k : K) :
  foldl (fun m k => <[k := g k]> m) m0 l !! k =
  if decide (k ∈ l) then Some (g k) else m0 !! k.
Proof.
  revert m0. induction l as [|a l IH]; intros m0; cbn [foldl].
  - rewrite decide_False; [done | apply not_elem_of_nil].
  - rewrite IH. destruct (decide (k ∈ l)) as [Hin|Hnin].
    + rewrite decide_True; [done | by right].
    + destruct (decide (k = a)) as [->|Hne].
      * rewrite lookup_insert_eq, decide_True; [done | by left].
      * rewrite lookup_insert_ne by done. rewrite decide_False; [done|].
        by intros [?|?]%elem_of_cons.
Qed.

Section recorder_properties.
Context {num : Type} (fill : num) (positive : num → bool).
Context (other_tasks : nat → list (@Recorder.call num)).
Context (sensor_reader : nat → string → result (list num * list num)).

Import Recorder.

Local Abbreviation SensorRecorder := (@SensorRecorder num).
Local Abbreviation h5file := (@h5file num).
Local Abbreviation dataset := (@dataset num).
Local Abbreviation iteration := (iteration fill positive other_tasks sensor_reader).
Local Abbreviation while_recording :=
  (while_recording fill positive other_tasks sensor_reader).
Local Abbreviation record_sensors :=
  (record_sensors fill positive other_tasks sensor_reader).
Local Abbreviation at_loop_head :=
  (at_loop_head fill positive other_tasks sensor_reader).
Local Abbreviation flush := (flush fill).
Local Abbreviation append_data := (append_data fill).
Local Abbreviation append_sensor := (append_sensor fill).
Local Abbreviation apply_call := (apply_call positive).
Local Abbreviation read_sensor_data := (read_sensor_data sensor_reader).

(** *** Observations of a recorder *)

(** The ring buffers of a sensor, [list(self.board_time_data[sn][sensor])]. *)
Definition time_buffer (st : SensorRecorder) (sn : string) (sensor : nat)
  : option (list num) := lookup2 (board_time_data st) sn sensor.
Definition cap_buffer (st : SensorRecorder) (sn : string) (sensor : nat)
  : option (list num) := lookup2 (board_cap_data st) sn sensor.

(** The group of a sensor in the file. *)
Definition file_group (f : h5file) (sn : string) (sensor : nat)
  : option (gmap string dataset) :=
  lookup2 (groups f) (board_name sn) (sensor_name sensor).

(** The samples stored on disk in a sensor's array [name]; none when the
    array has not been created. *)
Definition on_disk (st : SensorRecorder) (sn : string) (sensor : nat)
    (name : string) : list num :=
  match h5 st with
  | Some f =>
      match file_group f sn sensor with
      | Some g => match g !! name with
                  | Some (Array l) => l
                  | _ => []
                  end
      | None => []
      end
  | None => []
  end.

(** The sample that iteration [i] appends for the sensor at position [idx]
    of board [sn]. *)
Definition time_sample (sn : string) (idx i : nat) : num :=
  match sensor_reader i sn with
  | Ok (local_time, _) => default fill (local_time !! idx)
  | Raise _ => fill
  end.
Definition cap_sample (sn : string) (idx i : nat) : num :=
  match sensor_reader i sn with
  | Ok (_, local_cap) => default fill (local_cap !! idx)
  | Raise _ => fill
  end.

(** The iterations whose samples a ring buffer holds after [n] appends. *)
Definition window (n : nat) : list nat :=
  seq (n - n `min` HISTORY_SIZE) (n `min` HISTORY_SIZE).

(** The state of a sensor's group when the loop counter is [n]: no arrays
    up to the first flush, and after the [q]-th flush the samples of the
    iterations [1 .. q * HISTORY_SIZE]. *)
Definition disk_state (sn : string) (idx n : nat) (g : gmap string dataset)
  : Prop :=
  (n ≤ HISTORY_SIZE ∧ g !! "time_data" = None ∧ g !! "cap_data" = None)
  ∨ (∃ q, 1 ≤ q ∧ q * HISTORY_SIZE < n ≤ q * HISTORY_SIZE + HISTORY_SIZE
        ∧ g !! "time_data" =
            Some (Array (time_sample sn idx <$> seq 1 (q * HISTORY_SIZE)))
        ∧ g !! "cap_data" =
            Some (Array (cap_sample sn idx <$> seq 1 (q * HISTORY_SIZE)))).

Definition buffers_at (ctrls : list string) (n : nat) (st : SensorRecorder)
  : Prop :=
  ∀ sn idx sensor, sn ∈ ctrls → sensors_of sn !! idx = Some sensor →
    time_buffer st sn sensor = Some (time_sample sn idx <$> window n)
    ∧ cap_buffer st sn sensor = Some (cap_sample sn idx <$> window n).

Definition disk_at (ctrls : list string) (n : nat) (f : h5file) : Prop :=
  ∀ sn idx sensor, sn ∈ ctrls → sensors_of sn !! idx = Some sensor →
    ∃ g, file_group f sn sensor = Some g ∧ disk_state sn idx n g.

(** The invariant of the loop head. *)
Record loop_inv (ctrls : list string) (st : SensorRecorder) : Prop := {
  inv_controllers : controllers st = ctrls;
  inv_NoDup : NoDup ctrls;
  inv_buffers : buffers_at ctrls (loop_counter st) st;
  inv_disk : ∃ f, h5 st = Some f ∧ disk_at ctrls (loop_counter st) f
}.

Lemma window_0 : window 0 = [].
Proof. done. Qed.

Local Opaque HISTORY_SIZE.
Local Arguments window : simpl never.

Lemma deque_append_window (f : nat → num) (n : nat) :
  deque_append (f <$> window n) (f n) = f <$> window (S n).
Proof.
  unfold deque_append, window.
  pose proof HISTORY_SIZE_pos as Hpos.
  replace (f <$> seq (n - n `min` HISTORY_SIZE) (n `min` HISTORY_SIZE))
    with (f <$> seq (n - n `min` HISTORY_SIZE) (n `min` HISTORY_SIZE)) by done.
  assert (Happ : (f <$> seq (n - n `min` HISTORY_SIZE) (n `min` HISTORY_SIZE)) ++ [f n]
          = f <$> seq (n - n `min` HISTORY_SIZE) (S (n `min` HISTORY_SIZE))).
  { rewrite seq_S, fmap_app. simpl. do 3 f_equal. lia. }
  rewrite Happ, length_fmap, length_seq, <- fmap_drop, drop_seq.
  f_equal. f_equal; lia.
Qed.

(** *** The prologue *)

Lemma init_buffers ctrls sn sensor :
  sn ∈ ctrls → sensor ∈ sensors_of sn →
  time_buffer (init ctrls) sn sensor = Some []
  ∧ cap_buffer (init ctrls) sn sensor = Some [].
Proof.
  intros Hsn Hs. unfold time_buffer, cap_buffer, init, lookup2. simpl.
  rewrite (lookup_foldl_insert (fun sn => empty_buffers (sensors_of sn))).
  rewrite decide_True by done. simpl.
  unfold empty_buffers.
  rewrite (lookup_foldl_insert (fun _ : nat => @nil num)).
  by rewrite decide_True.
Qed.

Lemma initialize_hdf5_file_spec (st st' : SensorRecorder) :
  initialize_hdf5_file st = Ok st' →
  NoDup (controllers st)
  ∧ controllers st' = controllers st
  ∧ recording st' = recording st
  ∧ loop_counter st' = loop_counter st
  ∧ board_time_data st' = board_time_data st
  ∧ board_cap_data st' = board_cap_data st
  ∧ ∃ f, h5 st' = Some f
      ∧ ∀ sn sensor, sn ∈ controllers st → sensor ∈ sensors_of sn →
          file_group f sn sensor = Some ∅.
Proof.
  unfold initialize_hdf5_file. intros Hrun.
  match type of Hrun with (?c ≫= _) = _ => destruct c as [gs|] eqn:Hgs end;
    simpl in Hrun; [|done].
  inversion Hrun; subst; clear Hrun. simpl.
  apply (forM__create board_name
           (fun sn => create_sensor_groups (sensors_of sn))) in Hgs
    as (Hnd & Hin & _).
  split_and!; try done.
  - apply (NoDup_fmap_1 board_name), Hnd.
  - eexists. split; [done|]. intros sn sensor Hsn Hs.
    destruct (Hin sn Hsn) as [_ (b & Hb & Hlook)].
    unfold file_group, lookup2. simpl. rewrite Hlook. simpl.
    apply (forM__create sensor_name (fun _ => Ok ∅)) in Hb as (_ & Hb & _).
    destruct (Hb sensor Hs) as [_ (g & Hg & ->)]. by inversion Hg.
Qed.

Lemma start_Ok (st st' : SensorRecorder) :
  start st = Ok st' →
  initialize_hdf5_file (set_loop_counter (set_recording st true) 0) = Ok st'
  ∧ controllers st' ≠ [].
Proof.
  unfold start, thread_pool_executor. intros Hrun.
  destruct (initialize_hdf5_file _) as [st1|]; simpl in Hrun; [|done].
  case_decide as Hlen; simpl in Hrun; [done|].
  injection Hrun as ->. split; [done|].
  intros Hnil. by rewrite Hnil in Hlen.
Qed.

Lemma start_loop_inv ctrls (st : SensorRecorder) :
  start (init ctrls) = Ok st →
  loop_inv ctrls st ∧ loop_counter st = 0 ∧ recording st = true.
Proof.
  intros [Hrun _]%start_Ok.
  apply initialize_hdf5_file_spec in Hrun
    as (Hnd & Hc & Hr & Hl & Ht & Hcap & f & Hf & Hgroups).
  simpl in *. split_and!; [|done..].
  split; [done | done | |].
  - rewrite Hl. intros sn idx sensor Hsn Hidx.
    apply list_elem_of_lookup_2 in Hidx.
    destruct (init_buffers ctrls sn sensor Hsn Hidx) as [Htb Hcb].
    unfold time_buffer, cap_buffer in *. rewrite Ht, Hcap. simpl in *.
    done.
  - exists f. split; [done|]. rewrite Hl.
    intros sn idx sensor Hsn Hidx. exists ∅. split.
    + apply Hgroups; [done|]. by eapply list_elem_of_lookup_2.
    + left. split_and!; [lia | done | done].
Qed.

(** *** What the other tasks can change *)

Lemma write_once_lookup_ne name (v : option num) (g : gmap string dataset) k :
  k ≠ name → write_once name v g !! k = g !! k.
Proof.
  intros Hne. unfold write_once. destruct v; [|done].
  destruct (g !! name); [done|]. by rewrite lookup_insert_ne.
Qed.

Lemma overwrite_positive_lookup_ne name (v : option num)
    (g : gmap string dataset) k :
  k ≠ name → overwrite_positive positive name v g !! k = g !! k.
Proof.
  intros Hne. unfold overwrite_positive. destruct v as [x|]; [|done].
  destruct (positive x); [|done].
  rewrite lookup_insert_ne by done.
  destruct (g !! name); [by rewrite lookup_delete_ne | done].
Qed.

Lemma write_once_present name (x : num) (g : gmap string dataset) :
  is_Some (write_once name (Some x) g !! name).
Proof.
  unfold write_once. destruct (g !! name) eqn:Hg; [by rewrite Hg|].
  rewrite lookup_insert_eq. eauto.
Qed.

Lemma write_once_id name (v : option num) (g : gmap string dataset) :
  (is_Some v → is_Some (g !! name)) → write_once name v g = g.
Proof.
  unfold write_once. destruct v as [x|]; [|done].
  intros Hs. destruct (g !! name) eqn:Hg; [done|].
  destruct Hs as [? ?]; [eauto | done].
Qed.

(** The metadata names of a cycle are not the names of the arrays, and a
    volume or weight name is never a timestamp name. *)
Ltac name_ne :=
  unfold cycle_name; repeat case_decide; simpl; intros ?; simplify_eq.

Lemma metadata_name_not_array base cycle :
  base ∈ ["start_time"; "stop_time"; "start_vol"; "stop_vol"; "weight"] →
  cycle_name base cycle ≠ "time_data" ∧ cycle_name base cycle ≠ "cap_data".
Proof.
  intros Hin. repeat (apply elem_of_cons in Hin as [->|Hin]);
    try (by apply elem_of_nil in Hin); split; name_ne.
Qed.

Lemma volume_name_not_timestamp vol time c c' :
  vol ∈ ["start_vol"; "stop_vol"; "weight"] →
  time ∈ ["start_time"; "stop_time"] →
  cycle_name vol c ≠ cycle_name time c'.
Proof.
  intros Hv Ht.
  repeat (apply elem_of_cons in Hv as [->|Hv]);
    try (by apply elem_of_nil in Hv);
    repeat (apply elem_of_cons in Ht as [->|Ht]);
    try (by apply elem_of_nil in Ht);
    name_ne.
Qed.

(** The group that [write_sensor_metadata] leaves for its sensor, from the
    group it found. *)
Definition metadata_update (start_time stop_time start_vol stop_vol weight : option num)
    (cycle : nat) (g : gmap string dataset) : gmap string dataset :=
  overwrite_positive positive (cycle_name "weight" cycle) weight
    (overwrite_positive positive (cycle_name "stop_vol" cycle) stop_vol
       (overwrite_positive positive (cycle_name "start_vol" cycle) start_vol
          (write_once (cycle_name "stop_time" cycle) stop_time
             (write_once (cycle_name "start_time" cycle) start_time g)))).

Lemma write_sensor_metadata_file_spec (f f' : h5file) sensor_id t0 t1 v0 v1 w cycle :
  write_sensor_metadata_file positive f sensor_id t0 t1 v0 v1 w cycle = Ok f' →
  ∃ sn b, board_of sensor_id = Ok sn
    ∧ groups f !! board_name sn = Some b
    ∧ comments f' = comments f
    ∧ lookup2 (groups f') (board_name sn) (sensor_name sensor_id) =
        Some (metadata_update t0 t1 v0 v1 w cycle
                (default ∅ (b !! sensor_name sensor_id)))
    ∧ ∀ B S, (B, S) ≠ (board_name sn, sensor_name sensor_id) →
        lookup2 (groups f') B S = lookup2 (groups f) B S.
Proof.
  unfold write_sensor_metadata_file. intros Hrun.
  destruct (board_of sensor_id) as [sn|]; simpl in Hrun; [|done].
  destruct (groups f !! board_name sn) as [b|] eqn:Hb; simpl in Hrun; [|done].
  inversion Hrun; subst; clear Hrun. exists sn, b. simpl.
  split_and!; try done.
  - apply lookup2_insert_eq.
  - intros B S Hne. apply lookup2_insert_ne; [done | congruence].
Qed.

Lemma metadata_update_arrays t0 t1 v0 v1 w cycle (g : gmap string dataset) :
  metadata_update t0 t1 v0 v1 w cycle g !! "time_data" = g !! "time_data"
  ∧ metadata_update t0 t1 v0 v1 w cycle g !! "cap_data" = g !! "cap_data".
Proof.
  unfold metadata_update.
  split;
    rewrite !overwrite_positive_lookup_ne, !write_once_lookup_ne; try done;
    intros Heq; symmetry in Heq; revert Heq;
    apply metadata_name_not_array; repeat constructor.
Qed.

(** The file after some calls of the other tasks: every group is still
    there, with the arrays it had. *)
Definition same_arrays (f f' : h5file) : Prop :=
  ∀ B S g, lookup2 (groups f) B S = Some g →
    ∃ g', lookup2 (groups f') B S = Some g'
      ∧ g' !! "time_data" = g !! "time_data"
      ∧ g' !! "cap_data" = g !! "cap_data".

Lemma same_arrays_refl f : same_arrays f f.
Proof. intros B S g Hg. eauto. Qed.

Lemma same_arrays_trans f1 f2 f3 :
  same_arrays f1 f2 → same_arrays f2 f3 → same_arrays f1 f3.
Proof.
  intros H12 H23 B S g Hg.
  destruct (H12 _ _ _ Hg) as (g2 & Hg2 & Ht & Hc).
  destruct (H23 _ _ _ Hg2) as (g3 & Hg3 & Ht' & Hc').
  exists g3. split_and!; [done | congruence | congruence].
Qed.

Lemma write_sensor_metadata_file_same_arrays (f f' : h5file)
    sensor_id t0 t1 v0 v1 w cycle :
  write_sensor_metadata_file positive f sensor_id t0 t1 v0 v1 w cycle = Ok f' →
  same_arrays f f'.
Proof.
  intros (sn & b & _ & Hb & _ & Heq & Hne)%write_sensor_metadata_file_spec.
  intros B S g Hg.
  destruct (decide ((B, S) = (board_name sn, sensor_name sensor_id))) as [Hk|Hk].
  - inversion Hk; subst. rewrite Heq. eexists. split; [done|].
    unfold lookup2 in Hg. rewrite Hb in Hg. simpl in Hg. rewrite Hg. simpl.
    apply metadata_update_arrays.
  - rewrite (Hne _ _ Hk). eauto.
Qed.

Record yields_to (st st' : SensorRecorder) : Prop := {
  yield_controllers : controllers st' = controllers st;
  yield_loop_counter : loop_counter st' = loop_counter st;
  yield_time_data : board_time_data st' = board_time_data st;
  yield_cap_data : board_cap_data st' = board_cap_data st;
  yield_recording : recording st' = true → recording st = true;
  yield_h5 : ∀ f, h5 st = Some f → ∃ f', h5 st' = Some f' ∧ same_arrays f f'
}.

Lemma yields_to_refl st : yields_to st st.
Proof. split; try done. intros f Hf. exists f. eauto using same_arrays_refl. Qed.

Lemma yields_to_trans st1 st2 st3 :
  yields_to st1 st2 → yields_to st2 st3 → yields_to st1 st3.
Proof.
  intros [] []. split; try congruence; [tauto|].
  intros f Hf. destruct (yield_h5 st1 st2 ltac:(split; eauto) f Hf) as (f2 & Hf2 & H12).
  destruct (yield_h5 st2 st3 ltac:(split; eauto) f2 Hf2) as (f3 & Hf3 & H23).
  exists f3. eauto using same_arrays_trans.
Qed.

Lemma apply_call_yields st c : yields_to st (apply_call st c).
Proof.
  destruct c as [|sensor_id t0 t1 v0 v1 w cycle|text]; simpl.
  - split; try done. intros f Hf. exists f. eauto using same_arrays_refl.
  - unfold write_sensor_metadata.
    destruct (board_of sensor_id); simpl; [|apply yields_to_refl].
    unfold open_rw. destruct (h5 st) as [f|] eqn:Hf; simpl; [|apply yields_to_refl].
    destruct (write_sensor_metadata_file positive f sensor_id t0 t1 v0 v1 w cycle)
      as [f'|] eqn:Hw; simpl; [|apply yields_to_refl].
    split; try done. simpl. intros f0 Hf0. exists f'. split; [done|].
    replace f0 with f by congruence.
    by eapply write_sensor_metadata_file_same_arrays.
  - unfold write_comments, open_rw.
    destruct (h5 st) as [f|] eqn:Hf; simpl; [|apply yields_to_refl].
    split; try done. simpl. intros f0 Hf0. eexists. split; [done|].
    replace f0 with f by congruence. intros B S g Hg. eauto.
Qed.

Lemma foldl_apply_call_yields st cs : yields_to st (foldl apply_call st cs).
Proof.
  revert st. induction cs as [|c cs IH]; intros st; simpl.
  - apply yields_to_refl.
  - eapply yields_to_trans; [apply apply_call_yields | apply IH].
Qed.

Lemma foldl_apply_call_stop st cs :
  CallStop ∈ cs → recording (foldl apply_call st cs) = false.
Proof.
  revert st. induction cs as [|c cs IH]; intros st Hin.
  - by apply elem_of_nil in Hin.
  - simpl. apply elem_of_cons in Hin as [<-|Hin]; [|by apply IH].
    destruct (recording (foldl apply_call (apply_call st CallStop) cs)) eqn:Hr;
      [|done].
    by apply (yield_recording _ _ (foldl_apply_call_yields _ cs)) in Hr.
Qed.

(** *** Appending one iteration's samples *)

Lemma elem_of_enumerate {A : Type} (l : list A) (i : nat) (x : A) :
  (i, x) ∈ enumerate l ↔ l !! i = Some x.
Proof.
  unfold enumerate. rewrite list_elem_of_lookup. split.
  - intros (j & Hj). apply lookup_zip_with_Some in Hj
      as (i' & x' & Heq & Hseq & Hl). inversion Heq; subst.
    apply lookup_seq in Hseq as [-> _]. done.
  - intros Hl. exists i. apply lookup_zip_with_Some. exists i, x.
    split_and!; [done | | done].
    apply lookup_seq. split; [done|]. by eapply lookup_lt_Some.
Qed.

Lemma snd_enumerate {A : Type} (l : list A) : (enumerate l).*2 = l.
Proof. unfold enumerate. apply snd_zip. by rewrite length_seq. Qed.

Lemma NoDup_nested_keys {A B K1 K2 : Type} (k1 : A → K1) (k2 : B → K2)
    (f : A → list B) (l : list A) :
  NoDup (k1 <$> l) → (∀ a, a ∈ l → NoDup (k2 <$> f a)) →
  NoDup ((fun ab => (k1 ab.1, k2 ab.2)) <$> (l ≫= fun a => pair a <$> f a)).
Proof.
  induction l as [|a l IH]; intros Hnd Hf; simpl; [constructor|].
  rewrite fmap_cons in Hnd. apply NoDup_cons in Hnd as [Hnotin Hnd].
  rewrite fmap_app. apply NoDup_app. split_and!.
  - rewrite <- list_fmap_compose.
    assert (Hinner : NoDup (k2 <$> f a)) by (apply Hf; by left).
    clear -Hinner. induction (f a) as [|b bs IHb]; simpl; [constructor|].
    rewrite fmap_cons in Hinner. apply NoDup_cons in Hinner as [Hb Hbs].
    apply NoDup_cons. split; [|by apply IHb].
    intros (b' & Heq & Hb')%list_elem_of_fmap. simpl in Heq.
    injection Heq as Hk. apply Hb. rewrite Hk. by apply list_elem_of_fmap_2.
  - intros k (ab & -> & Hab)%list_elem_of_fmap (cd & Heq & Hcd)%list_elem_of_fmap.
    apply list_elem_of_fmap in Hab as (b & -> & _).
    apply list_elem_of_bind in Hcd as (a' & Hcd & Ha').
    apply list_elem_of_fmap in Hcd as (d & -> & _). simpl in Heq.
    injection Heq as Hk _. apply Hnotin. rewrite Hk.
    by apply list_elem_of_fmap_2.
  - apply IH; [done|]. intros a' Ha'. apply Hf. by right.
Qed.

(** The two ring buffers of a sensor, as one entry of a store keyed by
    (board, sensor). *)
Definition buffers_view (st : SensorRecorder) (k : string * nat)
  : option (list num * list num) :=
  match time_buffer st k.1 k.2, cap_buffer st k.1 k.2 with
  | Some tb, Some cb => Some (tb, cb)
  | _, _ => None
  end.

Definition same_frame (st st' : SensorRecorder) : Prop :=
  controllers st' = controllers st ∧ recording st' = recording st
  ∧ loop_counter st' = loop_counter st ∧ h5 st' = h5 st.

Lemma append_sample_spec lt lc sn idx sensor (st st' : SensorRecorder) :
  append_sample lt lc sn idx sensor st = Ok st' →
  (∃ v v', buffers_view st (sn, sensor) = Some v
     ∧ buffers_view st' (sn, sensor) = Some v'
     ∧ ∃ x y, lt !! idx = Some x ∧ lc !! idx = Some y
         ∧ v' = (deque_append v.1 x, deque_append v.2 y))
  ∧ (∀ k, k ≠ (sn, sensor) → buffers_view st' k = buffers_view st k)
  ∧ same_frame st st'.
Proof.
  unfold append_sample, index, buffer_append. intros Hrun.
  destruct (lt !! idx) as [x|] eqn:Hx; simpl in Hrun; [|done].
  destruct (board_time_data st !! sn) as [bt|] eqn:Hbt; simpl in Hrun; [|done].
  destruct (bt !! sensor) as [tb|] eqn:Htb; simpl in Hrun; [|done].
  destruct (lc !! idx) as [y|] eqn:Hy; simpl in Hrun; [|done].
  destruct (board_cap_data st !! sn) as [bc|] eqn:Hbc; simpl in Hrun; [|done].
  destruct (bc !! sensor) as [cb|] eqn:Hcb; simpl in Hrun; [|done].
  inversion Hrun; subst; clear Hrun.
  unfold buffers_view, time_buffer, cap_buffer. simpl. split_and!.
  - exists (tb, cb). eexists. split_and!.
    + unfold lookup2. by rewrite Hbt, Hbc; simpl; rewrite Htb, Hcb.
    + by rewrite !lookup2_insert_eq.
    + by exists x, y.
  - intros [sn' s'] Hne. simpl. by rewrite !lookup2_insert_ne.
  - done.
Qed.

Lemma same_frame_refl st : same_frame st st.
Proof. done. Qed.

Lemma same_frame_trans st1 st2 st3 :
  same_frame st1 st2 → same_frame st2 st3 → same_frame st1 st3.
Proof. unfold same_frame. intros (?&?&?&?) (?&?&?&?). split_and!; congruence. Qed.

(** The loop "Append data to buffers", as one loop over the readings
    paired with the enumerated sensors of their board. *)
Definition append_pairs (results : list (list num * list num * string))
  : list ((list num * list num * string) * (nat * nat)) :=
  results ≫= fun r => pair r <$> enumerate (sensors_of r.2).

Definition append_pair (a : (list num * list num * string) * (nat * nat))
    (st : SensorRecorder) : result SensorRecorder :=
  append_sample a.1.1.1 a.1.1.2 a.1.2 a.2.1 a.2.2 st.

Lemma append_results_flat results (st : SensorRecorder) :
  forM_ results append_result st = forM_ (append_pairs results) append_pair st.
Proof.
  unfold append_pairs.
  rewrite <- (forM__nested (fun r => enumerate (sensors_of r.2)) results
                (fun r b => append_pair (r, b))).
  apply forM__ext. intros [[lt lc] sn] s _. unfold append_result. simpl.
  apply forM__ext. by intros [idx sensor] s' _.
Qed.

Lemma append_results_spec ctrls n results (st st' : SensorRecorder) :
  NoDup ctrls →
  Forall2 (fun sn r => read_sensor_data n sn = Ok r) ctrls results →
  buffers_at ctrls n st →
  forM_ results append_result st = Ok st' →
  buffers_at ctrls (S n) st' ∧ same_frame st st'.
Proof.
  intros Hnd Hreads Hbufs Hrun. rewrite append_results_flat in Hrun.
  assert (Hsn : results.*2 = ctrls).
  { clear -Hreads. induction Hreads as [|sn r ctrls results Hr _ IH]; [done|].
    simpl. f_equal; [|done]. unfold Recorder.read_sensor_data in Hr.
    destruct (sensor_reader n sn) as [[lt lc]|]; simpl in Hr; [|done].
    by inversion Hr. }
  assert (Hframe : same_frame st st').
  { revert Hrun. apply (forM__preserves (same_frame st)); [|done].
    intros a s1 s2 _ H1 Ha. eapply same_frame_trans; [done|].
    by apply append_sample_spec in Ha as (_ & _ & ?). }
  split; [|done].
  apply (forM__pointwise (fun a => (a.1.2, a.2.2)) buffers_view append_pair
           (fun a v v' => ∃ x y, a.1.1.1 !! a.2.1 = Some x
              ∧ a.1.1.2 !! a.2.1 = Some y
              ∧ v' = (deque_append v.1 x, deque_append v.2 y))) in Hrun
    as [Hin _].
  - intros sn idx sensor Hctrl Hidx.
    apply list_elem_of_lookup_1 in Hctrl as [j Hj].
    destruct (Forall2_lookup_l _ _ _ _ _ Hreads Hj) as (r & Hr & Hread).
    unfold Recorder.read_sensor_data in Hread.
    destruct (sensor_reader n sn) as [[lt lc]|] eqn:Hsr; simpl in Hread; [|done].
    inversion Hread; subst r; clear Hread.
    destruct (Hin ((lt, lc, sn), (idx, sensor)))
      as (v & v' & Hv & Hv' & x & y & Hx & Hy & ->).
    { unfold append_pairs. apply list_elem_of_bind. exists (lt, lc, sn).
      split; [|by eapply list_elem_of_lookup_2].
      apply list_elem_of_fmap_2. by apply elem_of_enumerate. }
    simpl in *.
    destruct (Hbufs sn idx sensor) as [Htb Hcb];
      [by eapply list_elem_of_lookup_2 | done |].
    unfold buffers_view in Hv, Hv'. simpl in Hv, Hv'.
    rewrite Htb, Hcb in Hv. inversion Hv; subst v; clear Hv. simpl in Hv'.
    destruct (time_buffer st' sn sensor) as [tb'|]; [|done].
    destruct (cap_buffer st' sn sensor) as [cb'|]; [|done].
    inversion Hv' as [[Ht Hc]].
    assert (Hts : time_sample sn idx n = x)
      by (unfold time_sample; by rewrite Hsr, Hx).
    assert (Hcs : cap_sample sn idx n = y)
      by (unfold cap_sample; by rewrite Hsr, Hy).
    by rewrite <- !deque_append_window, Hts, Hcs.
  - intros a s1 s2 _ Ha. unfold append_pair in Ha.
    apply append_sample_spec in Ha as (Hv & Hother & _). split; [|done].
    destruct Hv as (v & v' & ? & ? & x & y & ? & ? & ?). eauto 10.
  - unfold append_pairs.
    apply (NoDup_nested_keys (fun r : list num * list num * string => r.2)
             (fun b : nat * nat => b.2)).
    + rewrite <- Hsn in Hnd. exact Hnd.
    + intros r _. rewrite snd_enumerate. apply sensors_of_NoDup.
Qed.

(** *** Flushing *)

Definition file_view (f : h5file) (k : string * nat)
  : option (gmap string dataset) := file_group f k.1 k.2.

Lemma file_group_put_eq (f : h5file) sn sensor g0 g :
  file_group f sn sensor = Some g0 →
  file_group (put_group f (board_name sn) (sensor_name sensor) g) sn sensor
  = Some g.
Proof.
  unfold file_group, put_group, lookup2. intros Hg0.
  destruct (groups f !! board_name sn) as [b|]; [|done]. simpl.
  rewrite lookup_insert_eq. simpl. apply lookup_insert_eq.
Qed.

Lemma file_group_put_ne (f : h5file) sn sensor g k :
  k ≠ (sn, sensor) →
  file_view (put_group f (board_name sn) (sensor_name sensor) g) k
  = file_view f k.
Proof.
  unfold file_view, file_group, put_group. intros Hne.
  destruct (groups f !! board_name sn) as [b|] eqn:Hb; [|done]. simpl.
  apply lookup2_insert_ne; [done|].
  intros Heq. apply Hne. destruct k as [sn' s'].
  pose proof (f_equal fst Heq) as Hsn. pose proof (f_equal snd Heq) as Hs.
  cbn [fst snd] in Hsn, Hs.
  by rewrite (board_name_inj _ _ Hsn), (sensor_name_inj _ _ Hs).
Qed.

Lemma get_group_Ok (f : h5file) sn sensor g :
  get_group f (board_name sn) (sensor_name sensor) = Ok g ↔
  file_group f sn sensor = Some g.
Proof.
  unfold get_group, file_group, lookup2.
  destruct (groups f !! board_name sn) as [b|]; simpl; [|done].
  destruct (b !! sensor_name sensor); split; intros H; by inversion H.
Qed.

Lemma get_buffer_Ok (bufs : gmap string (gmap nat (list num))) sn sensor d :
  get_buffer bufs sn sensor = Ok d ↔ lookup2 bufs sn sensor = Some d.
Proof.
  unfold get_buffer, lookup2.
  destruct (bufs !! sn) as [b|]; simpl; [|done].
  destruct (b !! sensor); split; intros H; by inversion H.
Qed.

Lemma write_initial_sensor_spec (st : SensorRecorder) sn sensor (f f' : h5file) :
  write_initial_sensor st sn sensor f = Ok f' →
  (∃ g g', file_view f (sn, sensor) = Some g
     ∧ file_view f' (sn, sensor) = Some g'
     ∧ ∃ tb cb, time_buffer st sn sensor = Some tb
         ∧ cap_buffer st sn sensor = Some cb
         ∧ g !! "time_data" = None ∧ g !! "cap_data" = None
         ∧ g' !! "time_data" = Some (Array tb)
         ∧ g' !! "cap_data" = Some (Array cb))
  ∧ (∀ k, k ≠ (sn, sensor) → file_view f' k = file_view f k).
Proof.
  unfold write_initial_sensor. intros Hrun.
  destruct (get_group f _ _) as [g|] eqn:Hg; simpl in Hrun; [|done].
  apply get_group_Ok in Hg.
  destruct (get_buffer (board_time_data st) sn sensor) as [tb|] eqn:Htb;
    simpl in Hrun; [|done].
  apply get_buffer_Ok in Htb.
  unfold create_dataset in Hrun.
  destruct (g !! "time_data") eqn:Htime; simpl in Hrun; [done|].
  destruct (get_buffer (board_cap_data st) sn sensor) as [cb|] eqn:Hcb;
    simpl in Hrun; [|done].
  apply get_buffer_Ok in Hcb.
  rewrite lookup_insert_ne in Hrun by done.
  destruct (g !! "cap_data") eqn:Hcap; simpl in Hrun; [done|].
  inversion Hrun; subst; clear Hrun. split.
  - exists g. eexists. split_and!; [done | by eapply file_group_put_eq |].
    exists tb, cb. split_and!; try done.
    + rewrite lookup_insert_ne by done. apply lookup_insert_eq.
    + apply lookup_insert_eq.
  - intros k Hk. by apply file_group_put_ne.
Qed.

Lemma append_sensor_spec (st : SensorRecorder) sn sensor (f f' : h5file) :
  append_sensor st sn sensor f = Ok f' →
  (∃ g g', file_view f (sn, sensor) = Some g
     ∧ file_view f' (sn, sensor) = Some g'
     ∧ ∃ tb cb lt lc lt' lc',
         time_buffer st sn sensor = Some tb
         ∧ cap_buffer st sn sensor = Some cb
         ∧ g !! "time_data" = Some (Array lt)
         ∧ g !! "cap_data" = Some (Array lc)
         ∧ write_slice (loop_counter st - HISTORY_SIZE)
             (loop_counter st - HISTORY_SIZE + HISTORY_SIZE) tb
             (resize fill (loop_counter st - HISTORY_SIZE + HISTORY_SIZE) lt)
           = Ok lt'
         ∧ write_slice (loop_counter st - HISTORY_SIZE)
             (loop_counter st - HISTORY_SIZE + HISTORY_SIZE) cb
             (resize fill (loop_counter st - HISTORY_SIZE + HISTORY_SIZE) lc)
           = Ok lc'
         ∧ g' !! "time_data" = Some (Array lt')
         ∧ g' !! "cap_data" = Some (Array lc'))
  ∧ (∀ k, k ≠ (sn, sensor) → file_view f' k = file_view f k).
Proof.
  unfold Recorder.append_sensor. intros Hrun.
  destruct (get_group f _ _) as [g|] eqn:Hg; simpl in Hrun; [|done].
  apply get_group_Ok in Hg.
  unfold resize_dataset, write_dataset_slice in Hrun.
  destruct (g !! "time_data") as [[?|lt]|] eqn:Htime; simpl in Hrun; try done.
  rewrite lookup_insert_ne in Hrun by done.
  destruct (g !! "cap_data") as [[?|lc]|] eqn:Hcap; simpl in Hrun; try done.
  destruct (get_buffer (board_time_data st) sn sensor) as [tb|] eqn:Htb;
    simpl in Hrun; [|done].
  apply get_buffer_Ok in Htb.
  rewrite lookup_insert_ne, lookup_insert_eq in Hrun by done.
  destruct (write_slice _ _ tb _) as [lt'|] eqn:Hlt'; simpl in Hrun; [|done].
  destruct (get_buffer (board_cap_data st) sn sensor) as [cb|] eqn:Hcb;
    simpl in Hrun; [|done].
  apply get_buffer_Ok in Hcb.
  rewrite lookup_insert_ne, lookup_insert_eq in Hrun by done.
  destruct (write_slice _ _ cb _) as [lc'|] eqn:Hlc'; simpl in Hrun; [|done].
  inversion Hrun; subst; clear Hrun. split.
  - exists g. eexists. split_and!; [done | by eapply file_group_put_eq |].
    exists tb, cb, lt, lc, lt', lc'. split_and!; try done.
    + rewrite lookup_insert_ne by done. apply lookup_insert_eq.
    + apply lookup_insert_eq.
  - intros k Hk. by apply file_group_put_ne.
Qed.

Lemma write_slice_append (lo n : nat) (data l : list num) :
  length l = lo → length data = n →
  write_slice lo (lo + n) data (resize fill (lo + n) l) = Ok (l ++ data).
Proof.
  intros Hl Hdata. unfold write_slice, resize.
  rewrite take_ge by lia.
  rewrite length_app, length_replicate.
  replace ((lo + n) `min` (length l + (lo + n - length l))) with (lo + n) by lia.
  replace (lo + n - lo) with n by lia.
  rewrite decide_True by done.
  rewrite take_app_length' by done.
  rewrite drop_ge; [by rewrite app_nil_r|].
  rewrite length_app, length_replicate. lia.
Qed.

Lemma sensor_keys_NoDup ctrls :
  NoDup ctrls →
  NoDup ((fun ab : string * nat => (ab.1, ab.2)) <$>
           (ctrls ≫= fun sn => pair sn <$> sensors_of sn)).
Proof.
  intros Hnd. apply (NoDup_nested_keys id id).
  - by rewrite list_fmap_id.
  - intros sn _. rewrite list_fmap_id. apply sensors_of_NoDup.
Qed.

Lemma sensor_key_elem ctrls sn idx sensor :
  sn ∈ ctrls → sensors_of sn !! idx = Some sensor →
  (sn, sensor) ∈ ctrls ≫= fun sn => pair sn <$> sensors_of sn.
Proof.
  intros Hsn Hidx. apply list_elem_of_bind. exists sn. split; [|done].
  apply list_elem_of_fmap_2. by eapply list_elem_of_lookup_2.
Qed.

Lemma window_full n :
  HISTORY_SIZE ≤ n → window n = seq (n - HISTORY_SIZE) HISTORY_SIZE.
Proof. intros Hn. unfold window. by rewrite Nat.min_r. Qed.

Lemma flush_due_exact n q :
  q * HISTORY_SIZE < n ≤ q * HISTORY_SIZE + HISTORY_SIZE →
  n `mod` HISTORY_SIZE = 0 ↔ n = q * HISTORY_SIZE + HISTORY_SIZE.
Proof.
  pose proof HISTORY_SIZE_pos as Hpos. intros Hq. split.
  - intros Hmod. pose proof (Nat.div_mod_eq n HISTORY_SIZE) as Hdiv.
    rewrite Hmod, Nat.add_0_r in Hdiv.
    generalize dependent (n `div` HISTORY_SIZE). intros d Hdiv.
    assert (d = S q) as -> by nia. lia.
  - intros ->. replace (q * HISTORY_SIZE + HISTORY_SIZE)
      with (S q * HISTORY_SIZE) by lia.
    apply Nat.Div0.mod_mul.
Qed.

Lemma flush_loop_counter (st st' : SensorRecorder) :
  flush st = Ok st' →
  controllers st' = controllers st ∧ recording st' = recording st
  ∧ loop_counter st' = loop_counter st
  ∧ board_time_data st' = board_time_data st
  ∧ board_cap_data st' = board_cap_data st.
Proof.
  unfold Recorder.flush, write_initial_data, Recorder.append_data. intros Hrun.
  repeat case_decide.
  - destruct (open_rw st); simpl in Hrun; [|done].
    destruct (forM_ _ _ _); simpl in Hrun; [|done]. by inversion Hrun.
  - destruct (open_rw st); simpl in Hrun; [|done].
    destruct (forM_ _ _ _); simpl in Hrun; [|done]. by inversion Hrun.
  - by inversion Hrun.
Qed.

Lemma flush_disk ctrls n (st st' : SensorRecorder) (f : h5file) :
  NoDup ctrls → controllers st = ctrls → loop_counter st = n →
  buffers_at ctrls (S n) st →
  h5 st = Some f → disk_at ctrls n f →
  flush st = Ok st' →
  ∃ f', h5 st' = Some f' ∧ disk_at ctrls (S n) f'.
Proof.
  pose proof HISTORY_SIZE_pos as Hpos.
  intros Hnd Hctrls Hn Hbufs Hf Hdisk Hrun.
  unfold Recorder.flush in Hrun. rewrite Hn in Hrun.
  destruct (decide (n = HISTORY_SIZE)) as [HnN|HnN].
  - (* the first flush *)
    unfold write_initial_data, open_rw in Hrun. rewrite Hf, Hctrls in Hrun.
    simpl in Hrun.
    destruct (forM_ ctrls _ f) as [f'|] eqn:Hloop; simpl in Hrun; [|done].
    inversion Hrun; subst st'; clear Hrun. exists f'. split; [done|].
    rewrite (forM__nested sensors_of ctrls
               (fun sn => write_initial_sensor st sn)) in Hloop.
    apply (forM__pointwise (fun ab : string * nat => (ab.1, ab.2)) file_view _
             (fun ab g g' => ∃ tb cb,
                time_buffer st ab.1 ab.2 = Some tb
                ∧ cap_buffer st ab.1 ab.2 = Some cb
                ∧ g !! "time_data" = None ∧ g !! "cap_data" = None
                ∧ g' !! "time_data" = Some (Array tb)
                ∧ g' !! "cap_data" = Some (Array cb))) in Hloop
      as [Hin _].
    + intros sn idx sensor Hsn Hidx.
      destruct (Hin (sn, sensor)) as (g & g' & _ & Hg' & tb & cb & Htb & Hcb & _ & _ & Ht & Hc);
        [by eapply sensor_key_elem|].
      simpl in *. exists g'. split; [done|].
      destruct (Hbufs sn idx sensor Hsn Hidx) as [Htb' Hcb'].
      rewrite Htb' in Htb. rewrite Hcb' in Hcb.
      inversion Htb; subst tb. inversion Hcb; subst cb.
      right. exists 1. rewrite window_full in Ht, Hc by lia.
      replace (S n - HISTORY_SIZE) with 1 in Ht, Hc by lia.
      rewrite Nat.mul_1_l. split_and!; try done; lia.
    + intros [sn sensor] f1 f2 _ Hbody. simpl in Hbody.
      apply write_initial_sensor_spec in Hbody as [(g & g' & ? & ? & ?) Hother].
      split; [by exists g, g' | done].
    + by apply sensor_keys_NoDup.
  - destruct (decide (0 < n ∧ n `mod` HISTORY_SIZE = 0)) as [[Hn0 Hmod]|Hnot].
    + (* a later flush *)
      unfold Recorder.append_data, open_rw in Hrun. rewrite Hf, Hctrls in Hrun.
      simpl in Hrun.
      destruct (forM_ ctrls _ f) as [f'|] eqn:Hloop; simpl in Hrun; [|done].
      inversion Hrun; subst st'; clear Hrun. exists f'. split; [done|].
      rewrite (forM__nested sensors_of ctrls
                 (fun sn => append_sensor st sn)) in Hloop.
      apply (forM__pointwise (fun ab : string * nat => (ab.1, ab.2)) file_view _
               (fun ab g g' => ∃ tb cb lt lc lt' lc',
                  time_buffer st ab.1 ab.2 = Some tb
                  ∧ cap_buffer st ab.1 ab.2 = Some cb
                  ∧ g !! "time_data" = Some (Array lt)
                  ∧ g !! "cap_data" = Some (Array lc)
                  ∧ write_slice (loop_counter st - HISTORY_SIZE)
                      (loop_counter st - HISTORY_SIZE + HISTORY_SIZE) tb
                      (resize fill (loop_counter st - HISTORY_SIZE + HISTORY_SIZE) lt)
                    = Ok lt'
                  ∧ write_slice (loop_counter st - HISTORY_SIZE)
                      (loop_counter st - HISTORY_SIZE + HISTORY_SIZE) cb
                      (resize fill (loop_counter st - HISTORY_SIZE + HISTORY_SIZE) lc)
                    = Ok lc'
                  ∧ g' !! "time_data" = Some (Array lt')
                  ∧ g' !! "cap_data" = Some (Array lc'))) in Hloop
        as [Hin _].
      * intros sn idx sensor Hsn Hidx.
        destruct (Hin (sn, sensor))
          as (g & g' & Hg & Hg' & tb & cb & lt & lc & lt' & lc'
              & Htb & Hcb & Hlt & Hlc & Hwt & Hwc & Ht & Hc);
          [by eapply sensor_key_elem|].
        simpl in *. exists g'. split; [done|].
        destruct (Hbufs sn idx sensor Hsn Hidx) as [Htb' Hcb'].
        rewrite Htb' in Htb. rewrite Hcb' in Hcb.
        inversion Htb; subst tb. inversion Hcb; subst cb. clear Htb Hcb.
        destruct (Hdisk sn idx sensor Hsn Hidx) as (g0 & Hg0 & Hstate).
        unfold file_view in Hg. simpl in Hg. rewrite Hg0 in Hg.
        inversion Hg; subst g0; clear Hg.
        destruct Hstate as [(Hle & _)|(q & Hq1 & Hq & Hdt & Hdc)].
        { exfalso. assert (n < HISTORY_SIZE) by lia.
          rewrite Nat.mod_small in Hmod by done. lia. }
        assert (HnN' : n = q * HISTORY_SIZE + HISTORY_SIZE)
          by by apply flush_due_exact.
        rewrite Hlt in Hdt. rewrite Hlc in Hdc.
        inversion Hdt; subst lt. inversion Hdc; subst lc. clear Hdt Hdc.
        rewrite Hn in Hwt, Hwc.
        rewrite write_slice_append in Hwt, Hwc;
          try (rewrite length_fmap, length_seq; lia);
          try (rewrite length_fmap; unfold window; rewrite length_seq; lia).
        inversion Hwt; subst lt'. inversion Hwc; subst lc'. clear Hwt Hwc.
        right. exists (S q). rewrite window_full in Ht, Hc by lia.
        replace (S n - HISTORY_SIZE) with (1 + q * HISTORY_SIZE) in Ht, Hc by lia.
        rewrite <- fmap_app, <- seq_app in Ht, Hc.
        replace (q * HISTORY_SIZE + HISTORY_SIZE) with (S q * HISTORY_SIZE)
          in Ht, Hc by lia.
        split_and!; try done; lia.
      * intros [sn sensor] f1 f2 _ Hbody. simpl in Hbody.
        apply append_sensor_spec in Hbody as [(g & g' & ? & ? & ?) Hother].
        split; [by exists g, g' | done].
      * by apply sensor_keys_NoDup.
    + (* no flush in this iteration *)
      inversion Hrun; subst st'; clear Hrun. exists f. split; [done|].
      intros sn idx sensor Hsn Hidx.
      destruct (Hdisk sn idx sensor Hsn Hidx) as (g & Hg & Hstate).
      exists g. split; [done|].
      destruct Hstate as [(Hle & Ht & Hc)|(q & Hq1 & Hq & Ht & Hc)].
      * left. split_and!; [lia | done | done].
      * right. exists q. split_and!; try done; try lia.
        destruct (decide (n = q * HISTORY_SIZE + HISTORY_SIZE)) as [Heq|]; [|lia].
        exfalso. apply Hnot. split; [lia|]. by apply (flush_due_exact n q).
Qed.

(** *** The loop invariant *)

Lemma iteration_spec ctrls (st st' : SensorRecorder) :
  loop_inv ctrls st → iteration st = Ok st' →
  loop_inv ctrls st'
  ∧ loop_counter st' = S (loop_counter st)
  ∧ (recording st' = true → recording st = true)
  ∧ (CallStop ∈ other_tasks (loop_counter st) → recording st' = false).
Proof.
  intros [Hctrls Hnd Hbufs (f & Hf & Hdisk)] Hrun.
  unfold Recorder.iteration in Hrun.
  remember (loop_counter st) as n eqn:Hn.
  pose proof (foldl_apply_call_yields st (other_tasks n)) as Hy.
  pose proof (foldl_apply_call_stop st (other_tasks n)) as Hstop.
  set (st1 := foldl apply_call st (other_tasks n)) in *.
  destruct Hy as [Hy1 Hy2 Hy3 Hy4 Hy5 Hy6].
  destruct (Hy6 f Hf) as (f1 & Hf1 & Hsame).
  rewrite Hy1, Hy2, Hctrls, <- Hn in Hrun.
  destruct (mapM (read_sensor_data n) ctrls) as [results|] eqn:Hreads;
    simpl in Hrun; [|done].
  apply mapM_result_Forall2 in Hreads.
  destruct (forM_ results append_result st1) as [st2|] eqn:Happ;
    simpl in Hrun; [|done].
  apply (append_results_spec ctrls n) in Happ as [Hbufs2 (Hc2 & Hr2 & Hl2 & Hh2)];
    [|done|done|].
  2:{ intros sn idx sensor Hsn Hidx.
      unfold time_buffer, cap_buffer. rewrite Hy3, Hy4. by apply Hbufs. }
  assert (Hdisk1 : disk_at ctrls n f1).
  { intros sn idx sensor Hsn Hidx.
    destruct (Hdisk sn idx sensor Hsn Hidx) as (g & Hg & Hstate).
    destruct (Hsame _ _ _ Hg) as (g1 & Hg1 & Ht & Hc).
    exists g1. split; [done|]. unfold disk_state in *. by rewrite Ht, Hc. }
  destruct (flush st2) as [st3|] eqn:Hflush; simpl in Hrun; [|done].
  inversion Hrun; subst st'; clear Hrun.
  pose proof (flush_loop_counter _ _ Hflush) as (Hc3 & Hr3 & Hl3 & Ht3 & Hcap3).
  assert (Hn2 : loop_counter st2 = n) by congruence.
  destruct (flush_disk ctrls n st2 st3 f1) as (f3 & Hf3 & Hdisk3);
    try done; try congruence.
  simpl. rewrite Hl3, Hn2. split_and!.
  - split; simpl; [congruence | done | |].
    + replace (n + 1) with (S n) by lia.
      intros sn idx sensor Hsn Hidx.
      unfold time_buffer, cap_buffer. simpl. rewrite Ht3, Hcap3.
      by apply Hbufs2.
    + exists f3. split; [done|]. by replace (n + 1) with (S n) by lia.
  - lia.
  - rewrite Hr3, Hr2. apply Hy5.
  - intros Hin. rewrite Hr3, Hr2. by apply Hstop.
Qed.

Lemma at_loop_head_inv ctrls (st : SensorRecorder) :
  at_loop_head ctrls st → loop_inv ctrls st.
Proof.
  induction 1 as [st Hstart|st st' _ IH _ Hiter].
  - by apply start_loop_inv in Hstart as [? _].
  - by apply (iteration_spec ctrls st st') in Hiter as [? _].
Qed.

Lemma while_recording_spec ctrls fuel (st st' : SensorRecorder) :
  at_loop_head ctrls st →
  while_recording fuel st = Ok (Some st') →
  at_loop_head ctrls st' ∧ recording st' = false.
Proof.
  revert st. induction fuel as [|fuel IH]; intros st Hhead Hrun;
    simpl in Hrun; [done|].
  destruct (recording st) eqn:Hrec.
  - destruct (iteration st) as [st1|] eqn:Hiter; simpl in Hrun; [|done].
    apply (IH st1); [|done]. by eapply head_next.
  - inversion Hrun; subst. done.
Qed.

Lemma record_sensors_spec ctrls fuel (st : SensorRecorder) :
  record_sensors fuel (init ctrls) = Ok (Some st) →
  at_loop_head ctrls st ∧ recording st = false.
Proof.
  unfold Recorder.record_sensors. intros Hrun.
  destruct (start (init ctrls)) as [st0|] eqn:Hstart; simpl in Hrun; [|done].
  eapply while_recording_spec; [|done]. by apply head_start.
Qed.

(** What the invariant says of one sensor: after [q] flushes the arrays
    hold the samples of the iterations [1 .. q * HISTORY_SIZE], and the
    ring buffers the last [HISTORY_SIZE] samples. *)
Lemma loop_inv_sensor ctrls (st : SensorRecorder) sn idx sensor :
  loop_inv ctrls st → sn ∈ ctrls → sensors_of sn !! idx = Some sensor →
  ∃ q, (q = 0 ∧ loop_counter st ≤ HISTORY_SIZE
        ∨ 1 ≤ q ∧ q * HISTORY_SIZE < loop_counter st
                      ≤ q * HISTORY_SIZE + HISTORY_SIZE)
    ∧ on_disk st sn sensor "time_data"
        = time_sample sn idx <$> seq 1 (q * HISTORY_SIZE)
    ∧ on_disk st sn sensor "cap_data"
        = cap_sample sn idx <$> seq 1 (q * HISTORY_SIZE)
    ∧ time_buffer st sn sensor
        = Some (time_sample sn idx <$> window (loop_counter st))
    ∧ cap_buffer st sn sensor
        = Some (cap_sample sn idx <$> window (loop_counter st)).
Proof.
  intros [_ _ Hbufs (f & Hf & Hdisk)] Hsn Hidx.
  destruct (Hbufs sn idx sensor Hsn Hidx) as [Htb Hcb].
  destruct (Hdisk sn idx sensor Hsn Hidx) as (g & Hg & Hstate).
  unfold on_disk. rewrite Hf, Hg.
  destruct Hstate as [(Hle & Ht & Hc)|(q & Hq1 & Hq & Ht & Hc)].
  - exists 0. rewrite Ht, Hc. split_and!; try done. by left.
  - exists q. rewrite Ht, Hc. split_and!; try done. by right.
Qed.

Lemma multiple_in_range n q :
  q * HISTORY_SIZE ≤ n < q * HISTORY_SIZE + HISTORY_SIZE →
  n `mod` HISTORY_SIZE = 0 → n = q * HISTORY_SIZE.
Proof.
  pose proof HISTORY_SIZE_pos as Hpos. intros Hq Hmod.
  pose proof (Nat.div_mod_eq n HISTORY_SIZE) as Hdiv.
  rewrite Hmod, Nat.add_0_r in Hdiv.
  generalize dependent (n `div` HISTORY_SIZE). intros d Hdiv.
  assert (d = q) as -> by nia. lia.
Qed.

(** C2. Flush invariant: after an iteration that flushes (the initial
    creation at loop counter [HISTORY_SIZE], or an append at a later
    positive multiple of [HISTORY_SIZE]), the on-disk [time_data] and
    [cap_data] arrays of every sensor have the length of the loop counter
    at flush time, and the batch, the contents of the ring buffer, was
    written behind the [loop_counter - HISTORY_SIZE] samples the arrays
    held before. *)
Theorem flush_invariant ctrls (st st' : SensorRecorder) sn idx sensor :
  at_loop_head ctrls st → iteration st = Ok st' →
  loop_counter st = HISTORY_SIZE
  ∨ (0 < loop_counter st ∧ loop_counter st `mod` HISTORY_SIZE = 0) →
  sn ∈ ctrls → sensors_of sn !! idx = Some sensor →
  length (on_disk st' sn sensor "time_data") = loop_counter st
  ∧ length (on_disk st' sn sensor "cap_data") = loop_counter st
  ∧ ∃ tb cb,
      time_buffer st' sn sensor = Some tb
      ∧ cap_buffer st' sn sensor = Some cb
      ∧ length (on_disk st sn sensor "time_data")
          = loop_counter st - HISTORY_SIZE
      ∧ length (on_disk st sn sensor "cap_data")
          = loop_counter st - HISTORY_SIZE
      ∧ on_disk st' sn sensor "time_data"
          = on_disk st sn sensor "time_data" ++ tb
      ∧ on_disk st' sn sensor "cap_data"
          = on_disk st sn sensor "cap_data" ++ cb.
Proof.
  pose proof HISTORY_SIZE_pos as Hpos.
  intros Hhead Hiter Hdue Hsn Hidx.
  apply at_loop_head_inv in Hhead as Hinv.
  destruct (iteration_spec ctrls st st' Hinv Hiter) as (Hinv' & Hn' & _).
  destruct (loop_inv_sensor ctrls st sn idx sensor Hinv Hsn Hidx)
    as (q & Hq & Ht & Hc & _).
  destruct (loop_inv_sensor ctrls st' sn idx sensor Hinv' Hsn Hidx)
    as (q' & Hq' & Ht' & Hc' & Htb' & Hcb').
  rewrite Hn' in Hq', Htb', Hcb'.
  remember (loop_counter st) as n eqn:Hn. clear Hn Hn' Hinv Hinv' Hiter.
  assert (Hmod : 0 < n ∧ n `mod` HISTORY_SIZE = 0).
  { destruct Hdue as [->|?]; [|done]. split; [done|]. apply Nat.Div0.mod_same. }
  destruct Hmod as [Hn0 Hmod].
  assert (Hq'n : q' * HISTORY_SIZE = n).
  { destruct Hq' as [[-> Hle]|[Hq1 Hrange]].
    - exfalso. rewrite Nat.mod_small in Hmod by lia. lia.
    - symmetry. apply multiple_in_range; [lia | done]. }
  assert (Hqn : q * HISTORY_SIZE = n - HISTORY_SIZE).
  { destruct Hq as [[-> Hle]|[Hq1 Hrange]].
    - destruct (decide (n = HISTORY_SIZE)) as [->|]; [lia|].
      exfalso. rewrite Nat.mod_small in Hmod by lia. lia.
    - apply flush_due_exact in Hrange as Hex. apply Hex in Hmod. lia. }
  assert (Hge : HISTORY_SIZE ≤ n) by nia.
  rewrite Ht, Hc, Ht', Hc', !length_fmap, !length_seq.
  split_and!; [lia | lia |].
  eexists _, _. split_and!; [done | done | lia | lia | |].
  - rewrite window_full by lia. rewrite <- fmap_app. f_equal.
    replace (S n - HISTORY_SIZE) with (1 + q * HISTORY_SIZE) by lia.
    rewrite <- seq_app. f_equal. lia.
  - rewrite window_full by lia. rewrite <- fmap_app. f_equal.
    replace (S n - HISTORY_SIZE) with (1 + q * HISTORY_SIZE) by lia.
    rewrite <- seq_app. f_equal. lia.
Qed.

(** C1, as amended.  When a session ends, the on-disk [time_data] and
    [cap_data] arrays of every sensor hold the samples of the same [count]
    consecutive iterations, in acquisition order (so none is duplicated and
    none is missing between the first and the last stored one); [count] is
    a multiple of [HISTORY_SIZE], at most the number [loop_counter] of
    completed iterations and at least [loop_counter - HISTORY_SIZE]: the
    samples appended after the last flush are not persisted. *)
Theorem session_samples_on_disk ctrls fuel (st : SensorRecorder) sn idx sensor :
  record_sensors fuel (init ctrls) = Ok (Some st) →
  sn ∈ ctrls → sensors_of sn !! idx = Some sensor →
  ∃ first count,
    on_disk st sn sensor "time_data" = time_sample sn idx <$> seq first count
    ∧ on_disk st sn sensor "cap_data" = cap_sample sn idx <$> seq first count
    ∧ count `mod` HISTORY_SIZE = 0
    ∧ first + count ≤ loop_counter st
    ∧ loop_counter st ≤ count + HISTORY_SIZE.
Proof.
  intros [Hhead _]%record_sensors_spec Hsn Hidx.
  apply at_loop_head_inv in Hhead.
  destruct (loop_inv_sensor ctrls st sn idx sensor Hhead Hsn Hidx)
    as (q & Hq & Ht & Hc & _).
  destruct Hq as [[-> Hle]|[Hq1 Hrange]].
  - exists 0, 0. rewrite Ht, Hc. split_and!; try done; try lia.
  - exists 1, (q * HISTORY_SIZE). rewrite Ht, Hc.
    split_and!; try done; try lia. apply Nat.Div0.mod_mul.
Qed.

(** The first iteration whose sample was appended after the most recent
    flush, when [flushed] samples are on disk: the flush at loop counter
    [flushed] wrote the samples up to that of its own iteration. *)
Definition first_unflushed (flushed : nat) : nat :=
  if decide (flushed = 0) then 0 else S flushed.

(** C10. [stop()] takes effect at the next iteration boundary and nothing
    is flushed on the way out: when [stop()] is called at the yield of an
    iteration, the iteration is completed and the loop is then left in the
    state the iteration produced.  For every sensor, with [flushed] samples
    on disk (those of the iterations [1 .. flushed]), the samples of the
    iterations from [first_unflushed flushed] on, at most [HISTORY_SIZE] of
    them, are held by the ring buffer and are not in the file. *)
Theorem stop_leaves_unflushed_samples ctrls (st st' : SensorRecorder)
    sn idx sensor :
  at_loop_head ctrls st → recording st = true →
  CallStop ∈ other_tasks (loop_counter st) →
  iteration st = Ok st' →
  sn ∈ ctrls → sensors_of sn !! idx = Some sensor →
  (∀ fuel, while_recording (S fuel) st' = Ok (Some st'))
  ∧ loop_counter st' = S (loop_counter st)
  ∧ ∃ flushed,
      on_disk st' sn sensor "time_data"
        = time_sample sn idx <$> seq 1 flushed
      ∧ on_disk st' sn sensor "cap_data"
        = cap_sample sn idx <$> seq 1 flushed
      ∧ time_buffer st' sn sensor
        = Some (time_sample sn idx <$> window (loop_counter st'))
      ∧ cap_buffer st' sn sensor
        = Some (cap_sample sn idx <$> window (loop_counter st'))
      ∧ loop_counter st' - first_unflushed flushed ≤ HISTORY_SIZE
      ∧ ∀ i, first_unflushed flushed ≤ i < loop_counter st' →
          i ∈ window (loop_counter st') ∧ i ∉ seq 1 flushed.
Proof.
  pose proof HISTORY_SIZE_pos as Hpos.
  intros Hhead Hrec Hstop Hiter Hsn Hidx.
  apply at_loop_head_inv in Hhead as Hinv.
  destruct (iteration_spec ctrls st st' Hinv Hiter) as (Hinv' & Hn' & _ & Hoff).
  specialize (Hoff Hstop). split_and!; [|done|].
  - intros fuel. simpl. by rewrite Hoff.
  - destruct (loop_inv_sensor ctrls st' sn idx sensor Hinv' Hsn Hidx)
      as (q & Hq & Ht & Hc & Htb & Hcb).
    exists (q * HISTORY_SIZE). split_and!; try done.
    + unfold first_unflushed. case_decide; lia.
    + intros i Hi. unfold first_unflushed in Hi. split.
      * unfold window. apply elem_of_seq. case_decide; lia.
      * rewrite elem_of_seq. case_decide; lia.
Qed.

(** *** Cycle metadata *)

(** The dataset stored under [name] in the group of a sensor. *)
Definition stored (st : SensorRecorder) (sn : string) (sensor : nat)
    (name : string) : option dataset :=
  match h5 st with
  | Some f =>
      match file_group f sn sensor with
      | Some g => g !! name
      | None => None
      end
  | None => None
  end.

Lemma write_sensor_metadata_Ok (st st' : SensorRecorder)
    sensor_id t0 t1 v0 v1 w cycle :
  write_sensor_metadata positive st sensor_id t0 t1 v0 v1 w cycle = Ok st' →
  ∃ f f', h5 st = Some f
    ∧ write_sensor_metadata_file positive f sensor_id t0 t1 v0 v1 w cycle = Ok f'
    ∧ st' = set_h5 st (Some f').
Proof.
  unfold write_sensor_metadata, open_rw. intros Hrun.
  destruct (board_of sensor_id); simpl in Hrun; [|done].
  destruct (h5 st) as [f|]; simpl in Hrun; [|done].
  destruct (write_sensor_metadata_file _ _ _ _ _ _ _ _ _) as [f'|] eqn:Hf';
    simpl in Hrun; [|done].
  exists f, f'. by inversion Hrun.
Qed.

Lemma metadata_update_timestamp t0 t1 v0 v1 w cycle (g : gmap string dataset)
    time c :
  time ∈ ["start_time"; "stop_time"] →
  metadata_update t0 t1 v0 v1 w cycle g !! cycle_name time c
  = write_once (cycle_name "stop_time" cycle) t1
      (write_once (cycle_name "start_time" cycle) t0 g) !! cycle_name time c.
Proof.
  intros Htime. unfold metadata_update.
  rewrite !overwrite_positive_lookup_ne; [done|..];
    intros Heq; symmetry in Heq; revert Heq;
    apply volume_name_not_timestamp; first [done | repeat constructor].
Qed.

Lemma metadata_update_again t0 t1 v0 v1 w cycle (g : gmap string dataset) :
  let g1 := metadata_update t0 t1 v0 v1 w cycle g in
  write_once (cycle_name "stop_time" cycle) t1
    (write_once (cycle_name "start_time" cycle) t0 g1) = g1.
Proof.
  intros g1.
  assert (Hne : cycle_name "start_time" cycle ≠ cycle_name "stop_time" cycle)
    by name_ne.
  rewrite (write_once_id (cycle_name "start_time" cycle) t0 g1).
  - apply write_once_id. intros [x ->]. unfold g1.
    rewrite metadata_update_timestamp by repeat constructor.
    apply write_once_present.
  - intros [x ->]. unfold g1.
    rewrite metadata_update_timestamp by repeat constructor.
    rewrite write_once_lookup_ne by done. apply write_once_present.
Qed.

(** C8. Idempotence of the timestamps: when [write_sensor_metadata] has
    been called for a sensor and a cycle, a second call for the same sensor
    and cycle with the same start and stop timestamps (whatever volumes and
    weight it carries) succeeds and leaves every stored [start_time*] and
    [stop_time*] field as it was: a timestamp is written only when it is
    not already present. *)
Theorem write_sensor_metadata_idempotent (st st1 : SensorRecorder) sensor_id
    (start_time stop_time : option num)
    (start_vol stop_vol weight start_vol' stop_vol' weight' : option num)
    (cycle : nat) :
  write_sensor_metadata positive st sensor_id
    start_time stop_time start_vol stop_vol weight cycle = Ok st1 →
  ∃ st2,
    write_sensor_metadata positive st1 sensor_id
      start_time stop_time start_vol' stop_vol' weight' cycle = Ok st2
    ∧ ∀ sn sensor time c, time ∈ ["start_time"; "stop_time"] →
        stored st2 sn sensor (cycle_name time c)
        = stored st1 sn sensor (cycle_name time c).
Proof.
  intros (f & f1 & Hf & Hw1 & ->)%write_sensor_metadata_Ok.
  pose proof Hw1 as (sn0 & b & Hboard & Hb & _ & Hg1 & Hother1)%
    write_sensor_metadata_file_spec.
  destruct (write_sensor_metadata_file positive f1 sensor_id
              start_time stop_time start_vol' stop_vol' weight' cycle)
    as [f2|] eqn:Hw2.
  - exists (set_h5 (set_h5 st (Some f1)) (Some f2)). split.
    + unfold write_sensor_metadata, open_rw. rewrite Hboard. simpl.
      by rewrite Hw2.
    + intros sn sensor time c Htime. unfold stored, file_group. simpl.
      pose proof Hw2 as (sn0' & b1 & Hboard' & Hb1 & _ & Hg2 & Hother2)%
        write_sensor_metadata_file_spec.
      assert (sn0' = sn0) as -> by congruence.
      destruct (decide ((board_name sn, sensor_name sensor)
                        = (board_name sn0, sensor_name sensor_id))) as [Hk|Hk].
      * pose proof (f_equal fst Hk) as Hsn. pose proof (f_equal snd Hk) as Hs.
        cbn [fst snd] in Hsn, Hs. rewrite Hsn, Hs, Hg2, Hg1.
        assert (Hb1' : b1 !! sensor_name sensor_id
                       = lookup2 (groups f1) (board_name sn0) (sensor_name sensor_id)).
        { unfold lookup2. by rewrite Hb1. }
        rewrite Hb1', Hg1. simpl.
        rewrite (metadata_update_timestamp _ _ start_vol' stop_vol' weight')
          by done.
        by rewrite metadata_update_again.
      * by rewrite (Hother2 _ _ Hk).
  - exfalso. unfold write_sensor_metadata_file in Hw2.
    rewrite Hboard in Hw2. simpl in Hw2.
    assert (is_Some (groups f1 !! board_name sn0)) as [b1 Hb1].
    { unfold lookup2 in Hg1.
      destruct (groups f1 !! board_name sn0); [eauto | done]. }
    by rewrite Hb1 in Hw2.
Qed.

(** Running the loop body [k] times from a state in which the loop is
    entered each time. *)
Fixpoint loop_steps (k : nat) (st : SensorRecorder) : result SensorRecorder :=
  match k with
  | 0 => Ok st
  | S k' =>
      if recording st then st' ← iteration st; loop_steps k' st'
      else Raise (ValueError "the loop has been left")
  end.

Lemma loop_steps_head ctrls k (st st' : SensorRecorder) :
  at_loop_head ctrls st → loop_steps k st = Ok st' → at_loop_head ctrls st'.
Proof.
  revert st. induction k as [|k IH]; intros st Hhead Hrun; simpl in Hrun.
  - by inversion Hrun; subst.
  - destruct (recording st) eqn:Hrec; [|done].
    destruct (iteration st) as [st1|] eqn:Hiter; simpl in Hrun; [|done].
    apply (IH st1); [|done]. by eapply head_next.
Qed.

End recorder_properties.

(** ** The envelope-based detection *)

Import Analysis.

(** *** The filter chain *)

Section filter_chain.
Context {signal coeffs : Type}.
Context (butter : nat → Q → bool → Q → result coeffs).
Context (filtfilt : coeffs → signal → result signal).
Context (of_trace : list Z → signal).

Lemma last_of_six_once (c : coeffs) (x : signal) :
  last_of_six signal coeffs filtfilt c x = filtfilt c x.
Proof.
  unfold last_of_six. simpl. by destruct (filtfilt c x).
Qed.

(** What the specification describes: each filter applied six times in
    sequence, every pass on the output of the pass before. *)
Fixpoint in_sequence (n : nat) (c : coeffs) (x : signal) : result signal :=
  match n with
  | 0 => Ok x
  | S n' => y ← filtfilt c x; in_sequence n' c y
  end.

Definition filtered_data_spec (fs : Q) (trace : list Z) : result signal :=
  bh ← butter 4 8 true fs;
  bl ← butter 8 12 false fs;
  x ← in_sequence 6 bh (of_trace trace);
  in_sequence 6 bl x.

(** C5, what the code computes.  Each of the two comprehensions
    [[scs.filtfilt(b, a, filtered_data) for _ in range(6)][-1]] filters
    the same input six times and keeps one of the six equal results, so
    [filtered_data] is the raw trace passed through the high-pass and the
    low-pass filter twice each, alternately: four passes, not twelve. *)
Theorem filtered_data_two_passes_each (fs : Q) (trace : list Z) :
  filtered_data signal coeffs butter filtfilt of_trace fs trace =
  (bh ← butter 4 8 true fs;
   bl ← butter 8 12 false fs;
   x ← filtfilt bh (of_trace trace);
   x ← filtfilt bl x;
   x ← filtfilt bh x;
   filtfilt bl x).
Proof.
  unfold filtered_data.
  destruct (butter 4 8 true fs) as [bh|]; simpl; [|done].
  destruct (butter 8 12 false fs) as [bl|]; simpl; [|done].
  destruct (filtfilt bh (of_trace trace)) as [x1|]; simpl; [|done].
  destruct (filtfilt bl x1) as [x2|]; simpl; [|done].
  rewrite last_of_six_once.
  destruct (filtfilt bh x2) as [x3|]; simpl; [|done].
  rewrite last_of_six_once.
  by destruct (filtfilt bl x3).
Qed.

End filter_chain.

(** A stop-band component under the two readings: a zero-phase pass scales
    the amplitude of a sinusoid by the squared gain of the filter at its
    frequency.  With a gain of one half for both filters, the four passes
    of the code leave 1/16 of the amplitude, the twelve passes of the
    specification 1/4096. *)
Definition gain_butter (order : nat) (cutoff : Q) (high : bool) (fs : Q)
  : result Q := Ok (1 # 2).
Definition gain_filtfilt (gain : Q) (amplitude : Q) : result Q :=
  Ok (Qred (gain * amplitude)).
Definition unit_amplitude (trace : list Z) : Q := 1.

Lemma filtered_data_differs_from_spec :
  filtered_data Q Q gain_butter gain_filtfilt unit_amplitude 100 [] = Ok (1 # 16)
  ∧ filtered_data_spec gain_butter gain_filtfilt unit_amplitude 100 []
    = Ok (1 # 4096).
Proof. split; reflexivity. Qed.

(** *** Deduplication of the candidates *)

Lemma dedup_snoc min_dist (candidates : list Z) idx :
  dedup min_dist (candidates ++ [idx])
  = dedup_step min_dist (dedup min_dist candidates) idx.
Proof. unfold dedup. by rewrite foldl_app. Qed.

Lemma foldl_dedup_step_head min_dist (candidates acc : list Z) c :
  ∃ rest, foldl (dedup_step min_dist) (c :: acc) candidates = c :: rest.
Proof.
  revert acc. induction candidates as [|x xs IH]; intros acc; simpl; [eauto|].
  unfold dedup_step at 2.
  destruct (last (c :: acc)); [case_match|]; apply IH.
Qed.

(** The kept list is a chain: each element is more than [min_dist] after
    the one before. *)
Definition spaced (min_dist : Z) : list Z → Prop :=
  StronglySorted (fun a b => (min_dist < b - a)%Z).

Lemma spaced_snoc min_dist (l : list Z) (x y : Z) :
  (0 ≤ min_dist)%Z → spaced min_dist (l ++ [x]) → (min_dist < y - x)%Z →
  spaced min_dist ((l ++ [x]) ++ [y]).
Proof.
  intros Hmd Hl Hxy. apply StronglySorted_app. split_and!; [|done|].
  - intros a b Ha Hb. apply list_elem_of_singleton in Hb as ->.
    apply elem_of_app in Ha as [Ha|Ha].
    + pose proof (StronglySorted_app_1_elem_of
                    (fun a b : Z => (min_dist < b - a)%Z) l [x] a x Hl Ha) as Hax.
      simpl in Hax. assert (x ∈ [x]) as Hx by by left.
      specialize (Hax Hx). lia.
    + apply list_elem_of_singleton in Ha as ->. done.
  - repeat constructor.
Qed.

Lemma dedup_spaced min_dist (candidates : list Z) :
  (0 ≤ min_dist)%Z → spaced min_dist (dedup min_dist candidates).
Proof.
  intros Hmd. induction candidates as [|c cs IH] using rev_ind.
  - constructor.
  - rewrite dedup_snoc. unfold dedup_step.
    destruct (last (dedup min_dist cs)) as [l|] eqn:Hlast.
    + case_match eqn:Hcmp; [|done].
      apply last_Some in Hlast as [l' Hl']. rewrite Hl' in IH |- *.
      apply spaced_snoc; [done..|]. lia.
    + apply last_None in Hlast. rewrite Hlast. simpl. repeat constructor.
Qed.

Lemma dedup_subset min_dist (candidates : list Z) x :
  x ∈ dedup min_dist candidates → x ∈ candidates.
Proof.
  induction candidates as [|c cs IH] using rev_ind; [done|].
  rewrite dedup_snoc. unfold dedup_step. rewrite elem_of_app.
  destruct (last (dedup min_dist cs)); [case_match|];
    rewrite ?elem_of_app; intros Hx; tauto.
Qed.

(** An integer number of samples below a non-negative rational is at most
    its truncation. *)
Lemma below_Qtrunc (z : Z) (q : Q) :
  (0 <= q)%Q → (inject_Z z < q)%Q → (z ≤ Qtrunc q)%Z.
Proof.
  intros Hq Hz.
  assert (Htr : Qtrunc q = Qfloor q).
  { destruct q as [n d]. unfold Qtrunc, Qfloor. simpl.
    apply Z.quot_div_nonneg; [|lia].
    unfold Qle in Hq. simpl in Hq. lia. }
  rewrite Htr, <- (Qfloor_Z z).
  apply Qfloor_resp_le. by apply Qlt_le_weak.
Qed.

Lemma closer_than_min_dist (fs : Q) (a b : Z) :
  (0 < fs)%Q → (inject_Z (b - a) / fs < 8 # 100)%Q →
  (b - a ≤ Qtrunc ((8 # 100) * fs))%Z.
Proof.
  intros Hfs Hclose. apply below_Qtrunc.
  - apply Qmult_le_0_compat; [done | by apply Qlt_le_weak].
  - apply (Qmult_lt_compat_r _ _ fs) in Hclose; [|done].
    rewrite Qmult_comm, Qmult_div_r in Hclose; [done|].
    intros Heq. rewrite Heq in Hfs. by apply Qlt_irrefl in Hfs.
Qed.

(** C7 as stated: of any two candidates closer than 0.08 s apart, the
    earlier one is kept and the later one is not. *)
Definition earlier_of_close_pair_kept (fs : Q) (candidates : list Z) : Prop :=
  ∀ a b, a ∈ candidates → b ∈ candidates → (a < b)%Z →
    (inject_Z (b - a) / fs < 8 # 100)%Q →
    a ∈ dedup (Qtrunc ((8 # 100) * fs)) candidates
    ∧ b ∉ dedup (Qtrunc ((8 # 100) * fs)) candidates.

(** At 100 samples per second the minimum spacing is 8 samples.  Of the
    candidates 0, 5 and 10 the scan keeps 0, drops 5 (5 after 0) and keeps
    10 (10 after 0): of the close pair 5, 10 it is the later one that is
    kept. *)
Lemma dedup_keeps_later_of_close_pair :
  dedup (Qtrunc ((8 # 100) * 100)) [0; 5; 10]%Z = [0; 10]%Z
  ∧ ¬ earlier_of_close_pair_kept 100 [0; 5; 10]%Z.
Proof.
  split; [reflexivity|]. intros Hclaim.
  destruct (Hclaim 5 10)%Z as [Hkept _].
  - by apply list_elem_of_In; simpl; auto.
  - by apply list_elem_of_In; simpl; auto.
  - lia.
  - reflexivity.
  - change (dedup (Qtrunc ((8 # 100) * 100)) [0; 5; 10]%Z) with [0; 10]%Z in Hkept.
    apply list_elem_of_In in Hkept. simpl in Hkept. intuition lia.
Qed.

(** C7, as amended.  In the scan over the candidates in order, the first
    candidate is always kept, and a later candidate is kept exactly when
    it is more than [int(0.08 * fs)] samples after the last kept one.
    Consequently any two kept candidates are more than that apart: of two
    candidates closer than 0.08 s, at most one is kept, and when the
    earlier one is kept the later one is dropped. *)
Theorem dedup_minimum_spacing (fs : Q) (candidates : list Z) :
  (0 < fs)%Q →
  let min_dist := Qtrunc ((8 # 100) * fs) in
  (∀ c cs, candidates = c :: cs → ∃ rest, dedup min_dist candidates = c :: rest)
  ∧ (∀ before idx after l, candidates = before ++ idx :: after →
       last (dedup min_dist before) = Some l →
       dedup min_dist (before ++ [idx])
       = if (min_dist <? idx - l)%Z then dedup min_dist before ++ [idx]
         else dedup min_dist before)
  ∧ spaced min_dist (dedup min_dist candidates)
  ∧ (∀ a b, a ∈ candidates → b ∈ candidates → (a < b)%Z →
       (inject_Z (b - a) / fs < 8 # 100)%Q →
       a ∈ dedup min_dist candidates → b ∉ dedup min_dist candidates).
Proof.
  intros Hfs min_dist.
  assert (Hmd : (0 ≤ min_dist)%Z).
  { unfold min_dist. apply below_Qtrunc; [|].
    - apply Qmult_le_0_compat; [done | by apply Qlt_le_weak].
    - apply Qmult_lt_0_compat; [done | done]. }
  split_and!.
  - intros c cs ->. unfold dedup. simpl. apply foldl_dedup_step_head.
  - intros before idx after l _ Hlast. rewrite dedup_snoc.
    unfold dedup_step. by rewrite Hlast.
  - by apply dedup_spaced.
  - intros a b _ _ Hab Hclose Ha Hb.
    apply (closer_than_min_dist fs a b Hfs) in Hclose. fold min_dist in Hclose.
    pose proof (dedup_spaced min_dist candidates Hmd) as Hsp.
    apply list_elem_of_split in Ha as (l1 & l2 & Hsplit).
    rewrite Hsplit in Hb, Hsp.
    apply elem_of_app in Hb as [Hb|Hb].
    + pose proof (StronglySorted_app_1_elem_of
                    (fun a b : Z => (min_dist < b - a)%Z) l1 (a :: l2) b a Hsp Hb)
        as Hba.
      simpl in Hba. assert (a ∈ a :: l2) as Hin by by left.
      specialize (Hba Hin). lia.
    + apply elem_of_cons in Hb as [->|Hb]; [lia|].
      apply StronglySorted_app_1_r, StronglySorted_cons in Hsp as [Hall _].
      rewrite Forall_forall in Hall. specialize (Hall b Hb). simpl in Hall. lia.
Qed.

Lemma dedup_minimum_spacing_witness :
  spaced 8 (dedup 8 [3; 20; 21; 29; 30]%Z)
  ∧ (21%Z ∈ dedup 8 [3; 20; 21; 29; 30]%Z → False)
  ∧ dedup 8 [3; 20; 21; 29; 30]%Z = [3; 20; 29]%Z.
Proof.
  pose proof (dedup_minimum_spacing 100 [3; 20; 21; 29; 30]%Z eq_refl)
    as (_ & _ & Hsp & Hclose).
  split_and!; [exact Hsp | | reflexivity].
  apply (Hclose 20 21)%Z; [by apply list_elem_of_In; simpl; auto ..| lia | reflexivity |].
  by apply list_elem_of_In; simpl; auto.
Defined.

(** ** The threshold scan on a trace with few distinct values *)

Lemma elem_of_insert_unique (x y : Z) (l : list Z) :
  y ∈ insert_unique x l ↔ y = x ∨ y ∈ l.
Proof.
  induction l as [|z l IH]; simpl.
  - rewrite list_elem_of_singleton, elem_of_nil. tauto.
  - destruct (x <? z)%Z eqn:Hlt; [rewrite !elem_of_cons; tauto|].
    destruct (x =? z)%Z eqn:Heq.
    + apply Z.eqb_eq in Heq as ->. rewrite !elem_of_cons. tauto.
    + rewrite !elem_of_cons, IH. tauto.
Qed.

Lemma insert_unique_sorted (x : Z) (l : list Z) :
  StronglySorted Z.lt l → StronglySorted Z.lt (insert_unique x l).
Proof.
  induction l as [|z l IH]; intros Hs; simpl.
  - repeat constructor.
  - apply StronglySorted_cons in Hs as [Hall Hs].
    destruct (x <? z)%Z eqn:Hlt.
    + apply Z.ltb_lt in Hlt. apply StronglySorted_cons. split.
      * constructor; [done|]. eapply Forall_impl; [done|]. simpl. lia.
      * by apply StronglySorted_cons.
    + destruct (x =? z)%Z eqn:Heq; [by apply StronglySorted_cons|].
      apply Z.ltb_ge in Hlt. apply Z.eqb_neq in Heq.
      apply StronglySorted_cons. split; [|by apply IH].
      apply Forall_forall. intros y [->|Hy]%elem_of_insert_unique; [lia|].
      rewrite Forall_forall in Hall. by apply Hall.
Qed.

Lemma np_unique_sorted (a : list Z) : StronglySorted Z.lt (np_unique a).
Proof.
  induction a as [|x a IH]; simpl; [constructor | by apply insert_unique_sorted].
Qed.

Lemma elem_of_np_unique (a : list Z) (y : Z) : y ∈ np_unique a ↔ y ∈ a.
Proof.
  induction a as [|x a IH]; simpl; [done|].
  rewrite elem_of_insert_unique, elem_of_cons, IH. done.
Qed.

Lemma StronglySorted_lt_NoDup (l : list Z) : StronglySorted Z.lt l → NoDup l.
Proof.
  induction l as [|x l IH]; intros Hs; [constructor|].
  apply StronglySorted_cons in Hs as [Hall Hs].
  apply NoDup_cons. split; [|by apply IH].
  intros Hx. rewrite Forall_forall in Hall. specialize (Hall x Hx). lia.
Qed.

(** [np.unique] has as many entries as the trace has distinct values. *)
Lemma length_np_unique (a : list Z) :
  length (np_unique a) = size (list_to_set a : gset Z).
Proof.
  rewrite <- (size_list_to_set (C := gset Z) (np_unique a))
    by apply StronglySorted_lt_NoDup, np_unique_sorted.
  f_equal. apply set_eq. intros y.
  by rewrite !elem_of_list_to_set, elem_of_np_unique.
Qed.

Lemma run_for_each_app {A : Type} (l1 l2 : list A) (body : A → M unit) w :
  run (for_each (l1 ++ l2) body) w =
  match run (for_each l1 body) w with
  | (Ok _, w') => run (for_each l2 body) w'
  | (Raise e, w') => (Raise e, w')
  end.
Proof.
  revert w. induction l1 as [|a l1 IH]; intros w; simpl; [done|].
  destruct (run (body a) w) as [[[]|e] w1]; [apply IH | done].
Qed.

(** C6. A trace with fewer than 4 distinct capacitance values yields no
    event, whatever its shape, and no exception: the detection takes the
    branch that skips the subject, and a batch that contains the subject
    runs exactly as the batch without it, so that nothing is stored or
    printed for the subject. *)
Theorem few_values_no_events (numpy : numpy_release) (trace : list Z)
    (times : list Q) (animal : string) (data : subject_data) :
  size (list_to_set trace : gset Z) < 4 →
  basic_detect numpy trace times = Ok None
  ∧ (s_cap_data data = trace →
     ∀ before after w,
       run (basic_algorithm numpy (before ++ (animal, data) :: after)) w
       = run (basic_algorithm numpy (before ++ after)) w).
Proof.
  intros Hfew.
  assert (Hdetect : ∀ times, basic_detect numpy trace times = Ok None).
  { intros ts. unfold basic_detect. rewrite length_np_unique.
    rewrite decide_False; [done | lia]. }
  split; [done|]. intros Hcap before after w.
  unfold basic_algorithm. rewrite !run_for_each_app.
  destruct (run (for_each before _) w) as [[[]|e] w1]; [|done].
  simpl. rewrite Hcap, Hdetect. simpl. done.
Qed.

Lemma few_values_no_events_witness :
  basic_detect numpy_from_2_4 [5; 9; 5; 7; 9; 5]%Z [0; 1; 2; 3; 4; 5]%Q
  = Ok None.
Proof.
  apply (few_values_no_events numpy_from_2_4 [5; 9; 5; 7; 9; 5]%Z
           [0; 1; 2; 3; 4; 5]%Q "" (mk_subject_data [] [] None [] 0 0)).
  vm_compute. lia.
Defined.

(** ** The analysis window *)

Lemma strip_prefix_Some (p s r : string) :
  strip_prefix p s = Some r → s = p +:+ r.
Proof.
  revert s. induction p as [|a p IH]; intros s Hs; simpl in Hs.
  - by inversion Hs.
  - destruct s as [|b s]; [done|]. case_decide; [|done]. subst.
    change (String b s = String b (p +:+ r)). f_equal. by apply IH.
Qed.

Lemma match_start_time_prefix (k : string) (n : Z) :
  match_start_time k = Some n → ∃ suffix, k = "start_time" +:+ suffix.
Proof.
  unfold match_start_time. intros Hm.
  destruct (strip_prefix "start_time" k) as [rest|] eqn:Hrest; [|done].
  exists rest. by apply strip_prefix_Some.
Qed.

Lemma substring_all (s : string) : String.substring 0 (String.length s) s = s.
Proof. induction s as [|a s IH]; simpl; [done | by rewrite IH]. Qed.

Lemma stop_key_start_time (suffix : string) :
  stop_key ("start_time" +:+ suffix) = "stop_time" +:+ suffix.
Proof.
  unfold stop_key.
  change ("start_time" +:+ suffix)
    with (String "s" (String "t" (String "a" (String "r" (String "t"
            ("_time" +:+ suffix)))))).
  cbn [String.length String.substring Nat.sub].
  by rewrite Nat.sub_0_r, substring_all.
Qed.

(** The dict [matches]: its keys are the numbers of the matching keys. *)
Lemma matches_get_set (num n : Z) (k : string) (m : list (Z * string)) :
  matches_get n (matches_set num k m)
  = if (n =? num)%Z then Some k else matches_get n m.
Proof.
  induction m as [|[n' k'] m IH]; simpl.
  - done.
  - destruct (num =? n')%Z eqn:Hnum; simpl.
    + apply Z.eqb_eq in Hnum as ->. by destruct (n =? n')%Z.
    + rewrite IH. destruct (n =? n')%Z eqn:Hn; [|done].
      apply Z.eqb_eq in Hn as ->. apply Z.eqb_neq in Hnum.
      assert ((n' =? num)%Z = false) as -> by (apply Z.eqb_neq; lia). done.
Qed.

Lemma matches_fst_set (num n : Z) (k : string) (m : list (Z * string)) :
  n ∈ (matches_set num k m).*1 ↔ n = num ∨ n ∈ m.*1.
Proof.
  induction m as [|[n' k'] m IH]; simpl.
  - rewrite list_elem_of_singleton, elem_of_nil. tauto.
  - destruct (num =? n')%Z eqn:Hnum; simpl.
    + apply Z.eqb_eq in Hnum as ->. rewrite !elem_of_cons. tauto.
    + rewrite !elem_of_cons, IH. tauto.
Qed.

Lemma matches_get_Some_iff (n : Z) (m : list (Z * string)) :
  is_Some (matches_get n m) ↔ n ∈ m.*1.
Proof.
  induction m as [|[n' k'] m IH]; simpl.
  - rewrite elem_of_nil. split; [by intros [? ?] | done].
  - rewrite elem_of_cons. destruct (n =? n')%Z eqn:Hn.
    + apply Z.eqb_eq in Hn. split; [by left | eauto].
    + apply Z.eqb_neq in Hn. rewrite IH. tauto.
Qed.

Definition matches_of (keys : list string) (m : list (Z * string)) : Prop :=
  (∀ n, n ∈ m.*1 ↔ ∃ k, k ∈ keys ∧ match_start_time k = Some n)
  ∧ (∀ n k, matches_get n m = Some k → k ∈ keys ∧ match_start_time k = Some n).

Lemma start_matches_spec (keys : list string) :
  matches_of keys (start_matches keys).
Proof.
  unfold start_matches.
  induction keys as [|k keys IH] using rev_ind.
  - split.
    + intros n. simpl. rewrite elem_of_nil. split; [done|].
      intros (k & Hk & _). by apply elem_of_nil in Hk.
    + intros n k. simpl. done.
  - rewrite foldl_app. simpl. destruct IH as [IH1 IH2].
    set (m := foldl _ [] keys) in *.
    destruct (match_start_time k) as [num|] eqn:Hk.
    + split.
      * intros n. rewrite matches_fst_set, IH1. split.
        -- intros [->|(k' & Hk' & Hm)].
           ++ exists k. split; [|done]. apply elem_of_app. right. by left.
           ++ exists k'. split; [|done]. apply elem_of_app. by left.
        -- intros (k' & [Hk'|Hk']%elem_of_app & Hm).
           ++ right. eauto.
           ++ apply list_elem_of_singleton in Hk' as ->. left. congruence.
      * intros n k'. rewrite matches_get_set.
        destruct (n =? num)%Z eqn:Hn.
        -- apply Z.eqb_eq in Hn as ->. intros [= <-].
           split; [|done]. apply elem_of_app. right. by left.
        -- intros Hget. destruct (IH2 _ _ Hget) as [Hin Hm].
           split; [|done]. apply elem_of_app. by left.
    + split.
      * intros n. rewrite IH1. split.
        -- intros (k' & Hk' & Hm). exists k'. split; [|done].
           apply elem_of_app. by left.
        -- intros (k' & [Hk'|Hk']%elem_of_app & Hm); [eauto|].
           apply list_elem_of_singleton in Hk' as ->. congruence.
      * intros n k' Hget. destruct (IH2 _ _ Hget) as [Hin Hm].
        split; [|done]. apply elem_of_app. by left.
Qed.

Lemma max_num_spec (m : list (Z * string)) :
  match max_num m with
  | Some n => n ∈ m.*1 ∧ ∀ n', n' ∈ m.*1 → (n' ≤ n)%Z
  | None => m = []
  end.
Proof.
  unfold max_num. induction m as [|[n k] m IH] using rev_ind; [done|].
  rewrite foldl_app. simpl.
  destruct (foldl _ None m) as [x|].
  - destruct IH as [Hx Hmax]. rewrite fmap_app. simpl.
    destruct (x <? n)%Z eqn:Hlt.
    + apply Z.ltb_lt in Hlt. split; [apply elem_of_app; right; by left|].
      intros n' [Hn'|Hn']%elem_of_app.
      * specialize (Hmax n' Hn'). lia.
      * apply list_elem_of_singleton in Hn' as ->. lia.
    + apply Z.ltb_ge in Hlt. split; [apply elem_of_app; by left|].
      intros n' [Hn'|Hn']%elem_of_app; [by apply Hmax|].
      apply list_elem_of_singleton in Hn' as ->. lia.
  - subst m. simpl. split; [by left|].
    intros n' Hn'. apply list_elem_of_singleton in Hn' as ->. lia.
Qed.

(** [last_start] is a key with the highest number among the keys that
    match [start_time*], and there is none exactly when no key matches. *)
Lemma last_start_spec (keys : list string) :
  match last_start keys with
  | Some k =>
      k ∈ keys
      ∧ ∃ n, match_start_time k = Some n
          ∧ ∀ k' n', k' ∈ keys → match_start_time k' = Some n' → (n' ≤ n)%Z
  | None => ∀ k, k ∈ keys → match_start_time k = None
  end.
Proof.
  unfold last_start.
  pose proof (start_matches_spec keys) as [Hdom Hget].
  pose proof (max_num_spec (start_matches keys)) as Hmax.
  destruct (max_num (start_matches keys)) as [n|].
  - destruct Hmax as [Hn Hmax].
    apply matches_get_Some_iff in Hn as Hsome. destruct Hsome as [k Hk].
    rewrite Hk. destruct (Hget _ _ Hk) as [Hin Hm].
    split; [done|]. exists n. split; [done|].
    intros k' n' Hk' Hm'. apply Hmax, Hdom. eauto.
  - intros k Hk. destruct (match_start_time k) as [n|] eqn:Hm; [|done].
    assert (Hn : n ∈ (start_matches keys).*1) by (apply Hdom; eauto).
    rewrite Hmax in Hn. by apply elem_of_nil in Hn.
Qed.

Lemma dict_get_is_Some {V : Type} (k : string) (d : list (string * V)) :
  k ∈ d.*1 → is_Some (dict_get k d).
Proof.
  induction d as [|[k' v] d IH]; simpl; [by intros ?%elem_of_nil|].
  intros [Hk|Hk]%elem_of_cons; case_decide; eauto; simpl in *; congruence.
Qed.

Lemma last_cons_default {A : Type} (x d d' : A) (l : list A) :
  List.last (x :: l) d = List.last (x :: l) d'.
Proof.
  revert x. induction l as [|y l IH]; intros x; [done|].
  change (List.last (y :: l) d = List.last (y :: l) d'). apply IH.
Qed.

Lemma lookup_last {A : Type} (x : A) (l : list A) :
  (x :: l) !! length l = Some (List.last l x).
Proof.
  revert x. induction l as [|y l IH]; intros x; [done|].
  change ((y :: l) !! length l = Some (List.last (y :: l) x)).
  rewrite IH. f_equal. destruct l as [|z l]; [done|].
  change (List.last (z :: l) y = List.last (z :: l) x).
  apply last_cons_default.
Qed.

(** *** The number of a field name

    The reading of the field names that the specification uses: a name
    that consists of [start_time] and a decimal numeral is the field with
    that number, and the bare name, the field of the first cycle, counts
    as number -1, below every numeral. *)

(** The ten digits and their values. *)
Definition digit_values : list (ascii * Z) :=
  [ ("0"%char, 0); ("1"%char, 1); ("2"%char, 2); ("3"%char, 3);
    ("4"%char, 4); ("5"%char, 5); ("6"%char, 6); ("7"%char, 7);
    ("8"%char, 8); ("9"%char, 9) ]%Z.

(** Positional notation: a digit stands for its value, and a digit
    appended to a numeral of [n] gives a numeral of [10 * n + d]. *)
Inductive numeral : string → Z → Prop :=
  | numeral_digit c d :
      (c, d) ∈ digit_values → numeral (String c "") d
  | numeral_snoc s n c d :
      numeral s n → (c, d) ∈ digit_values →
      numeral (s +:+ String c "") (10 * n + d)%Z.

(** The name [k] is the field [base] with number [n].  One newline at the
    end of a name is passed over, as [$] does. *)
Inductive numbered_field (base : string) : string → Z → Prop :=
  | bare_field nl :
      nl ∈ [""; String "010" ""] →
      numbered_field base (base +:+ nl) (-1)
  | cycle_field s n nl :
      numeral s n → nl ∈ [""; String "010" ""] →
      numbered_field base (base +:+ s +:+ nl) n.

(** The [start_time*] fields of a sensor group, with their numbers. *)
Definition start_field (sd : sensor_data) (k : string) (n : Z) : Prop :=
  k ∈ (fields sd).*1 ∧ numbered_field "start_time" k n.

Lemma string_app_nil_r (s : string) : s +:+ "" = s.
Proof.
  induction s as [|a s IH]; [done|].
  change (String a (s +:+ "") = String a s). by rewrite IH.
Qed.

Lemma string_app_assoc (s1 s2 s3 : string) :
  (s1 +:+ s2) +:+ s3 = s1 +:+ (s2 +:+ s3).
Proof.
  induction s1 as [|a s1 IH]; [done|].
  change (String a ((s1 +:+ s2) +:+ s3) = String a (s1 +:+ (s2 +:+ s3))).
  by rewrite IH.
Qed.

Lemma string_length_app (s1 s2 : string) :
  String.length (s1 +:+ s2) = String.length s1 + String.length s2.
Proof.
  induction s1 as [|a s1 IH]; [done|].
  change (S (String.length (s1 +:+ s2))
          = S (String.length s1 + String.length s2)).
  by rewrite IH.
Qed.

Lemma strip_prefix_app (p r : string) : strip_prefix p (p +:+ r) = Some r.
Proof.
  induction p as [|a p IH]; [done|].
  change (strip_prefix (String a p) (String a (p +:+ r)) = Some r).
  simpl. by rewrite decide_True.
Qed.

Lemma digit_values_spec (c : ascii) (d : Z) :
  (c, d) ∈ digit_values →
  is_digit c = true ∧ (Z.of_nat (nat_of_ascii c) - 48)%Z = d.
Proof.
  unfold digit_values. intros Hin.
  repeat (apply elem_of_cons in Hin as [[= -> ->]|Hin]; [by vm_compute|]).
  by apply elem_of_nil in Hin.
Qed.

Lemma is_digit_value (c : ascii) :
  is_digit c = true →
  (c, (Z.of_nat (nat_of_ascii c) - 48)%Z) ∈ digit_values.
Proof.
  destruct c as [[] [] [] [] [] [] [] []]; intros Hc;
    try (by vm_compute in Hc);
    unfold digit_values; rewrite !elem_of_cons; vm_compute; tauto.
Qed.

Lemma parse_digits_cons (c : ascii) (d : Z) (s : string) (acc : Z) :
  (c, d) ∈ digit_values →
  parse_digits (String c s) acc = parse_digits s (10 * acc + d)%Z.
Proof.
  intros [Hc Hd]%digit_values_spec. simpl. by rewrite Hc, Hd.
Qed.

Lemma pow10_succ (k : nat) :
  (10 ^ Z.of_nat (S k) = 10 * 10 ^ Z.of_nat k)%Z.
Proof. rewrite Nat2Z.inj_succ. apply Z.pow_succ_r. lia. Qed.

(** Reading a numeral: the scan of the digits yields its number. *)
Lemma parse_digits_numeral (s : string) (n : Z) :
  numeral s n →
  ∀ tail acc,
    parse_digits (s +:+ tail) acc
    = parse_digits tail (acc * 10 ^ Z.of_nat (String.length s) + n)%Z.
Proof.
  induction 1 as [c d Hd|s n c d _ IH Hd]; intros tail acc.
  - change (String c "" +:+ tail) with (String c tail).
    rewrite (parse_digits_cons c d) by done. f_equal.
    change (String.length (String c "")) with 1. lia.
  - rewrite string_app_assoc.
    change (String c "" +:+ tail) with (String c tail).
    rewrite IH, (parse_digits_cons c d) by done. f_equal.
    rewrite string_length_app.
    change (String.length (String c "")) with 1.
    rewrite Nat.add_1_r, pow10_succ. lia.
Qed.

Lemma numeral_cons (c : ascii) (d : Z) (s : string) (m : Z) :
  numeral s m → (c, d) ∈ digit_values →
  numeral (String c s) (d * 10 ^ Z.of_nat (String.length s) + m)%Z.
Proof.
  intros Hs Hd. induction Hs as [c' d' Hd'|s m c' d' _ IH Hd'].
  - change (String c (String c' "")) with (String c "" +:+ String c' "").
    change (String.length (String c' "")) with 1.
    replace (d * 10 ^ Z.of_nat 1 + d')%Z with (10 * d + d')%Z by lia.
    apply numeral_snoc; [by apply numeral_digit | done].
  - change (String c (s +:+ String c' ""))
      with (String c s +:+ String c' "").
    rewrite string_length_app.
    change (String.length (String c' "")) with 1.
    rewrite Nat.add_1_r, pow10_succ.
    replace (d * (10 * 10 ^ Z.of_nat (String.length s)) + (10 * m + d'))%Z
      with (10 * (d * 10 ^ Z.of_nat (String.length s) + m) + d')%Z by lia.
    by apply numeral_snoc.
Qed.

(** What the scan of the digits of [s] has read when it stops. *)
Lemma parse_digits_inv (s : string) (acc n : Z) (tail : string) :
  parse_digits s acc = (n, tail) →
  (s = tail ∧ n = acc)
  ∨ ∃ ds m, s = ds +:+ tail ∧ numeral ds m
      ∧ n = (acc * 10 ^ Z.of_nat (String.length ds) + m)%Z.
Proof.
  revert acc. induction s as [|c s IH]; intros acc Hparse; simpl in Hparse.
  - injection Hparse as <- <-. by left.
  - destruct (is_digit c) eqn:Hc; [|injection Hparse as <- <-; by left].
    apply is_digit_value in Hc.
    set (d := (Z.of_nat (nat_of_ascii c) - 48)%Z) in *. right.
    destruct (IH _ Hparse) as [[-> ->]|(ds & m & -> & Hds & ->)].
    + exists (String c ""), d. split_and!; [done | by apply numeral_digit |].
      change (String.length (String c "")) with 1. lia.
    + exists (String c ds), (d * 10 ^ Z.of_nat (String.length ds) + m)%Z.
      split_and!; [done | by apply numeral_cons |].
      change (String.length (String c ds)) with (S (String.length ds)).
      rewrite pow10_succ. lia.
Qed.

Lemma numeral_head (s : string) (n : Z) :
  numeral s n → ∃ c s', s = String c s' ∧ is_digit c = true.
Proof.
  induction 1 as [c d Hd|s n c d _ (c' & s' & -> & Hc') Hd].
  - exists c, "". split; [done|]. by apply digit_values_spec in Hd as [? _].
  - exists c', (s' +:+ String c ""). done.
Qed.

Lemma at_end_spec (s : string) :
  at_end s = true ↔ s ∈ [""; String "010" ""].
Proof.
  unfold at_end. rewrite orb_true_iff, !bool_decide_eq_true.
  rewrite !elem_of_cons, elem_of_nil. tauto.
Qed.

Lemma parse_digits_at_end (nl : string) (acc : Z) :
  nl ∈ [""; String "010" ""] → parse_digits nl acc = (acc, nl).
Proof.
  intros Hnl. apply elem_of_cons in Hnl as [->|Hnl]; [done|].
  by apply list_elem_of_singleton in Hnl as ->.
Qed.

(** The pattern [^start_time(\d+)?$] with [int(m.group(1))], or -1 without
    the group, reads a name as the specification does. *)
Lemma match_start_time_spec (k : string) (n : Z) :
  match_start_time k = Some n ↔ numbered_field "start_time" k n.
Proof.
  split.
  - unfold match_start_time. intros Hm.
    destruct (strip_prefix "start_time" k) as [rest|] eqn:Hrest; [|done].
    apply strip_prefix_Some in Hrest as ->.
    destruct rest as [|c r].
    + injection Hm as <-. apply bare_field. by left.
    + destruct (is_digit c) eqn:Hc.
      * destruct (parse_digits (String c r) 0) as [n' tail] eqn:Hparse.
        destruct (at_end tail) eqn:Hend; [|done]. injection Hm as ->.
        apply at_end_spec in Hend.
        apply parse_digits_inv in Hparse
          as [[<- _]|(ds & m & -> & Hds & ->)].
        -- exfalso. apply elem_of_cons in Hend as [Hend|Hend]; [done|].
           apply list_elem_of_singleton in Hend. by injection Hend as -> _.
        -- replace (0 * 10 ^ Z.of_nat (String.length ds) + m)%Z with m
             by lia.
           by apply cycle_field.
      * destruct (at_end (String c r)) eqn:Hend; [|done]. injection Hm as <-.
        apply bare_field. by apply at_end_spec.
  - intros [nl Hnl|s m nl Hs Hnl]; unfold match_start_time.
    + rewrite strip_prefix_app.
      apply elem_of_cons in Hnl as [->|Hnl]; [done|].
      by apply list_elem_of_singleton in Hnl as ->.
    + rewrite strip_prefix_app.
      destruct (numeral_head s m Hs) as (c & s' & -> & Hc).
      change (String c s' +:+ nl) with (String c (s' +:+ nl)).
      cbv iota beta. rewrite Hc.
      change (String c (s' +:+ nl)) with (String c s' +:+ nl).
      rewrite (parse_digits_numeral _ _ Hs).
      rewrite parse_digits_at_end by done.
      apply at_end_spec in Hnl. rewrite Hnl. done.
Qed.

(** The greatest number, and the names of the two fields of its cycle. *)
Lemma last_start_field (sd : sensor_data) :
  match last_start (fields sd).*1 with
  | Some k =>
      ∃ n suffix,
        start_field sd k n
        ∧ (∀ k' n', start_field sd k' n' → (n' ≤ n)%Z)
        ∧ k = "start_time" +:+ suffix
        ∧ stop_key k = "stop_time" +:+ suffix
  | None => ∀ k n, ¬ start_field sd k n
  end.
Proof.
  pose proof (last_start_spec (fields sd).*1) as Hspec.
  destruct (last_start (fields sd).*1) as [k|].
  - destruct Hspec as (Hin & n & Hm & Hmax).
    destruct (match_start_time_prefix k n Hm) as [suffix Hk].
    exists n, suffix. split_and!.
    + split; [done|]. by apply match_start_time_spec.
    + intros k' n' [Hin' Hfield]. apply (Hmax k'); [done|].
      by apply match_start_time_spec.
    + done.
    + rewrite Hk. apply stop_key_start_time.
  - intros k n [Hin Hfield]. apply match_start_time_spec in Hfield.
    specialize (Hspec k Hin). congruence.
Qed.

(** The first and the last timestamp of a recorded trace. *)
Lemma time_at_recorded (sd : sensor_data) (t : Q) (ts : list Q) :
  time_data sd = Some (t :: ts) →
  time_at sd 0 = Ok t ∧ time_at sd (-1) = Ok (List.last ts t).
Proof.
  intros Htime. split.
  - unfold time_at, np_index. by rewrite Htime.
  - unfold time_at, np_index. rewrite Htime. simpl length.
    replace (-1 <? 0)%Z with true by done.
    replace ((0 <=? -1 + Z.of_nat (S (length ts))) &&
             (-1 + Z.of_nat (S (length ts)) <? Z.of_nat (S (length ts))))%Z
      with true by (symmetry; apply andb_true_iff; split;
                    [apply Z.leb_le | apply Z.ltb_lt]; lia).
    replace (Z.to_nat (-1 + Z.of_nat (S (length ts)))) with (length ts) by lia.
    by rewrite lookup_last.
Qed.

(** C3, as amended.  The analysis window of a sensor with at least one
    recorded timestamp.  When the group has a [start_time*] field, the
    start time is the value of one with the highest number (the bare name
    counting as -1), and the stop time is the value of the [stop_time*]
    field with the same suffix or, when that field is absent, the last
    recorded timestamp.  When the group has no [start_time*] field, the
    window is the whole trace, from the first to the last recorded
    timestamp, a warning is printed, and no exception is raised. *)
Theorem window_resolution (board_id sensor_id : string) (sd : sensor_data)
    (t : Q) (ts : list Q) (w : world) :
  time_data sd = Some (t :: ts) →
  ((∃ k n, start_field sd k n) →
   ∃ k n suffix start_time,
     start_field sd k n
     ∧ (∀ k' n', start_field sd k' n' → (n' ≤ n)%Z)
     ∧ k = "start_time" +:+ suffix
     ∧ dict_get k (fields sd) = Some start_time
     ∧ run (resolve_window board_id sensor_id sd) w
       = (Ok (start_time,
              default (List.last ts t)
                (dict_get ("stop_time" +:+ suffix) (fields sd))),
          w))
  ∧ ((∀ k n, ¬ start_field sd k n) →
     run (resolve_window board_id sensor_id sd) w
     = (Ok (t, List.last ts t),
        mk_world (stdout w ++ [no_start_warning board_id sensor_id])
          (logfile w) (filtered_h5f w))).
Proof.
  intros [Hfirst Hlast]%time_at_recorded.
  pose proof (last_start_field sd) as Hspec.
  unfold resolve_window.
  destruct (last_start (fields sd).*1) as [k|]; split.
  - intros _. destruct Hspec as (n & suffix & Hfield & Hmax & Hk & Hstop).
    destruct (dict_get_is_Some k (fields sd) (proj1 Hfield))
      as [start_time Hstart].
    exists k, n, suffix, start_time. split_and!; try done.
    simpl. rewrite Hstart, Hstop. simpl.
    destruct (dict_get ("stop_time" +:+ suffix) (fields sd)); simpl; [done|].
    by rewrite Hlast.
  - intros Hnone. destruct Hspec as (n & _ & Hfield & _).
    by destruct (Hnone k n).
  - intros (k & n & Hfield). by destruct (Hspec k n).
  - intros _. simpl. by rewrite Hfirst, Hlast.
Qed.

(** ** Consumed volume *)

Lemma dict_get_set_eq {V : Type} (k : string) (v : V) (d : list (string * V)) :
  dict_get k (dict_set k v d) = Some v.
Proof.
  induction d as [|[k' v'] d IH]; simpl.
  - by rewrite decide_True.
  - case_decide; simpl; [by rewrite decide_True | by rewrite decide_False].
Qed.

Lemma dict_get_set_ne {V : Type} (k k' : string) (v : V) (d : list (string * V)) :
  k' ≠ k → dict_get k' (dict_set k v d) = dict_get k' d.
Proof.
  intros Hne. induction d as [|[k0 v0] d IH]; simpl.
  - by rewrite decide_False.
  - destruct (decide (k = k0)) as [->|Hk]; simpl.
    + by rewrite !decide_False.
    + by rewrite IH.
Qed.

(** The scalar fields of a processed sensor: those of the raw group, with
    [consumed_vol] set when [stop_vol] is among them. *)
Lemma process_sensor_fields board_id sensor_id sd data w w' :
  run (process_sensor board_id sensor_id sd) w = (Ok data, w') →
  match dict_get "stop_vol" (fields sd) with
  | Some stop_vol =>
      ∃ start_vol, dict_get "start_vol" (fields sd) = Some start_vol
        ∧ s_fields data
          = dict_set "consumed_vol" (start_vol - stop_vol)%Q (fields sd)
  | None => s_fields data = fields sd
  end.
Proof.
  unfold process_sensor. simpl.
  destruct (run (resolve_window board_id sensor_id sd) w)
    as [[[start_time stop_time]|e] w1]; [|done].
  simpl. intros Hrun. injection Hrun as Hrun _.
  destruct (time_data sd) as [time|]; simpl in Hrun; [|done].
  destruct (nearest time start_time) as [start_idx|]; simpl in Hrun; [|done].
  destruct (nearest time stop_time) as [stop_idx|]; simpl in Hrun; [|done].
  destruct (index time start_idx) as [t0|]; simpl in Hrun; [|done].
  destruct (cap_data sd) as [cap|]; simpl in Hrun; [|done].
  destruct (np_index _ (-1)) as [t_last|]; simpl in Hrun; [|done].
  destruct (np_index _ 0) as [t_first|]; simpl in Hrun; [|done].
  destruct (dict_get "stop_vol" (fields sd)) as [stop_vol|].
  - destruct (dict_get "start_vol" (fields sd)) as [start_vol|];
      simpl in Hrun; [|done].
    exists start_vol. split; [done|]. by inversion Hrun.
  - simpl in Hrun. by inversion Hrun.
Qed.

(** The group of a reported subject in the output file: the detection,
    the bounds of the window, and the [consumed_vol] and [weight] that the
    subject has. *)
Definition stored_group (data : subject_data) (d : detection) : out_group :=
  mk_out_group (Some (lick_times d)) (Some (lick_indices d))
    (Some (used_start_idx data)) (Some (used_stop_idx data))
    (dict_get "consumed_vol" (s_fields data))
    (dict_get "weight" (s_fields data)).

(** The lines that go to the log file when a subject is stored: one for
    a missing [consumed_vol], then one for a missing [weight]. *)
Definition missing_log (data : subject_data) (animal : string) : list string :=
  match dict_get "consumed_vol" (s_fields data) with
  | Some _ => []
  | None => [volumes_log "consumed_vol" animal]
  end
  ++ match dict_get "weight" (s_fields data) with
     | Some _ => []
     | None => [weight_log "weight" animal]
     end.

Lemma run_bind {A B : Type} (m : M A) (f : A → M B) (w : world) :
  run (m ≫= f) w
  = match run m w with
    | (Ok a, w') => run (f a) w'
    | (Raise e, w') => (Raise e, w')
    end.
Proof. reflexivity. Qed.

(** What [save_filtered_data] leaves for a subject that is not yet in the
    output file: it returns normally, whatever is missing. *)
Lemma save_filtered_data_stores (data : subject_data) (d : detection)
    (animal : string) (w : world) :
  dict_get animal (filtered_h5f w) = None →
  ∃ w',
    run (save_filtered_data data d animal) w = (Ok tt, w')
    ∧ dict_get animal (filtered_h5f w') = Some (stored_group data d)
    ∧ logfile w' = logfile w ++ missing_log data animal.
Proof.
  intros Hfresh.
  unfold save_filtered_data, save_optional, stored_group, missing_log.
  simpl. rewrite Hfresh. simpl.
  destruct (dict_get "consumed_vol" (s_fields data)) as [c|];
    destruct (dict_get "weight" (s_fields data)) as [wt|]; simpl;
    eexists; (split_and!; [reflexivity | by simpl; rewrite dict_get_set_eq |]);
    simpl; by rewrite ?app_nil_r, <- ?app_assoc.
Qed.

(** [save_filtered_data] changes no other group of the output file. *)
Lemma save_filtered_data_frame (data : subject_data) (d : detection)
    (animal : string) (w w' : world) r :
  run (save_filtered_data data d animal) w = (r, w') →
  ∀ other, other ≠ animal →
    dict_get other (filtered_h5f w') = dict_get other (filtered_h5f w).
Proof.
  unfold save_filtered_data, save_optional. simpl.
  destruct (dict_get animal (filtered_h5f w)); simpl.
  - intros [= _ <-]. done.
  - destruct (dict_get "consumed_vol" (s_fields data));
      destruct (dict_get "weight" (s_fields data)); simpl;
      intros [= _ <-] other Hne; simpl;
      by rewrite !dict_get_set_ne.
Qed.

(** C4 as stated, first half: the consumed volume is computed from the
    volumes of the cycle the window used. *)
Definition consumed_from_used_cycle (sd : sensor_data) : Prop :=
  ∀ suffix start_vol stop_vol data w w',
    last_start (fields sd).*1 = Some ("start_time" +:+ suffix) →
    dict_get ("start_vol" +:+ suffix) (fields sd) = Some start_vol →
    dict_get ("stop_vol" +:+ suffix) (fields sd) = Some stop_vol →
    run (process_sensor "board_FT232H0" "sensor_1" sd) w = (Ok data, w') →
    ∃ v, dict_get "consumed_vol" (s_fields data) = Some v
      ∧ (v == start_vol - stop_vol)%Q.

(** C4 as stated, second half: with a volume missing the batch is not
    aborted. *)
Definition missing_volume_tolerated (raw : list top_level)
    (rows : list (nat * string)) : Prop :=
  ∀ numpy w, ∃ w',
    run (filter_data unit unit (fun _ _ _ _ => Ok tt) (fun _ x => Ok x)
           (fun _ => tt) (fun _ => []) numpy raw rows basic_threshold) w
    = (Ok tt, w').

(** A trace of 18 samples, 10 ms apart, with two dips. *)
Definition example_trace : list Z :=
  [10; 10; 10; 8; 6; 4; 6; 8; 10; 10; 10; 8; 6; 4; 2; 6; 10; 10]%Z.
Definition example_times : list Q :=
  (fun i => inject_Z (Z.of_nat i) / 100)%Q <$> seq 0 18.

(** A sensor whose second cycle was the last one started, with other
    volumes than the first. *)
Definition two_cycle_sensor : sensor_data :=
  mk_sensor_data (Some example_times) (Some example_trace)
    [ ("start_time", 1 # 100); ("start_time1", 3 # 100);
      ("start_vol", 10); ("start_vol1", 20);
      ("stop_time", 2 # 100); ("stop_time1", 16 # 100);
      ("stop_vol", 2); ("stop_vol1", 5) ]%Q.

(** A sensor for which only the stop volume was written (a start volume
    of zero is not written by the recorder). *)
Definition stop_vol_only_sensor : sensor_data :=
  mk_sensor_data (Some example_times) (Some example_trace)
    [ ("start_time", 3 # 100); ("stop_time", 16 # 100); ("stop_vol", 5) ]%Q.

Definition empty_world : world := mk_world [] [] [].

(** With the second cycle used, [consumed_vol] is still the difference of
    the bare fields, 10 - 2, and not 20 - 5; and a sensor with a stop
    volume but no start volume raises [KeyError] out of [filter_data], so
    that the batch is aborted with nothing written. *)
Lemma consumed_volume_counterexample :
  ¬ consumed_from_used_cycle two_cycle_sensor
  ∧ ¬ missing_volume_tolerated
        [BoardGroup "FT232H0" [("sensor_1", stop_vol_only_sensor)]]
        [(1, "mouse")].
Proof.
  split.
  - intros Hclaim.
    destruct (run (process_sensor "board_FT232H0" "sensor_1" two_cycle_sensor)
                empty_world) as [[data|e] w'] eqn:Hrun;
      [|by vm_compute in Hrun].
    destruct (Hclaim "1" 20%Q 5%Q data empty_world w'
                eq_refl eq_refl eq_refl Hrun) as (v & Hv & Heq).
    vm_compute in Hrun. injection Hrun as <- <-.
    vm_compute in Hv. injection Hv as <-. by vm_compute in Heq.
  - intros Hclaim.
    destruct (Hclaim numpy_up_to_2_3 empty_world) as [w' Hrun].
    by vm_compute in Hrun.
Qed.

(** What a batch does with its first subject: it stores the subject's
    group, with a log line for each of [consumed_vol] and [weight] that
    the subject lacks, or it skips the subject, leaving the output file
    and the log file as they are; either way it goes on with the
    remaining subjects. *)
Definition stores_subject (batch : list (string * subject_data) → M unit)
    (animal : string) (data : subject_data) (d : detection) (w : world)
  : Prop :=
  ∃ w',
    (∀ rest, run (batch ((animal, data) :: rest)) w = run (batch rest) w')
    ∧ dict_get animal (filtered_h5f w') = Some (stored_group data d)
    ∧ logfile w' = logfile w ++ missing_log data animal.

Definition skips_subject (batch : list (string * subject_data) → M unit)
    (animal : string) (data : subject_data) (w : world) : Prop :=
  ∃ w',
    (∀ rest, run (batch ((animal, data) :: rest)) w = run (batch rest) w')
    ∧ filtered_h5f w' = filtered_h5f w
    ∧ logfile w' = logfile w.

Section consumed_volume.
Context {signal coeffs : Type}.
Context (butter : nat → Q → bool → Q → result coeffs).
Context (filtfilt : coeffs → signal → result signal).
Context (of_trace : list Z → signal).
Context (envelope_mask : signal → list bool).
Context (numpy : numpy_release).

Local Abbreviation hilbert_detect :=
  (hilbert_detect signal coeffs butter filtfilt of_trace envelope_mask).
Local Abbreviation hilbert_algorithm :=
  (hilbert_algorithm signal coeffs butter filtfilt of_trace envelope_mask).

Lemma basic_algorithm_stores animal data d w :
  dict_get animal (filtered_h5f w) = None →
  basic_detect numpy (s_cap_data data) (s_time_data data) = Ok (Some d) →
  stores_subject (basic_algorithm numpy) animal data d w.
Proof.
  intros Hfresh Hdetect.
  set (w2 := mk_world (stdout w ++ [licks_message animal (num_licks d)])
               (logfile w) (filtered_h5f w)).
  destruct (save_filtered_data_stores data d animal w2 Hfresh)
    as (w' & Hsave & Hgroup & Hlog).
  exists w'. split_and!; [|done..].
  intros rest. unfold basic_algorithm.
  cbn -[save_filtered_data basic_detect]. rewrite Hdetect.
  cbn -[save_filtered_data]. fold w2. by rewrite Hsave.
Qed.

Lemma basic_algorithm_skips animal data w :
  basic_detect numpy (s_cap_data data) (s_time_data data) = Ok None →
  skips_subject (basic_algorithm numpy) animal data w.
Proof.
  intros Hdetect. exists w. split_and!; [|done..].
  intros rest. unfold basic_algorithm.
  cbn -[basic_detect]. by rewrite Hdetect.
Qed.

Lemma hilbert_algorithm_stores animal data d w :
  dict_get animal (filtered_h5f w) = None →
  hilbert_detect (s_fs data) (s_cap_data data) = Ok (Some d) →
  stores_subject hilbert_algorithm animal data d w.
Proof.
  intros Hfresh Hdetect.
  set (w2 := mk_world (stdout w ++ [licks_message animal (num_licks d)])
               (logfile w) (filtered_h5f w)).
  destruct (save_filtered_data_stores data d animal w2 Hfresh)
    as (w' & Hsave & Hgroup & Hlog).
  exists w'. split_and!; [|done..].
  intros rest. unfold Analysis.hilbert_algorithm.
  cbn -[save_filtered_data Analysis.hilbert_detect]. rewrite Hdetect.
  cbn -[save_filtered_data]. fold w2. by rewrite Hsave.
Qed.

Lemma hilbert_algorithm_skips animal data w :
  hilbert_detect (s_fs data) (s_cap_data data) = Ok None →
  skips_subject hilbert_algorithm animal data w.
Proof.
  intros Hdetect. eexists. split_and!.
  - intros rest. unfold Analysis.hilbert_algorithm.
    cbn -[Analysis.hilbert_detect]. rewrite Hdetect. cbn. reflexivity.
  - done.
  - done.
Qed.

(** C4, as amended.  For a sensor whose truncation succeeded: a group with
    the bare [stop_vol] field also has the bare [start_vol], and
    [consumed_vol = start_vol - stop_vol] is computed, whichever cycle the
    window used; without [stop_vol] nothing is computed, and the subject
    has a [consumed_vol] only if the raw group held one.  With an output
    file that has no group of the subject's name, a subject that the
    threshold scan or the envelope-based detection reports is stored with
    its [consumed_vol], or without the field and with a line in the log
    file when it has none, and a subject that the detection skips gets no
    group and no log line; in each case the batch goes on with the
    remaining subjects. *)
Theorem consumed_volume_from_bare_fields board_id sensor_id
    (sd : sensor_data) (data : subject_data) (animal : string)
    (w0 w1 w : world) :
  run (process_sensor board_id sensor_id sd) w0 = (Ok data, w1) →
  dict_get animal (filtered_h5f w) = None →
  (∀ stop_vol,
     dict_get "stop_vol" (fields sd) = Some stop_vol →
     ∃ start_vol,
       dict_get "start_vol" (fields sd) = Some start_vol
       ∧ dict_get "consumed_vol" (s_fields data)
         = Some (start_vol - stop_vol)%Q)
  ∧ (dict_get "stop_vol" (fields sd) = None →
     dict_get "consumed_vol" (s_fields data)
     = dict_get "consumed_vol" (fields sd))
  ∧ (∀ d,
       basic_detect numpy (s_cap_data data) (s_time_data data) = Ok (Some d) →
       stores_subject (basic_algorithm numpy) animal data d w)
  ∧ (basic_detect numpy (s_cap_data data) (s_time_data data) = Ok None →
     skips_subject (basic_algorithm numpy) animal data w)
  ∧ (∀ d,
       hilbert_detect (s_fs data) (s_cap_data data) = Ok (Some d) →
       stores_subject hilbert_algorithm animal data d w)
  ∧ (hilbert_detect (s_fs data) (s_cap_data data) = Ok None →
     skips_subject hilbert_algorithm animal data w).
Proof.
  intros Hproc Hfresh. apply process_sensor_fields in Hproc.
  split_and!.
  - intros stop_vol Hstop. rewrite Hstop in Hproc.
    destruct Hproc as (start_vol & Hstart & ->).
    exists start_vol. split; [done|]. apply dict_get_set_eq.
  - intros Hstop. rewrite Hstop in Hproc. by rewrite Hproc.
  - intros d. by apply basic_algorithm_stores.
  - apply basic_algorithm_skips.
  - intros d. by apply hilbert_algorithm_stores.
  - apply hilbert_algorithm_skips.
Qed.

End consumed_volume.

(** ** Order of the reported events *)

Lemma sublist_sorted {A : Type} (R : relation A) (l1 l2 : list A) :
  sublist l1 l2 → StronglySorted R l2 → StronglySorted R l1.
Proof.
  induction 1 as [|x l1 l2 Hsub IH|x l1 l2 Hsub IH]; intros Hs; [done|..].
  - apply StronglySorted_cons in Hs as [Hall Hs].
    apply StronglySorted_cons. split; [|by apply IH].
    rewrite Forall_forall in Hall |- *.
    intros y Hy. apply Hall. by eapply elem_of_sublist.
  - apply StronglySorted_cons in Hs as [_ Hs]. by apply IH.
Qed.

Lemma select_sublist {A : Type} (l : list A) (keep : list bool) :
  sublist (select l keep) l.
Proof.
  revert keep. induction l as [|x l IH]; intros [|b keep]; simpl;
    try apply sublist_nil_l.
  destruct b; [apply sublist_skip | apply sublist_cons]; apply IH.
Qed.

Lemma np_where_from_spec (i : nat) (mask : list bool) :
  StronglySorted lt (np_where_from i mask)
  ∧ Forall (fun j => i ≤ j < i + length mask) (np_where_from i mask).
Proof.
  revert i. induction mask as [|b mask IH]; intros i; simpl.
  - split; constructor.
  - destruct (IH (S i)) as [Hs Hall].
    assert (Hall' : Forall (fun j => i ≤ j < i + S (length mask))
                      (np_where_from (S i) mask)).
    { eapply Forall_impl; [done|]. simpl. lia. }
    destruct b; [|done]. split.
    + apply StronglySorted_cons. split; [|done].
      eapply Forall_impl; [exact Hall|]. simpl. lia.
    + constructor; [lia | done].
Qed.

Lemma mapM_sorted {A : Type} (f : A → result Z) (R : relation A)
    (l : list A) (k : list Z) :
  StronglySorted R l →
  (∀ p q bp bq, p ∈ l → q ∈ l → R p q → f p = Ok bp → f q = Ok bq →
     (bp < bq)%Z) →
  mapM f l = Ok k → StronglySorted Z.lt k.
Proof.
  intros Hs Hmono Hk. apply mapM_result_Forall2 in Hk.
  induction Hk as [|p b l k Hp Hk IH]; [constructor|].
  apply StronglySorted_cons in Hs as [Hall Hs].
  apply StronglySorted_cons. split.
  - apply Forall_forall. intros b' Hb'.
    apply list_elem_of_lookup_1 in Hb' as [i Hi].
    destruct (Forall2_lookup_r _ _ _ _ _ Hk Hi) as (q & Hq & Hfq).
    apply list_elem_of_lookup_2 in Hq as Hqin.
    rewrite Forall_forall in Hall.
    eapply (Hmono p q); [by left | by right | by apply Hall | done | done].
  - apply IH; [done|]. intros p' q' bp bq Hp' Hq'.
    apply Hmono; by right.
Qed.

(** *** The envelope-based detection *)

Lemma downs_sorted (trace : list Z) : StronglySorted Z.lt (downs trace).
Proof.
  unfold downs.
  apply (StronglySorted_fmap _ lt Z.lt); [intros x y; lia|].
  apply np_where_from_spec.
Qed.

Lemma foldl_dedup_step_sublist min_dist (candidates acc : list Z) :
  ∃ r, foldl (dedup_step min_dist) acc candidates = acc ++ r
       ∧ sublist r candidates.
Proof.
  revert acc. induction candidates as [|c cs IH]; intros acc; simpl.
  - exists []. by rewrite app_nil_r.
  - unfold dedup_step at 2.
    destruct (last acc) as [l|]; [destruct (min_dist <? c - l)%Z|].
    + destruct (IH (acc ++ [c])) as (r & -> & Hr).
      exists (c :: r). rewrite <- app_assoc. split; [done|]. by apply sublist_skip.
    + destruct (IH acc) as (r & -> & Hr).
      exists r. split; [done|]. by apply sublist_cons.
    + destruct (IH (acc ++ [c])) as (r & -> & Hr).
      exists (c :: r). rewrite <- app_assoc. split; [done|]. by apply sublist_skip.
Qed.

Lemma dedup_sublist min_dist (candidates : list Z) :
  sublist (dedup min_dist candidates) candidates.
Proof.
  destruct (foldl_dedup_step_sublist min_dist candidates []) as (r & Hr & Hsub).
  unfold dedup. by rewrite Hr.
Qed.

Section hilbert_order.
Context {signal coeffs : Type}.
Context (butter : nat → Q → bool → Q → result coeffs).
Context (filtfilt : coeffs → signal → result signal).
Context (of_trace : list Z → signal).
Context (envelope_mask : signal → list bool).

Lemma kept_candidates_sorted (fs : Q) (trace : list Z) (l : list Z) :
  kept_candidates signal coeffs butter filtfilt of_trace envelope_mask fs trace
    = Ok l →
  StronglySorted Z.lt l.
Proof.
  unfold kept_candidates, candidates_of. intros Hrun.
  destruct (filtered_data _ _ _ _ _ _ _) as [x|]; simpl in Hrun; [|done].
  destruct (mapM _ (downs trace)) as [keep|]; simpl in Hrun; [|done].
  inversion Hrun; subst l.
  eapply sublist_sorted; [apply dedup_sublist|].
  eapply sublist_sorted; [apply select_sublist|].
  apply downs_sorted.
Qed.

Lemma hilbert_detect_sorted (fs : option Q) (trace : list Z) (d : detection) :
  hilbert_detect signal coeffs butter filtfilt of_trace envelope_mask fs trace
    = Ok (Some d) →
  StronglySorted Z.lt (indices_list (lick_indices d)).
Proof.
  unfold hilbert_detect. intros Hrun. destruct fs as [fs|]; [|done].
  destruct (kept_candidates _ _ _ _ _ _ _ _) as [l|] eqn:Hkept;
    simpl in Hrun; [|done].
  apply kept_candidates_sorted in Hkept.
  case_decide; [done|].
  unfold continuity_filter in Hrun.
  destruct (mapM _ (enumerate l)) as [keep|]; simpl in Hrun; [|done].
  inversion Hrun; subst d. simpl.
  eapply sublist_sorted; [apply select_sublist | done].
Qed.

End hilbert_order.

(** *** The threshold scan *)

(** The runs of a threshold: [starts] and [ends] pair up into intervals
    [s .. e] inside [lo .. hi - 1], each after the one before. *)
Inductive runs_within : nat → nat → list nat → list nat → Prop :=
  | runs_nil lo hi : runs_within lo hi [] []
  | runs_cons lo hi s e starts ends :
      lo ≤ s → s ≤ e → e < hi →
      runs_within (S e) hi starts ends →
      runs_within lo hi (s :: starts) (e :: ends).

Lemma runs_within_weaken lo lo' hi starts ends :
  lo' ≤ lo → runs_within lo hi starts ends → runs_within lo' hi starts ends.
Proof.
  intros Hlo Hr. destruct Hr; constructor; try done. lia.
Qed.

Lemma runs_within_lookup lo hi starts ends p s e :
  runs_within lo hi starts ends →
  starts !! p = Some s → ends !! p = Some e → lo ≤ s ∧ s ≤ e ∧ e < hi.
Proof.
  intros Hr. revert p. induction Hr as [|lo hi s0 e0 starts ends ? ? ? Hr IH];
    intros p Hs He; [done|].
  destruct p as [|p]; simpl in *.
  - by simplify_eq.
  - destruct (IH p Hs He) as (? & ? & ?). lia.
Qed.

Lemma runs_within_order lo hi starts ends p q e s :
  runs_within lo hi starts ends → p < q →
  ends !! p = Some e → starts !! q = Some s → e < s.
Proof.
  intros Hr. revert p q.
  induction Hr as [|lo hi s0 e0 starts ends ? ? ? Hr IH];
    intros p q Hpq He Hs; [done|].
  destruct q as [|q]; [lia|]. simpl in Hs.
  destruct p as [|p]; simpl in He.
  - simplify_eq.
    assert (is_Some (ends !! q)) as [e' He'].
    { clear -Hr Hs. revert q Hs. induction Hr; intros q Hs; [done|].
      destruct q; simpl in *; eauto. }
    destruct (runs_within_lookup _ _ _ _ _ _ _ Hr Hs He') as (? & _). lia.
  - apply (IH p q); [lia | done | done].
Qed.

Lemma runs_within_length lo hi starts ends :
  runs_within lo hi starts ends → length starts = length ends.
Proof. induction 1; simpl; congruence. Qed.

(** The index arrays of [peak_bounds], read off the mask [below] from its
    position [j] on. *)
Fixpoint starts_from (j : nat) (below : list bool) : list nat :=
  match below with
  | x :: (y :: _) as rest =>
      (if negb x && y then [S j] else []) ++ starts_from (S j) rest
  | _ => []
  end.

Fixpoint ends_from (j : nat) (below : list bool) : list nat :=
  match below with
  | [] => []
  | [x] => if x then [j] else []
  | x :: (y :: _) as rest =>
      (if x && negb y then [j] else []) ++ ends_from (S j) rest
  end.

Lemma starts_from_cons (j : nat) (x y : bool) (below : list bool) :
  starts_from j (x :: y :: below)
  = (if negb x && y then [S j] else []) ++ starts_from (S j) (y :: below).
Proof. done. Qed.

Lemma ends_from_cons (j : nat) (x y : bool) (below : list bool) :
  ends_from j (x :: y :: below)
  = (if x && negb y then [j] else []) ++ ends_from (S j) (y :: below).
Proof. done. Qed.

Lemma np_diff_cons (x y : Z) (a : list Z) :
  np_diff (x :: y :: a) = (y - x)%Z :: np_diff (y :: a).
Proof. unfold np_diff. simpl. by rewrite Nat.sub_0_r. Qed.

Lemma starts_from_np (j : nat) (below : list bool) :
  S <$> np_where_from j ((fun y => (y =? 1)%Z) <$> np_diff (Z.b2z <$> below))
  = starts_from j below.
Proof.
  revert j. induction below as [|x [|y below] IH]; intros j; [done..|].
  rewrite starts_from_cons, <- (IH (S j)).
  change (Z.b2z <$> x :: y :: below)
    with (Z.b2z x :: Z.b2z y :: (Z.b2z <$> below)).
  change (Z.b2z <$> y :: below) with (Z.b2z y :: (Z.b2z <$> below)).
  rewrite np_diff_cons.
  generalize (np_diff (Z.b2z y :: (Z.b2z <$> below))). intros diffs.
  destruct x, y; reflexivity.
Qed.

Lemma ends_from_np (j : nat) (x : bool) (below : list bool) :
  np_where_from j
    ((fun y => (y =? -1)%Z) <$> np_diff (Z.b2z <$> x :: below))
  ++ (if List.last below x then [j + length below] else [])
  = ends_from j (x :: below).
Proof.
  revert j x. induction below as [|y below IH]; intros j x.
  - simpl. rewrite Nat.add_0_r. done.
  - assert (Hlast : List.last (y :: below) x = List.last below y).
    { destruct below as [|z below]; [done|].
      change (List.last (z :: below) x = List.last (z :: below) y).
      apply last_cons_default. }
    rewrite Hlast, ends_from_cons, <- (IH (S j) y).
    replace (j + length (y :: below)) with (S j + length below) by (simpl; lia).
    change (Z.b2z <$> x :: y :: below)
      with (Z.b2z x :: Z.b2z y :: (Z.b2z <$> below)).
    change (Z.b2z <$> y :: below) with (Z.b2z y :: (Z.b2z <$> below)).
    rewrite np_diff_cons.
    generalize (np_diff (Z.b2z y :: (Z.b2z <$> below))). intros diffs.
    generalize (if List.last below y then [S j + length below] else []).
    intros tl.
    destruct x, y; reflexivity.
Qed.

Lemma runs_from (j : nat) (x : bool) (below : list bool) :
  let hi := j + S (length below) in
  if x then
    ∃ e ends, ends_from j (x :: below) = e :: ends ∧ j ≤ e ∧ e < hi
      ∧ runs_within (S e) hi (starts_from j (x :: below)) ends
  else
    runs_within (S j) hi (starts_from j (x :: below))
      (ends_from j (x :: below)).
Proof.
  revert j x. induction below as [|y below IH]; intros j x hi.
  - destruct x; simpl.
    + exists j, []. unfold hi. simpl. split_and!; [done | lia | lia | constructor].
    + constructor.
  - specialize (IH (S j) y). cbv zeta in IH.
    replace (S j + S (length below)) with hi in IH by (unfold hi; simpl; lia).
    rewrite starts_from_cons, ends_from_cons.
    destruct x, y; cbn [negb andb app].
    + destruct IH as (e & ends & -> & ? & ? & Hr).
      exists e, ends. split_and!; [done | lia | done | done].
    + exists j, (ends_from (S j) (false :: below)).
      split_and!; [done | lia | unfold hi; lia |].
      eapply runs_within_weaken; [|exact IH]. lia.
    + destruct IH as (e & ends & -> & ? & ? & Hr).
      constructor; [lia | done | done | done].
    + eapply runs_within_weaken; [|exact IH]. lia.
Qed.

Lemma peak_bounds_runs (trace : list Z) (thr : Q) (starts ends : list nat) :
  peak_bounds trace thr = Ok (starts, ends) →
  runs_within 0 (length trace) starts ends.
Proof.
  unfold peak_bounds, np_where_eq, np_where. intros Hrun.
  destruct trace as [|c trace]; [done|].
  set (x := Qltb (inject_Z c) thr) in *.
  set (below := (fun x => Qltb (inject_Z x) thr) <$> trace) in *.
  change ((fun x => Qltb (inject_Z x) thr) <$> c :: trace)
    with (x :: below) in Hrun.
  rewrite starts_from_np in Hrun.
  change (np_index (x :: below) 0) with (Ok x : result bool) in Hrun.
  assert (Hlast : np_index (x :: below) (-1) = Ok (List.last below x)).
  { unfold np_index. simpl length.
    replace (-1 <? 0)%Z with true by done.
    replace ((0 <=? -1 + Z.of_nat (S (length below))) &&
             (-1 + Z.of_nat (S (length below)) <? Z.of_nat (S (length below))))%Z
      with true by (symmetry; apply andb_true_iff; split;
                    [apply Z.leb_le | apply Z.ltb_lt]; lia).
    replace (Z.to_nat (-1 + Z.of_nat (S (length below)))) with (length below)
      by lia.
    by rewrite lookup_last. }
  rewrite Hlast in Hrun. simpl in Hrun.
  assert (Hlen : length trace = length below) by (unfold below; by rewrite length_fmap).
  replace (length trace - 0) with (0 + length below) in Hrun by lia.
  pose proof (ends_from_np 0 x below) as Hends.
  assert (Hends' :
    (if List.last below x
     then np_where_from 0
            ((fun y => (y =? -1)%Z) <$> np_diff (Z.b2z <$> x :: below))
          ++ [0 + length below]
     else np_where_from 0
            ((fun y => (y =? -1)%Z) <$> np_diff (Z.b2z <$> x :: below)))
    = ends_from 0 (x :: below)).
  { rewrite <- Hends. destruct (List.last below x); [done|].
    by rewrite app_nil_r. }
  injection Hrun as <- <-.
  change (runs_within 0 (length (c :: trace))
            (if x then 0 :: starts_from 0 (x :: below)
             else starts_from 0 (x :: below))
            (if List.last below x
             then np_where_from 0
                    ((fun y => (y =? -1)%Z) <$> np_diff (Z.b2z <$> x :: below))
                  ++ [0 + length below]
             else np_where_from 0
                    ((fun y => (y =? -1)%Z) <$> np_diff (Z.b2z <$> x :: below)))).
  rewrite Hends'.
  pose proof (runs_from 0 x below) as Hruns. cbv zeta in Hruns.
  simpl length. rewrite Hlen.
  destruct x.
  - destruct Hruns as (e & ends & -> & ? & ? & Hr).
    constructor; [lia | lia | done | done].
  - eapply runs_within_weaken; [|exact Hruns]. lia.
Qed.

Lemma argmin_go_bound {A : Type} (ltb : A → A → bool) best best_i i (l : list A) :
  best_i < i → argmin_go ltb best best_i i l < i + length l.
Proof.
  revert best best_i i. induction l as [|x l IH]; intros best best_i i Hb; simpl.
  - lia.
  - destruct (ltb x best).
    + specialize (IH x i (S i)). lia.
    + specialize (IH best best_i (S i)). lia.
Qed.

Lemma argmin_bound {A : Type} (ltb : A → A → bool) (l : list A) r :
  argmin ltb l = Ok r → r < length l.
Proof.
  destruct l as [|x l]; simpl; [done|]. intros [= <-].
  pose proof (argmin_go_bound ltb x 0 1 l). lia.
Qed.

Lemma deep_peaks_sublist trace starts ends depth_thr good good' :
  deep_peaks trace starts ends depth_thr good = Ok good' → sublist good' good.
Proof.
  revert good'. induction good as [|p good IH]; intros good' Hrun;
    simpl in Hrun.
  - inversion Hrun. constructor.
  - destruct (peak_trace trace starts ends p) as [[ps tr]|]; simpl in Hrun; [|done].
    destruct (deep_peaks trace starts ends depth_thr good) as [rest|];
      simpl in Hrun; [|done].
    case_decide; inversion Hrun; subst.
    + apply sublist_cons. by apply IH.
    + apply sublist_skip. by apply IH.
Qed.

(** The event of a peak lies inside its run. *)
Lemma peak_event_in_run (trace : list Z) (starts ends : list nat) p b :
  runs_within 0 (length trace) starts ends →
  ('(ps_, tr) ← peak_trace trace starts ends p;
   match tr with
   | [] => Ok (-1)%Z
   | _ => peak_rel_min ← argmin Z.ltb tr; Ok (Z.of_nat (ps_ + peak_rel_min))
   end) = Ok b →
  ∃ s e, starts !! p = Some s ∧ ends !! p = Some e
    ∧ (Z.of_nat s ≤ b ≤ Z.of_nat e)%Z.
Proof.
  intros Hr. unfold peak_trace, index.
  destruct (starts !! p) as [s|] eqn:Hs; simpl; [|done].
  destruct (ends !! p) as [e|] eqn:He; simpl; [|done].
  destruct (runs_within_lookup _ _ _ _ _ _ _ Hr Hs He) as (_ & Hse & Hhi).
  assert (Hlen : length (slice s (e + 1) trace) = e + 1 - s).
  { unfold slice. rewrite length_take, length_drop. lia. }
  destruct (slice s (e + 1) trace) as [|c tr] eqn:Hslice;
    [simpl in Hlen; lia|].
  destruct (argmin Z.ltb (c :: tr)) as [r|] eqn:Hr'; simpl; [|done].
  apply argmin_bound in Hr'. intros [= <-].
  exists s, e. split_and!; [done | done | lia | lia].
Qed.

Lemma threshold_peaks_sorted trace times thresholds i_thr bins :
  threshold_peaks trace times thresholds i_thr = Ok bins →
  StronglySorted Z.lt bins.
Proof.
  unfold threshold_peaks. intros Hrun.
  destruct (index thresholds i_thr) as [thr|]; simpl in Hrun; [|done].
  destruct (peak_bounds trace thr) as [[starts ends]|] eqn:Hbounds;
    simpl in Hrun; [|done].
  apply peak_bounds_runs in Hbounds as Hruns.
  case_decide; [inversion Hrun; constructor|].
  pose proof (runs_within_length _ _ _ _ Hruns) as Hlen.
  rewrite <- Hlen, Nat.min_id, firstn_all in Hrun.
  rewrite Hlen, firstn_all in Hrun.
  destruct (mapM (index times) ends) as [t_ends|]; simpl in Hrun; [|done].
  destruct (mapM (index times) starts) as [t_starts|]; simpl in Hrun; [|done].
  case_decide; [inversion Hrun; constructor|].
  destruct (index thresholds (i_thr - 2)) as [depth_thr|]; simpl in Hrun; [|done].
  destruct (deep_peaks trace starts ends depth_thr _) as [good|] eqn:Hdeep;
    simpl in Hrun; [|done].
  case_decide; [inversion Hrun; constructor|].
  apply deep_peaks_sublist in Hdeep.
  eapply (mapM_sorted _ lt); [|  |exact Hrun].
  - eapply sublist_sorted; [exact Hdeep|]. apply np_where_from_spec.
  - intros p q bp bq _ _ Hpq Hp Hq.
    apply (peak_event_in_run trace starts ends p bp Hruns) in Hp
      as (s & e & Hs & He & Hbp).
    apply (peak_event_in_run trace starts ends q bq Hruns) in Hq
      as (s' & e' & Hs' & He' & Hbq).
    pose proof (runs_within_order _ _ _ _ p q e s' Hruns Hpq He Hs'). lia.
Qed.

Lemma scan_thresholds_sorted trace times thresholds n_peaks peak_bins :
  scan_thresholds trace times thresholds = Ok (n_peaks, peak_bins) →
  Forall (fun bins => ∀ b, bins = Some b → StronglySorted Z.lt b) peak_bins.
Proof.
  unfold scan_thresholds. intros Hrun.
  apply (forM__preserves
           (fun s : list (option nat) * list (option (list Z)) =>
              Forall (fun bins => ∀ b, bins = Some b → StronglySorted Z.lt b) s.2))
    in Hrun; [done| |].
  - intros i [n pb] [n' pb'] _ Hinv Hbody. simpl in *.
    destruct (threshold_peaks trace times thresholds i) as [bins|] eqn:Hbins;
      simpl in Hbody; [|done].
    inversion Hbody; subst. apply Forall_insert; [done|].
    intros b [= <-]. by eapply threshold_peaks_sorted.
  - simpl. apply Forall_replicate. done.
Qed.

Lemma basic_detect_sorted (numpy : numpy_release) (trace : list Z)
    (times : list Q) (d : detection) :
  basic_detect numpy trace times = Ok (Some d) →
  StronglySorted Z.lt (indices_list (lick_indices d)).
Proof.
  unfold basic_detect. intros Hrun. case_decide; [|done].
  destruct (scan_thresholds _ _ _) as [[n_peaks peak_bins]|] eqn:Hscan;
    simpl in Hrun; [|done].
  apply scan_thresholds_sorted in Hscan.
  destruct (forallb _ n_peaks); [done|].
  destruct (first_index_of _ _) as [i_thr|]; simpl in Hrun; [|done].
  unfold index in Hrun at 1.
  destruct (peak_bins !! i_thr) as [pb|] eqn:Hpb; simpl in Hrun; [|done].
  pose proof (Forall_lookup_1 _ _ _ _ Hscan Hpb) as Hsorted.
  destruct pb as [[|i [|i' pb]]|]; [| | |done].
  - destruct (mapM _ _); simpl in Hrun; [|done].
    inversion Hrun; subst d. simpl. constructor.
  - destruct (int_of_array numpy i) as [pb_|]; simpl in Hrun; [|done].
    destruct (np_index times pb_); simpl in Hrun; [|done].
    inversion Hrun; subst d. simpl. repeat constructor.
  - destruct (mapM _ _); simpl in Hrun; [|done].
    inversion Hrun; subst d. simpl. by apply Hsorted.
Qed.

(** C9. The lick indices that either detection algorithm produces for a
    subject form a strictly increasing sequence of sample indices: the
    events are ordered in time and no two of them coincide.  The threshold
    scan reports one sample inside each surviving run, and the runs are
    disjoint and in order; the envelope-based algorithm reports a
    subsequence of the positions of the drops. *)
Theorem lick_indices_strictly_increasing :
  (∀ (numpy : numpy_release) (trace : list Z) (times : list Q)
     (d : detection),
     basic_detect numpy trace times = Ok (Some d) →
     StronglySorted Z.lt (indices_list (lick_indices d)))
  ∧ (∀ (signal coeffs : Type)
       (butter : nat → Q → bool → Q → result coeffs)
       (filtfilt : coeffs → signal → result signal)
       (of_trace : list Z → signal) (envelope_mask : signal → list bool)
       (fs : option Q) (trace : list Z) (d : detection),
       hilbert_detect signal coeffs butter filtfilt of_trace envelope_mask
         fs trace = Ok (Some d) →
       StronglySorted Z.lt (indices_list (lick_indices d))).
Proof.
  split.
  - apply basic_detect_sorted.
  - intros. by eapply hilbert_detect_sorted.
Qed.

(** ** Worked examples of the analysis *)

(** The window of [two_cycle_sensor] is that of its second cycle. *)
Lemma window_resolution_witness :
  run (resolve_window "board_FT232H0" "sensor_1" two_cycle_sensor) empty_world
  = (Ok ((3 # 100)%Q, (16 # 100)%Q), empty_world).
Proof.
  destruct (window_resolution "board_FT232H0" "sensor_1" two_cycle_sensor
              (List.hd 0%Q example_times) (List.tl example_times)
              empty_world eq_refl) as [Hsome _].
  assert (Hsecond : start_field two_cycle_sensor "start_time1" 1).
  { split; [simpl; rewrite !elem_of_cons; tauto|].
    apply (cycle_field "start_time" "1" 1 "").
    - apply numeral_digit. unfold digit_values. rewrite !elem_of_cons. tauto.
    - by left. }
  destruct Hsome as (k & n & suffix & start_time & [Hk Hn] & Hmax & Hname
                     & Hget & Hrun); [by eexists _, _|].
  specialize (Hmax "start_time1" 1%Z Hsecond).
  apply match_start_time_spec in Hn.
  assert (Hk1 : k = "start_time1").
  { simpl in Hk.
    repeat (apply elem_of_cons in Hk as [->|Hk];
            [by (vm_compute in Hn; first [discriminate Hn
                                         | injection Hn as <-; lia
                                         | reflexivity])|]).
    by apply elem_of_nil in Hk. }
  rewrite Hk1 in Hname, Hget.
  change "start_time1" with ("start_time" +:+ "1") in Hname.
  apply (inj (String.append "start_time")) in Hname. subst suffix.
  vm_compute in Hget. injection Hget as <-. exact Hrun.
Defined.

(** C3 as stated: the window of every sensor group is resolved, whatever
    the group holds. *)
Definition window_always_resolved : Prop :=
  ∀ board_id sensor_id sd w,
    ∃ window w',
      run (resolve_window board_id sensor_id sd) w = (Ok window, w').

(** The sensor groups of a session that ended before the first flush,
    without a start time and with one: they hold no array. *)
Definition unrecorded_sensor : sensor_data := mk_sensor_data None None [].
Definition started_sensor : sensor_data :=
  mk_sensor_data None None [("start_time", 5%Q)].

(** Without a recorded trace neither fallback has a timestamp to take:
    the whole-trace fallback raises [KeyError] after the warning, and so
    does the substitution for a missing stop time. *)
Lemma window_of_unrecorded_sensor :
  ¬ window_always_resolved
  ∧ run (resolve_window "board_FT232H0" "sensor_1" unrecorded_sensor)
      empty_world
    = (Raise (KeyError "time_data"),
       mk_world [no_start_warning "board_FT232H0" "sensor_1"] [] [])
  ∧ run (resolve_window "board_FT232H0" "sensor_1" started_sensor)
      empty_world
    = (Raise (KeyError "time_data"), empty_world).
Proof.
  split_and!; [|reflexivity..].
  intros Hclaim.
  destruct (Hclaim "board_FT232H0" "sensor_1" unrecorded_sensor empty_world)
    as (window & w' & Hrun).
  discriminate Hrun.
Qed.

(** An envelope-based detection with filters that leave the signal as it
    is and an envelope that is everywhere above the threshold. *)
Definition plain_butter (order : nat) (cutoff : Q) (high : bool) (fs : Q)
  : result unit := Ok ().
Definition plain_filtfilt (c : unit) (x : list Z) : result (list Z) := Ok x.
Definition plain_mask (x : list Z) : list bool := (fun _ => true) <$> x.
Definition toothed_trace : list Z := [100; 50; 100; 50; 100; 50; 100]%Z.

(** The events of [two_cycle_sensor] are stored with the volume consumed
    in its first cycle; the sensor has no weight, which is logged. *)
Lemma consumed_volume_from_bare_fields_witness :
  ∃ (data : subject_data) (w' : world) (g : out_group),
    run (process_sensor "board_FT232H0" "sensor_1" two_cycle_sensor)
      empty_world = (Ok data, empty_world)
    ∧ run (basic_algorithm numpy_from_2_4 [("mouse", data)]) empty_world
      = (Ok (), w')
    ∧ dict_get "mouse" (filtered_h5f w') = Some g
    ∧ o_consumed_vol g = Some (10 - 2)%Q
    ∧ logfile w' = [weight_log "weight" "mouse"].
Proof.
  destruct (run (process_sensor "board_FT232H0" "sensor_1" two_cycle_sensor)
              empty_world) as [[data|e] w1] eqn:Hrun; [|by vm_compute in Hrun].
  destruct (consumed_volume_from_bare_fields plain_butter plain_filtfilt id
              plain_mask numpy_from_2_4 "board_FT232H0" "sensor_1"
              two_cycle_sensor data "mouse" empty_world w1 empty_world
              Hrun eq_refl)
    as (Hvol & _ & Hstores & _).
  destruct (Hvol 2%Q eq_refl) as (start_vol & Hstart & Hconsumed).
  vm_compute in Hstart. injection Hstart as <-.
  destruct (basic_detect numpy_from_2_4 (s_cap_data data) (s_time_data data))
    as [[d|]|e] eqn:Hdetect.
  - destruct (Hstores d eq_refl) as (w' & Hbatch & Hg & Hlog).
    vm_compute in Hrun. injection Hrun as <- <-.
    eexists _, w', _. split_and!.
    + reflexivity.
    + exact (Hbatch []).
    + exact Hg.
    + exact Hconsumed.
    + exact Hlog.
  - vm_compute in Hrun. injection Hrun as <- <-. by vm_compute in Hdetect.
  - vm_compute in Hrun. injection Hrun as <- <-. by vm_compute in Hdetect.
Defined.

Lemma lick_indices_strictly_increasing_witness :
  (∃ d, basic_detect numpy_from_2_4 example_trace example_times = Ok (Some d)
        ∧ indices_list (lick_indices d) = [5; 14]%Z
        ∧ StronglySorted Z.lt (indices_list (lick_indices d)))
  ∧ (∃ d, hilbert_detect (list Z) unit plain_butter plain_filtfilt id
            plain_mask (Some 10%Q) toothed_trace = Ok (Some d)
          ∧ indices_list (lick_indices d) = [1; 3; 5]%Z
          ∧ StronglySorted Z.lt (indices_list (lick_indices d))).
Proof.
  destruct lick_indices_strictly_increasing as [Hbasic Hhilbert]. split.
  - destruct (basic_detect numpy_from_2_4 example_trace example_times)
      as [[d|]|e] eqn:Hd; [|by vm_compute in Hd..].
    exists d. split_and!; [done | | by eapply Hbasic].
    vm_compute in Hd. by injection Hd as <-.
  - destruct (hilbert_detect (list Z) unit plain_butter plain_filtfilt id
                plain_mask (Some 10%Q) toothed_trace) as [[d|]|e] eqn:Hd;
      [|by vm_compute in Hd..].
    exists d. split_and!; [done | | by eapply Hhilbert].
    vm_compute in Hd. by injection Hd as <-.
Defined.

(** ** A concrete session

    One board, integer samples; the reader delivers the timestamp
    [1000 * i + k] and the count [i + k] on channel [k] at iteration [i],
    and the control surface calls [stop()] at the yield of iteration
    [stop_at]. *)
Definition example_reader (i : nat) (sn : string) : result (list Z * list Z) :=
  Ok ((fun k => Z.of_nat (1000 * i + k)) <$> seq 0 6,
      (fun k => Z.of_nat (i + k)) <$> seq 0 6).

Definition example_tasks (stop_at : nat) (i : nat) : list (@Recorder.call Z) :=
  if decide (i = stop_at) then [Recorder.CallStop] else [].

Definition state_of (r : result (@Recorder.SensorRecorder Z))
  : @Recorder.SensorRecorder Z :=
  match r with Ok st => st | Raise _ => Recorder.init [] end.

(** Leaving the loop: the iterations of [loop_steps], one more, and the
    test of the flag. *)
Lemma record_sensors_steps {num : Type} (fill : num) (positive : num → bool)
    (other_tasks : nat → list Recorder.call)
    (sensor_reader : nat → string → result (list num * list num))
    ctrls k fuel (st0 st st' : Recorder.SensorRecorder) :
  Recorder.start (Recorder.init ctrls) = Ok st0 →
  loop_steps fill positive other_tasks sensor_reader k st0 = Ok st →
  Recorder.recording st = true →
  Recorder.iteration fill positive other_tasks sensor_reader st = Ok st' →
  Recorder.recording st' = false →
  Recorder.record_sensors fill positive other_tasks sensor_reader
    (k + S (S fuel)) (Recorder.init ctrls) = Ok (Some st').
Proof.
  intros Hstart Hsteps Hrec Hiter Hrec'.
  unfold Recorder.record_sensors. rewrite Hstart. simpl.
  clear Hstart. revert st0 Hsteps.
  induction k as [|k IH]; intros st0 Hsteps; simpl in Hsteps.
  - injection Hsteps as ->.
    change (0 + S (S fuel)) with (S (S fuel)).
    cbn [Recorder.while_recording]. rewrite Hrec, Hiter. simpl.
    by rewrite Hrec'.
  - destruct (Recorder.recording st0) eqn:Hrec0; [|done].
    destruct (Recorder.iteration _ _ _ _ st0) as [st1|] eqn:Hiter0;
      simpl in Hsteps; [|done].
    change (S k + S (S fuel)) with (S (k + S (S fuel))).
    cbn [Recorder.while_recording]. rewrite Hrec0, Hiter0. simpl.
    by apply IH.
Qed.

(** The state in which the loop is entered. *)
Definition opened : @Recorder.SensorRecorder Z :=
  Eval vm_compute in state_of (Recorder.start (Recorder.init ["FT232H0"])).

Lemma opened_run : Recorder.start (Recorder.init ["FT232H0"]) = Ok opened.
Proof. vm_compute. reflexivity. Qed.

Lemma example_head stop_at k st :
  loop_steps 0%Z (Z.ltb 0) (example_tasks stop_at) example_reader k opened
    = Ok st →
  Recorder.at_loop_head 0%Z (Z.ltb 0) (example_tasks stop_at) example_reader
    ["FT232H0"] st.
Proof.
  intros Hrun. eapply loop_steps_head; [|exact Hrun].
  apply Recorder.head_start. exact opened_run.
Qed.

(** A session that is stopped at the yield of iteration 3. *)
Definition before_stop : @Recorder.SensorRecorder Z :=
  Eval vm_compute in
    state_of (loop_steps 0%Z (Z.ltb 0) (example_tasks 3) example_reader 3
                opened).
Definition after_stop : @Recorder.SensorRecorder Z :=
  Eval vm_compute in
    state_of (Recorder.iteration 0%Z (Z.ltb 0) (example_tasks 3) example_reader
                before_stop).

Lemma before_stop_run :
  loop_steps 0%Z (Z.ltb 0) (example_tasks 3) example_reader 3 opened
  = Ok before_stop.
Proof. vm_compute. reflexivity. Qed.

Lemma after_stop_run :
  Recorder.iteration 0%Z (Z.ltb 0) (example_tasks 3) example_reader before_stop
  = Ok after_stop.
Proof. vm_compute. reflexivity. Qed.

(** A session that is stopped at the yield of iteration 100, the one of
    the first flush. *)
Definition before_flush : @Recorder.SensorRecorder Z :=
  Eval vm_compute in
    state_of (loop_steps 0%Z (Z.ltb 0) (example_tasks 100) example_reader 100
                opened).
Definition after_flush : @Recorder.SensorRecorder Z :=
  Eval vm_compute in
    state_of (Recorder.iteration 0%Z (Z.ltb 0) (example_tasks 100)
                example_reader before_flush).

Lemma before_flush_run :
  loop_steps 0%Z (Z.ltb 0) (example_tasks 100) example_reader 100 opened
  = Ok before_flush.
Proof. vm_compute. reflexivity. Qed.

Lemma after_flush_run :
  Recorder.iteration 0%Z (Z.ltb 0) (example_tasks 100) example_reader
    before_flush
  = Ok after_flush.
Proof. vm_compute. reflexivity. Qed.

Lemma before_flush_recording : Recorder.recording before_flush = true.
Proof. reflexivity. Qed.

Lemma after_flush_recording : Recorder.recording after_flush = false.
Proof. reflexivity. Qed.

Lemma before_stop_recording : Recorder.recording before_stop = true.
Proof. reflexivity. Qed.

Lemma after_stop_recording : Recorder.recording after_stop = false.
Proof. reflexivity. Qed.

Lemma session_run (fuel : nat) :
  Recorder.record_sensors 0%Z (Z.ltb 0) (example_tasks 100) example_reader
    (100 + S (S fuel)) (Recorder.init ["FT232H0"])
  = Ok (Some after_flush).
Proof.
  exact (record_sensors_steps 0%Z (Z.ltb 0) (example_tasks 100) example_reader
           ["FT232H0"] 100 fuel opened before_flush after_flush
           opened_run before_flush_run before_flush_recording after_flush_run
           after_flush_recording).
Qed.

Lemma stopped_session_run (fuel : nat) :
  Recorder.record_sensors 0%Z (Z.ltb 0) (example_tasks 3) example_reader
    (3 + S (S fuel)) (Recorder.init ["FT232H0"])
  = Ok (Some after_stop).
Proof.
  exact (record_sensors_steps 0%Z (Z.ltb 0) (example_tasks 3) example_reader
           ["FT232H0"] 3 fuel opened before_stop after_stop
           opened_run before_stop_run before_stop_recording after_stop_run
           after_stop_recording).
Qed.

(** A session of four completed iterations ends with no sample on disk,
    and a session of 101 completed iterations with 100 samples, the first
    of which is that of the second iteration: the number of samples on
    disk is not the number of completed iterations. *)
Lemma session_loses_samples :
  (Recorder.record_sensors 0%Z (Z.ltb 0) (example_tasks 3) example_reader 5
     (Recorder.init ["FT232H0"]) = Ok (Some after_stop)
   ∧ Recorder.loop_counter after_stop = 4
   ∧ on_disk after_stop "FT232H0" 1 "time_data" = []
   ∧ on_disk after_stop "FT232H0" 1 "cap_data" = []
   ∧ length (on_disk after_stop "FT232H0" 1 "time_data")
     ≠ Recorder.loop_counter after_stop)
  ∧ (Recorder.record_sensors 0%Z (Z.ltb 0) (example_tasks 100) example_reader
       102 (Recorder.init ["FT232H0"]) = Ok (Some after_flush)
     ∧ Recorder.loop_counter after_flush = 101
     ∧ length (on_disk after_flush "FT232H0" 1 "time_data") = 100
     ∧ on_disk after_flush "FT232H0" 1 "time_data" !! 0 = Some 1000%Z
     ∧ length (on_disk after_flush "FT232H0" 1 "time_data")
       ≠ Recorder.loop_counter after_flush).
Proof.
  split.
  - split; [exact (stopped_session_run 0)|]. by vm_compute.
  - split; [exact (session_run 0)|]. by vm_compute.
Qed.

Lemma session_samples_on_disk_witness :
  ∃ first count,
    on_disk after_flush "FT232H0" 1 "time_data"
      = time_sample 0%Z example_reader "FT232H0" 0 <$> seq first count
    ∧ on_disk after_flush "FT232H0" 1 "cap_data"
      = cap_sample 0%Z example_reader "FT232H0" 0 <$> seq first count
    ∧ count `mod` HISTORY_SIZE = 0
    ∧ first + count ≤ Recorder.loop_counter after_flush
      ≤ count + HISTORY_SIZE.
Proof.
  apply (session_samples_on_disk 0%Z (Z.ltb 0) (example_tasks 100)
           example_reader ["FT232H0"] 102 after_flush "FT232H0" 0 1).
  - exact (session_run 0).
  - by left.
  - reflexivity.
Defined.

Lemma flush_invariant_witness :
  length (on_disk after_flush "FT232H0" 1 "time_data") = 100
  ∧ length (on_disk after_flush "FT232H0" 1 "cap_data") = 100.
Proof.
  destruct (flush_invariant 0%Z (Z.ltb 0) (example_tasks 100) example_reader
              ["FT232H0"] before_flush after_flush "FT232H0" 0 1)
    as (Htime & Hcap & _).
  - exact (example_head 100 100 before_flush before_flush_run).
  - exact after_flush_run.
  - left. exact eq_refl.
  - by left.
  - reflexivity.
  - split; [exact Htime | exact Hcap].
Defined.

Lemma stop_leaves_unflushed_samples_witness :
  (∀ fuel,
     Recorder.while_recording 0%Z (Z.ltb 0) (example_tasks 3) example_reader
       (S fuel) after_stop = Ok (Some after_stop))
  ∧ Recorder.loop_counter after_stop = 4.
Proof.
  destruct (stop_leaves_unflushed_samples 0%Z (Z.ltb 0) (example_tasks 3)
              example_reader ["FT232H0"] before_stop after_stop "FT232H0" 0 1)
    as (Hleft & Hcounter & _).
  - exact (example_head 3 3 before_stop before_stop_run).
  - reflexivity.
  - by left.
  - exact after_stop_run.
  - by left.
  - reflexivity.
  - split; [exact Hleft | exact Hcounter].
Defined.

(** The metadata of sensor 1, written at the stop of the first cycle. *)
Definition with_metadata : @Recorder.SensorRecorder Z :=
  Eval vm_compute in
    state_of (Recorder.write_sensor_metadata (Z.ltb 0) opened 1
                (Some 1000%Z) (Some 2000%Z) (Some 10%Z) (Some 4%Z) (Some 25%Z)
                0).

Lemma write_sensor_metadata_idempotent_witness :
  ∃ st2,
    Recorder.write_sensor_metadata (Z.ltb 0) with_metadata 1
      (Some 1000%Z) (Some 2000%Z) (Some 9%Z) None (Some 26%Z) 0 = Ok st2
    ∧ ∀ sn sensor time c, time ∈ ["start_time"; "stop_time"] →
        stored st2 sn sensor (Recorder.cycle_name time c)
        = stored with_metadata sn sensor (Recorder.cycle_name time c).
Proof.
  apply (write_sensor_metadata_idempotent (Z.ltb 0) opened with_metadata 1
           (Some 1000%Z) (Some 2000%Z) (Some 10%Z) (Some 4%Z) (Some 25%Z)
           (Some 9%Z) None (Some 26%Z) 0).
  vm_compute. reflexivity.
Defined.

(** * Further properties of the recorder *)

(** ** Loops that cannot fail *)

Lemma mapM_succeeds {A B : Type} (f : A → result B) (l : list A) :
  (∀ a, a ∈ l → ∃ b, f a = Ok b) → ∃ k, mapM f l = Ok k.
Proof.
  induction l as [|a l IH]; intros Hf; simpl; [by eexists|].
  destruct (Hf a) as [b Hb]; [by left|]. rewrite Hb. simpl.
  destruct IH as [k Hk]; [intros a' Ha'; apply Hf; by right|].
  rewrite Hk. simpl. by eexists.
Qed.

(** A loop whose body rewrites one entry of a keyed store and needs
    nothing but a condition on that entry succeeds on distinct keys. *)
Section succeeds.
Context {A K S V : Type}.
Variable key : A → K.
Variable view : S → K → option V.
Variable body : A → S → result S.
Variable P : A → V → Prop.

Lemma forM__succeeds (l : list A) (s : S) :
  (∀ a s1 v, a ∈ l → view s1 (key a) = Some v → P a v →
     ∃ s2, body a s1 = Ok s2 ∧ ∀ k, k ≠ key a → view s2 k = view s1 k) →
  NoDup (key <$> l) →
  (∀ a, a ∈ l → ∃ v, view s (key a) = Some v ∧ P a v) →
  ∃ s', forM_ l body s = Ok s'.
Proof.
  revert s. induction l as [|a l IH]; intros s Hbody Hnd Hpre; simpl;
    [by eexists|].
  rewrite fmap_cons in Hnd. apply NoDup_cons in Hnd as [Hnotin Hnd].
  destruct (Hpre a) as (v & Hv & HP); [by left|].
  destruct (Hbody a s v) as (s1 & Hs1 & Hother); [by left | done | done |].
  rewrite Hs1. simpl. apply IH; [|done|].
  - intros a' s2 v' Ha'. apply Hbody. by right.
  - intros a' Ha'. destruct (Hpre a') as (v' & Hv' & HP'); [by right|].
    exists v'. split; [|done]. rewrite <- Hv'. apply Hother.
    intros Heq. apply Hnotin. rewrite <- Heq. by apply list_elem_of_fmap_2.
Qed.
End succeeds.

Lemma forM__create_succeeds {A V : Type} (name : A → string)
    (mk : A → result V) (e : exn) (l : list A) (m0 : gmap string V) :
  NoDup (name <$> l) →
  (∀ a, a ∈ l → m0 !! name a = None ∧ ∃ v, mk a = Ok v) →
  ∃ m, forM_ l (fun a m =>
         match m !! name a with
         | Some _ => Raise e
         | None => v ← mk a; Ok (<[name a := v]> m)
         end) m0 = Ok m.
Proof.
  revert m0. induction l as [|a l IH]; intros m0 Hnd Hpre; simpl;
    [by eexists|].
  rewrite fmap_cons in Hnd. apply NoDup_cons in Hnd as [Hnotin Hnd].
  destruct (Hpre a) as (Hfresh & v & Hv); [by left|].
  rewrite Hfresh, Hv. simpl. apply IH; [done|].
  intros a' Ha'. destruct (Hpre a') as (Hfresh' & Hmk'); [by right|].
  split; [|done]. rewrite lookup_insert_ne; [done|].
  intros Heq. apply Hnotin. rewrite Heq. by apply list_elem_of_fmap_2.
Qed.

Section recorder_progress.
Context {num : Type} (fill : num) (positive : num → bool).
Context (other_tasks : nat → list (@Recorder.call num)).
Context (sensor_reader : nat → string → result (list num * list num)).

Import Recorder.

Local Abbreviation SensorRecorder := (@SensorRecorder num).
Local Abbreviation h5file := (@h5file num).
Local Abbreviation dataset := (@dataset num).
Local Abbreviation iteration := (iteration fill positive other_tasks sensor_reader).
Local Abbreviation while_recording :=
  (while_recording fill positive other_tasks sensor_reader).
Local Abbreviation record_sensors :=
  (record_sensors fill positive other_tasks sensor_reader).
Local Abbreviation at_loop_head :=
  (at_loop_head fill positive other_tasks sensor_reader).
Local Abbreviation flush := (flush fill).
Local Abbreviation append_data := (append_data fill).
Local Abbreviation append_sensor := (append_sensor fill).
Local Abbreviation apply_call := (apply_call positive).
Local Abbreviation read_sensor_data := (read_sensor_data sensor_reader).
Local Abbreviation loop_inv := (loop_inv fill sensor_reader).
Local Abbreviation buffers_at := (buffers_at fill sensor_reader).
Local Abbreviation disk_at := (disk_at fill sensor_reader).
Local Abbreviation time_sample := (time_sample fill sensor_reader).
Local Abbreviation cap_sample := (cap_sample fill sensor_reader).

Local Opaque HISTORY_SIZE.
Local Arguments window : simpl never.

(** The hardware delivers, at every read of a connected board, at least
    as many timestamps and values as the board has sensors. *)
Definition reader_delivers (ctrls : list string) : Prop :=
  ∀ i sn, sn ∈ ctrls →
    ∃ lt lc, sensor_reader i sn = Ok (lt, lc)
      ∧ length (sensors_of sn) ≤ length lt
      ∧ length (sensors_of sn) ≤ length lc.

Lemma start_succeeds ctrls :
  NoDup ctrls → ctrls ≠ [] →
  ∃ st : SensorRecorder, start (init ctrls) = Ok st.
Proof.
  intros Hnd Hboards. unfold start, initialize_hdf5_file. simpl.
  destruct (forM__create_succeeds board_name
              (fun sn => @create_sensor_groups num (sensors_of sn))
              (ValueError "name already exists") ctrls ∅) as [gs Hgs].
  - apply NoDup_fmap_2; [|done]. intros ?? Heq. by apply board_name_inj.
  - intros sn _. split; [apply lookup_empty|].
    unfold create_sensor_groups.
    apply (forM__create_succeeds sensor_name
             (fun _ => Ok (∅ : gmap string dataset))).
    + apply NoDup_fmap_2; [|apply sensors_of_NoDup].
      intros ?? Heq. by apply sensor_name_inj.
    + intros sensor _. split; [apply lookup_empty | by eexists].
  - rewrite Hgs. simpl. unfold thread_pool_executor.
    rewrite decide_False by (by destruct ctrls). simpl. by eexists.
Qed.

Lemma append_sample_succeeds lt lc sn idx sensor (st : SensorRecorder) v x y :
  buffers_view st (sn, sensor) = Some v →
  lt !! idx = Some x → lc !! idx = Some y →
  ∃ st', append_sample lt lc sn idx sensor st = Ok st'.
Proof.
  unfold buffers_view, time_buffer, cap_buffer, lookup2. simpl.
  intros Hv Hx Hy. unfold append_sample, index, buffer_append.
  rewrite Hx, Hy. simpl.
  destruct (board_time_data st !! sn) as [bt|]; simpl in *; [|done].
  destruct (bt !! sensor) as [tb|]; simpl in *; [|done].
  destruct (board_cap_data st !! sn) as [bc|]; simpl in *; [|done].
  destruct (bc !! sensor) as [cb|]; simpl in *; [|done].
  by eexists.
Qed.

Lemma append_results_succeed ctrls n results (st : SensorRecorder) :
  NoDup ctrls → reader_delivers ctrls →
  Forall2 (fun sn r => read_sensor_data n sn = Ok r) ctrls results →
  buffers_at ctrls n st →
  ∃ st', forM_ results append_result st = Ok st'.
Proof.
  intros Hnd Hreader Hreads Hbufs. rewrite append_results_flat.
  assert (Hsn : results.*2 = ctrls).
  { clear -Hreads. induction Hreads as [|sn r ctrls results Hr _ IH]; [done|].
    simpl. f_equal; [|done]. unfold Recorder.read_sensor_data in Hr.
    destruct (sensor_reader n sn) as [[lt lc]|]; simpl in Hr; [|done].
    by inversion Hr. }
  apply (forM__succeeds (fun a => (a.1.2, a.2.2)) buffers_view append_pair
           (fun a _ => ∃ x y, a.1.1.1 !! a.2.1 = Some x
                         ∧ a.1.1.2 !! a.2.1 = Some y)).
  - intros [[[lt lc] sn] [idx sensor]] s1 v _ Hv (x & y & Hx & Hy).
    simpl in *. unfold append_pair. simpl.
    destruct (append_sample_succeeds lt lc sn idx sensor s1 v x y)
      as [s2 Hs2]; [done..|].
    exists s2. split; [done|].
    by apply append_sample_spec in Hs2 as (_ & Hother & _).
  - unfold append_pairs.
    apply (NoDup_nested_keys (fun r : list num * list num * string => r.2)
             (fun b : nat * nat => b.2)).
    + rewrite <- Hsn in Hnd. exact Hnd.
    + intros r _. rewrite snd_enumerate. apply sensors_of_NoDup.
  - intros a Ha.
    unfold append_pairs in Ha. apply list_elem_of_bind in Ha as (r & Ha & Hr).
    apply list_elem_of_fmap in Ha as ([idx sensor] & -> & Hidx).
    destruct r as [[lt lc] sn]. simpl in *.
    apply elem_of_enumerate in Hidx.
    apply list_elem_of_lookup_1 in Hr as [j Hj].
    destruct (Forall2_lookup_r _ _ _ _ _ Hreads Hj) as (sn' & Hsn' & Hread).
    unfold Recorder.read_sensor_data in Hread.
    destruct (sensor_reader n sn') as [[lt' lc']|] eqn:Hsr; simpl in Hread;
      [|done].
    inversion Hread; subst; clear Hread.
    apply list_elem_of_lookup_2 in Hsn'.
    destruct (Hbufs sn idx sensor Hsn' Hidx) as [Htb Hcb].
    unfold buffers_view. simpl. rewrite Htb, Hcb. eexists. split; [done|].
    destruct (Hreader n sn Hsn') as (lt0 & lc0 & Hsr0 & Hlt & Hlc).
    rewrite Hsr in Hsr0. inversion Hsr0; subst lt0 lc0.
    apply lookup_lt_Some in Hidx.
    destruct (lookup_lt_is_Some_2 lt idx) as [x Hx]; [lia|].
    destruct (lookup_lt_is_Some_2 lc idx) as [y Hy]; [lia|].
    by exists x, y.
Qed.

Lemma write_initial_sensor_succeeds (st : SensorRecorder) sn sensor
    (f : h5file) g tb cb :
  file_view f (sn, sensor) = Some g →
  g !! "time_data" = None → g !! "cap_data" = None →
  time_buffer st sn sensor = Some tb → cap_buffer st sn sensor = Some cb →
  ∃ f', write_initial_sensor st sn sensor f = Ok f'.
Proof.
  intros Hg Ht Hc Htb Hcb. unfold write_initial_sensor.
  apply get_group_Ok in Hg. simpl in Hg. rewrite Hg. simpl.
  apply get_buffer_Ok in Htb. apply get_buffer_Ok in Hcb.
  rewrite Htb. simpl. unfold create_dataset at 2. rewrite Ht. simpl.
  rewrite Hcb. simpl. unfold create_dataset.
  rewrite lookup_insert_ne by done. rewrite Hc. simpl. by eexists.
Qed.

Lemma write_slice_succeeds (lo n : nat) (data l : list num) :
  length data = n →
  ∃ l', write_slice lo (lo + n) data (resize fill (lo + n) l) = Ok l'.
Proof.
  intros Hdata. unfold write_slice.
  assert (Hlen : length (resize fill (lo + n) l) = lo + n).
  { unfold resize. rewrite length_app, length_take, length_replicate. lia. }
  rewrite Hlen, Nat.min_id.
  rewrite decide_True by lia. by eexists.
Qed.

Lemma append_sensor_succeeds (st : SensorRecorder) sn sensor
    (f : h5file) g lt lc tb cb :
  file_view f (sn, sensor) = Some g →
  g !! "time_data" = Some (Array lt) → g !! "cap_data" = Some (Array lc) →
  time_buffer st sn sensor = Some tb → cap_buffer st sn sensor = Some cb →
  length tb = HISTORY_SIZE → length cb = HISTORY_SIZE →
  ∃ f', append_sensor st sn sensor f = Ok f'.
Proof.
  intros Hg Ht Hc Htb Hcb Hlt Hlc. unfold Recorder.append_sensor.
  apply get_group_Ok in Hg. simpl in Hg. rewrite Hg. simpl.
  apply get_buffer_Ok in Htb. apply get_buffer_Ok in Hcb.
  unfold resize_dataset at 2. rewrite Ht. simpl.
  unfold resize_dataset. rewrite lookup_insert_ne by done. rewrite Hc. simpl.
  rewrite Htb. simpl.
  unfold write_dataset_slice at 2.
  rewrite lookup_insert_ne by done. rewrite lookup_insert_eq.
  destruct (write_slice_succeeds (loop_counter st - HISTORY_SIZE)
              HISTORY_SIZE tb lt Hlt) as [lt' Hlt'].
  rewrite Hlt'. simpl. rewrite Hcb. simpl.
  unfold write_dataset_slice.
  rewrite lookup_insert_ne by done. rewrite lookup_insert_eq.
  destruct (write_slice_succeeds (loop_counter st - HISTORY_SIZE)
              HISTORY_SIZE cb lc Hlc) as [lc' Hlc'].
  rewrite Hlc'. simpl. by eexists.
Qed.

Lemma elem_of_sensor_pairs ctrls (ab : string * nat) :
  ab ∈ ctrls ≫= (fun sn => pair sn <$> sensors_of sn) →
  ab.1 ∈ ctrls ∧ ∃ idx, sensors_of ab.1 !! idx = Some ab.2.
Proof.
  intros (sn & Hab & Hsn)%list_elem_of_bind.
  apply list_elem_of_fmap in Hab as (sensor & -> & Hsensor). simpl.
  split; [done|]. by apply list_elem_of_lookup_1.
Qed.

Lemma length_window n : length (window n) = n `min` HISTORY_SIZE.
Proof. unfold window. by rewrite length_seq. Qed.

Lemma flush_succeeds ctrls n (st : SensorRecorder) (f : h5file) :
  NoDup ctrls → controllers st = ctrls → loop_counter st = n →
  buffers_at ctrls (S n) st →
  h5 st = Some f → disk_at ctrls n f →
  ∃ st', flush st = Ok st'.
Proof.
  pose proof HISTORY_SIZE_pos as Hpos.
  intros Hnd Hctrls Hn Hbufs Hf Hdisk.
  unfold Recorder.flush. rewrite Hn.
  destruct (decide (n = HISTORY_SIZE)) as [HnN|HnN].
  - unfold write_initial_data, open_rw. rewrite Hf, Hctrls. simpl.
    rewrite (forM__nested sensors_of ctrls
               (fun sn => write_initial_sensor st sn)).
    destruct (forM__succeeds (fun ab : string * nat => (ab.1, ab.2))
                file_view
                (fun ab : string * nat => write_initial_sensor st ab.1 ab.2)
                (fun _ g => g !! "time_data" = None ∧ g !! "cap_data" = None)
                (ctrls ≫= fun sn => pair sn <$> sensors_of sn) f)
      as [f' Hf']; [| |  |rewrite Hf'; simpl; by eexists].
    + intros [sn sensor] f1 g Hin Hg [Ht Hc]. simpl in *.
      apply elem_of_sensor_pairs in Hin as [Hsn [idx Hidx]]. simpl in *.
      destruct (Hbufs sn idx sensor Hsn Hidx) as [Htb Hcb].
      destruct (write_initial_sensor_succeeds st sn sensor f1 g _ _
                  Hg Ht Hc Htb Hcb) as [f2 Hf2].
      exists f2. split; [done|].
      by apply write_initial_sensor_spec in Hf2 as [_ Hother].
    + by apply sensor_keys_NoDup.
    + intros [sn sensor] Hin.
      apply elem_of_sensor_pairs in Hin as [Hsn [idx Hidx]]. simpl in *.
      destruct (Hdisk sn idx sensor Hsn Hidx) as (g & Hg & Hstate).
      exists g. split; [done|].
      destruct Hstate as [(_ & Ht & Hc)|(q & Hq1 & Hq & _)]; [done|].
      exfalso. nia.
  - destruct (decide (0 < n ∧ n `mod` HISTORY_SIZE = 0)) as [[Hn0 Hmod]|Hnot];
      [|by eexists].
    unfold Recorder.append_data, open_rw. rewrite Hf, Hctrls. simpl.
    rewrite (forM__nested sensors_of ctrls (fun sn => append_sensor st sn)).
    assert (Hbig : HISTORY_SIZE < n).
    { destruct (decide (n < HISTORY_SIZE)) as [Hlt|]; [|lia].
      rewrite Nat.mod_small in Hmod by done. lia. }
    destruct (forM__succeeds (fun ab : string * nat => (ab.1, ab.2))
                file_view
                (fun ab : string * nat => append_sensor st ab.1 ab.2)
                (fun _ g => ∃ lt lc, g !! "time_data" = Some (Array lt)
                                     ∧ g !! "cap_data" = Some (Array lc))
                (ctrls ≫= fun sn => pair sn <$> sensors_of sn) f)
      as [f' Hf']; [| |  |rewrite Hf'; simpl; by eexists].
    + intros [sn sensor] f1 g Hin Hg (lt & lc & Ht & Hc). simpl in *.
      apply elem_of_sensor_pairs in Hin as [Hsn [idx Hidx]]. simpl in *.
      destruct (Hbufs sn idx sensor Hsn Hidx) as [Htb Hcb].
      destruct (append_sensor_succeeds st sn sensor f1 g lt lc _ _
                  Hg Ht Hc Htb Hcb) as [f2 Hf2].
      { rewrite length_fmap, length_window. lia. }
      { rewrite length_fmap, length_window. lia. }
      exists f2. split; [done|].
      by apply append_sensor_spec in Hf2 as [_ Hother].
    + by apply sensor_keys_NoDup.
    + intros [sn sensor] Hin.
      apply elem_of_sensor_pairs in Hin as [Hsn [idx Hidx]]. simpl in *.
      destruct (Hdisk sn idx sensor Hsn Hidx) as (g & Hg & Hstate).
      exists g. split; [done|].
      destruct Hstate as [(Hle & _)|(q & _ & _ & Ht & Hc)]; [lia|].
      by eexists _, _.
Qed.

Lemma iteration_succeeds ctrls (st : SensorRecorder) :
  loop_inv ctrls st → reader_delivers ctrls →
  ∃ st', iteration st = Ok st'.
Proof.
  intros [Hctrls Hnd Hbufs (f & Hf & Hdisk)] Hreader.
  unfold Recorder.iteration.
  remember (loop_counter st) as n eqn:Hn.
  pose proof (foldl_apply_call_yields fill positive st (other_tasks n)) as Hy.
  set (st1 := foldl apply_call st (other_tasks n)) in *.
  destruct Hy as [Hy1 Hy2 Hy3 Hy4 Hy5 Hy6].
  destruct (Hy6 f Hf) as (f1 & Hf1 & Hsame).
  rewrite Hy1, Hy2, Hctrls, <- Hn.
  destruct (mapM_succeeds (read_sensor_data n) ctrls) as [results Hreads].
  { intros sn Hsn. destruct (Hreader n sn Hsn) as (lt & lc & Hsr & _).
    unfold Recorder.read_sensor_data. rewrite Hsr. simpl. by eexists. }
  rewrite Hreads. simpl. apply mapM_result_Forall2 in Hreads.
  assert (Hbufs1 : buffers_at ctrls n st1).
  { intros sn idx sensor Hsn Hidx.
    unfold time_buffer, cap_buffer. rewrite Hy3, Hy4. by apply Hbufs. }
  destruct (append_results_succeed ctrls n results st1) as [st2 Happ];
    [done..|].
  rewrite Happ. simpl.
  apply (append_results_spec fill sensor_reader ctrls n) in Happ
    as [Hbufs2 (Hc2 & Hr2 & Hl2 & Hh2)]; [|done..].
  assert (Hdisk1 : disk_at ctrls n f1).
  { intros sn idx sensor Hsn Hidx.
    destruct (Hdisk sn idx sensor Hsn Hidx) as (g & Hg & Hstate).
    destruct (Hsame _ _ _ Hg) as (g1 & Hg1 & Ht & Hc).
    exists g1. split; [done|]. unfold disk_state in *. by rewrite Ht, Hc. }
  destruct (flush_succeeds ctrls n st2 f1) as [st3 Hflush];
    try done; try congruence.
  rewrite Hflush. simpl. by eexists.
Qed.

Lemma while_recording_succeeds ctrls fuel (st : SensorRecorder) :
  loop_inv ctrls st → reader_delivers ctrls →
  ∃ r, while_recording fuel st = Ok r.
Proof.
  intros Hinv Hreader. revert st Hinv.
  induction fuel as [|fuel IH]; intros st Hinv; simpl; [by eexists|].
  destruct (recording st); [|by eexists].
  destruct (iteration_succeeds ctrls st Hinv Hreader) as [st' Hiter].
  rewrite Hiter. simpl. apply IH.
  by apply (iteration_spec fill positive other_tasks sensor_reader ctrls st st').
Qed.

Lemma record_sensors_succeeds ctrls fuel :
  NoDup ctrls → ctrls ≠ [] → reader_delivers ctrls →
  ∃ r, record_sensors fuel (init ctrls) = Ok r.
Proof.
  intros Hnd Hboards Hreader. unfold Recorder.record_sensors.
  destruct (start_succeeds ctrls Hnd Hboards) as [st Hst].
  rewrite Hst. simpl.
  apply (while_recording_succeeds ctrls); [|done].
  by apply (start_loop_inv fill sensor_reader) in Hst as [Hinv _].
Qed.

(** Without a board the executor cannot be created, and the loop is not
    entered. *)
Lemma record_sensors_without_boards fuel :
  record_sensors fuel (init [])
  = Raise (ValueError "max_workers must be greater than 0").
Proof. reflexivity. Qed.

(** X1. The recording loop raises only for want of a board.  With at least
    one board, distinct boards, and hardware that delivers a reading for
    every sensor at every iteration, no file or buffer operation of
    [record_sensors] fails, whatever the control surface calls in between:
    after any number of iterations the loop is either still running or has
    been left normally.  With no board at all, [record_sensors] raises the
    [ValueError] of [ThreadPoolExecutor(max_workers=0)] before the first
    iteration. *)
Theorem record_sensors_raises_only_without_boards ctrls fuel :
  NoDup ctrls → reader_delivers ctrls →
  (ctrls ≠ [] → ∃ r, record_sensors fuel (init ctrls) = Ok r)
  ∧ (ctrls = [] →
     record_sensors fuel (init ctrls)
     = Raise (ValueError "max_workers must be greater than 0")).
Proof.
  intros Hnd Hreader. split.
  - intros Hboards. by apply record_sensors_succeeds.
  - intros ->. apply record_sensors_without_boards.
Qed.

(** *** When the loop ends *)

Lemma apply_call_recording (st : SensorRecorder) c :
  c ≠ CallStop → recording (apply_call st c) = recording st.
Proof.
  intros Hc. destruct c as [|sensor_id t0 t1 v0 v1 w cycle|text]; [done|..];
    simpl.
  - destruct (write_sensor_metadata _ _ _ _ _ _ _ _ _) as [st'|] eqn:Hw;
      [|done].
    by apply write_sensor_metadata_Ok in Hw as (f & f' & _ & _ & ->).
  - unfold write_comments, open_rw. by destruct (h5 st).
Qed.

Lemma foldl_apply_call_recording (st : SensorRecorder) cs :
  CallStop ∉ cs → recording (foldl apply_call st cs) = recording st.
Proof.
  revert st. induction cs as [|c cs IH]; intros st Hcs; simpl; [done|].
  apply not_elem_of_cons in Hcs as [Hc Hcs].
  rewrite IH by done. apply apply_call_recording. congruence.
Qed.

Lemma iteration_recording (st st' : SensorRecorder) :
  iteration st = Ok st' →
  recording st'
  = recording (foldl apply_call st (other_tasks (loop_counter st))).
Proof.
  unfold Recorder.iteration. intros Hrun.
  set (st1 := foldl apply_call st (other_tasks (loop_counter st))) in *.
  destruct (mapM _ (controllers st1)) as [results|]; simpl in Hrun; [|done].
  destruct (forM_ results append_result st1) as [st2|] eqn:Happ;
    simpl in Hrun; [|done].
  destruct (flush st2) as [st3|] eqn:Hflush; simpl in Hrun; [|done].
  inversion Hrun; subst st'; clear Hrun. simpl.
  apply flush_loop_counter in Hflush as (_ & -> & _).
  rewrite append_results_flat in Happ.
  assert (Hframe : same_frame st1 st2).
  { revert Happ. apply (forM__preserves (same_frame st1)); [|done].
    intros a s1 s2 _ H1 Ha. eapply same_frame_trans; [done|].
    by apply append_sample_spec in Ha as (_ & _ & ?). }
  by destruct Hframe as (_ & -> & _).
Qed.

Lemma while_recording_running ctrls k (st : SensorRecorder) :
  loop_inv ctrls st → recording st = true → reader_delivers ctrls →
  (∀ i, loop_counter st ≤ i < loop_counter st + k →
        CallStop ∉ other_tasks i) →
  while_recording k st = Ok None
  ∧ (CallStop ∈ other_tasks (loop_counter st + k) →
     ∀ fuel, ∃ st',
       while_recording (k + 2 + fuel) st = Ok (Some st')
       ∧ loop_counter st' = S (loop_counter st + k)
       ∧ recording st' = false).
Proof.
  intros Hinv Hrec Hreader. revert st Hinv Hrec.
  induction k as [|k IH]; intros st Hinv Hrec Hquiet.
  - split; [done|]. rewrite Nat.add_0_r. intros Hstop fuel.
    destruct (iteration_succeeds ctrls st Hinv Hreader) as [st' Hiter].
    pose proof (iteration_spec fill positive other_tasks sensor_reader
                  ctrls st st' Hinv Hiter) as (_ & Hn & _ & Hoff).
    exists st'. change (0 + 2 + fuel) with (S (S fuel)).
    cbn [Recorder.while_recording]. rewrite Hrec, Hiter. simpl.
    rewrite (Hoff Hstop). done.
  - destruct (iteration_succeeds ctrls st Hinv Hreader) as [st' Hiter].
    pose proof (iteration_spec fill positive other_tasks sensor_reader
                  ctrls st st' Hinv Hiter) as (Hinv' & Hn & _ & _).
    assert (Hrec' : recording st' = true).
    { rewrite (iteration_recording st st' Hiter).
      rewrite foldl_apply_call_recording; [done|]. apply Hquiet. lia. }
    destruct (IH st' Hinv' Hrec') as [Hrun Hend].
    { intros i Hi. apply Hquiet. lia. }
    split.
    + cbn [Recorder.while_recording]. rewrite Hrec, Hiter. done.
    + intros Hstop fuel.
      replace (loop_counter st' + k) with (loop_counter st + S k) in Hend
        by lia.
      destruct (Hend Hstop fuel) as (st'' & Hrun' & Hcount & Hoff).
      exists st''.
      change (S k + 2 + fuel) with (S (k + 2 + fuel)).
      cbn [Recorder.while_recording]. rewrite Hrec, Hiter. done.
Qed.

(** X2. The length of a session with at least one board, distinct boards
    and hardware that delivers a reading for every sensor at every
    iteration.  While [stop()] has not been called the loop keeps running;
    when [stop()] is first called at the yield of iteration [k], the loop
    completes that iteration and is then left, after exactly [k + 1]
    iterations. *)
Theorem stop_ends_session_after_iteration ctrls k :
  NoDup ctrls → ctrls ≠ [] → reader_delivers ctrls →
  (∀ i, i < k → CallStop ∉ other_tasks i) →
  record_sensors k (init ctrls) = Ok None
  ∧ (CallStop ∈ other_tasks k →
     ∀ fuel, ∃ st,
       record_sensors (k + 2 + fuel) (init ctrls) = Ok (Some st)
       ∧ loop_counter st = S k ∧ recording st = false).
Proof.
  intros Hnd Hboards Hreader Hquiet. unfold Recorder.record_sensors.
  destruct (start_succeeds ctrls Hnd Hboards) as [st Hst].
  rewrite Hst. simpl.
  apply (start_loop_inv fill sensor_reader) in Hst as (Hinv & Hn & Hrec).
  destruct (while_recording_running ctrls k st Hinv Hrec Hreader)
    as [Hrun Hend].
  { intros i Hi. apply Hquiet. lia. }
  split; [done|]. rewrite Hn in Hend. exact Hend.
Qed.

(** *** What is on disk *)

(** X3. At every point the loop reaches, the file holds for every sensor the
    samples of the iterations [1 .. HISTORY_SIZE * ((L - 1) / HISTORY_SIZE)],
    where [L] is the loop counter, in both arrays alike: the arrays of all
    sensors have the same length, and the sample of iteration 0 is never
    stored (the ring buffer has dropped it when the first flush comes). *)
Theorem disk_contents ctrls (st : SensorRecorder) sn idx sensor :
  at_loop_head ctrls st → sn ∈ ctrls → sensors_of sn !! idx = Some sensor →
  let flushed :=
    HISTORY_SIZE * ((loop_counter st - 1) `div` HISTORY_SIZE) in
  on_disk st sn sensor "time_data" = time_sample sn idx <$> seq 1 flushed
  ∧ on_disk st sn sensor "cap_data" = cap_sample sn idx <$> seq 1 flushed.
Proof.
  pose proof HISTORY_SIZE_pos as Hpos.
  intros Hhead Hsn Hidx flushed.
  apply (at_loop_head_inv fill positive other_tasks sensor_reader) in Hhead.
  destruct (loop_inv_sensor fill sensor_reader ctrls st sn idx sensor
              Hhead Hsn Hidx) as (q & Hq & Ht & Hc & _).
  assert (Hflushed : flushed = q * HISTORY_SIZE).
  { unfold flushed. destruct Hq as [[-> Hle]|[Hq1 Hrange]].
    - rewrite Nat.div_small by lia. lia.
    - rewrite (Nat.div_unique (loop_counter st - 1) HISTORY_SIZE q
                 (loop_counter st - 1 - q * HISTORY_SIZE)); lia. }
  by rewrite Hflushed.
Qed.

(** *** Calls of the control surface *)

Lemma on_disk_set_h5 (st : SensorRecorder) (f f' : h5file) sn sensor name :
  h5 st = Some f →
  (∀ g, file_group f sn sensor = Some g →
        ∃ g', file_group f' sn sensor = Some g' ∧ g' !! name = g !! name) →
  (file_group f sn sensor = None →
   ∀ g', file_group f' sn sensor = Some g' → g' !! name = None) →
  on_disk (set_h5 st (Some f')) sn sensor name = on_disk st sn sensor name.
Proof.
  intros Hf Hsome Hnone. unfold on_disk. simpl. rewrite Hf.
  destruct (file_group f sn sensor) as [g|] eqn:Hg.
  - destruct (Hsome g eq_refl) as (g' & -> & ->). done.
  - destruct (file_group f' sn sensor) as [g'|] eqn:Hg'; [|done].
    by rewrite (Hnone eq_refl g' eq_refl).
Qed.

(** X4. What the control surface calls while the loop is suspended
    ([write_sensor_metadata], [write_comments], [stop]) never touches a
    recorded sample: the arrays on disk, the ring buffers and the loop
    counter are as before, whether the call succeeds or raises. *)
Theorem control_calls_keep_samples (st : SensorRecorder) c sn sensor :
  on_disk (apply_call st c) sn sensor "time_data"
    = on_disk st sn sensor "time_data"
  ∧ on_disk (apply_call st c) sn sensor "cap_data"
    = on_disk st sn sensor "cap_data"
  ∧ time_buffer (apply_call st c) sn sensor = time_buffer st sn sensor
  ∧ cap_buffer (apply_call st c) sn sensor = cap_buffer st sn sensor
  ∧ loop_counter (apply_call st c) = loop_counter st.
Proof.
  pose proof (apply_call_yields positive st c) as [_ Hn Ht Hc _ _].
  assert (Hdisk : ∀ name, name ∈ ["time_data"; "cap_data"] →
            on_disk (apply_call st c) sn sensor name
            = on_disk st sn sensor name).
  { intros name Hname.
    destruct c as [|sensor_id t0 t1 v0 v1 w cycle|text]; simpl; [done|..].
    - destruct (write_sensor_metadata _ _ _ _ _ _ _ _ _) as [st'|] eqn:Hw;
        [|done].
      apply write_sensor_metadata_Ok in Hw as (f & f' & Hf & Hw & ->).
      apply write_sensor_metadata_file_spec in Hw
        as (sn0 & b & _ & Hb & _ & Hg' & Hother).
      assert (Harrays : ∀ g, metadata_update positive t0 t1 v0 v1 w cycle g
                             !! name = g !! name).
      { intros g.
        pose proof (metadata_update_arrays positive t0 t1 v0 v1 w cycle g)
          as [Ha Hb'].
        apply elem_of_cons in Hname as [->|Hname]; [done|].
        apply list_elem_of_singleton in Hname as ->. done. }
      apply (on_disk_set_h5 st f f'); [done| |]; unfold file_group.
      + intros g Hg.
        destruct (decide ((board_name sn, sensor_name sensor)
                          = (board_name sn0, sensor_name sensor_id)))
          as [Heq|Hne].
        * pose proof (f_equal fst Heq) as Hb1.
          pose proof (f_equal snd Heq) as Hs1. cbn [fst snd] in Hb1, Hs1.
          apply board_name_inj in Hb1. apply sensor_name_inj in Hs1.
          subst sn0 sensor_id.
          eexists. split; [exact Hg'|]. rewrite Harrays.
          unfold lookup2 in Hg. rewrite Hb in Hg. simpl in Hg.
          by rewrite Hg.
        * exists g. by rewrite Hother.
      + intros Hg g' Hg0.
        destruct (decide ((board_name sn, sensor_name sensor)
                          = (board_name sn0, sensor_name sensor_id)))
          as [Heq|Hne].
        * pose proof (f_equal fst Heq) as Hb1.
          pose proof (f_equal snd Heq) as Hs1. cbn [fst snd] in Hb1, Hs1.
          apply board_name_inj in Hb1. apply sensor_name_inj in Hs1.
          subst sn0 sensor_id.
          rewrite Hg' in Hg0. injection Hg0 as <-. rewrite Harrays.
          unfold lookup2 in Hg. rewrite Hb in Hg. simpl in Hg.
          rewrite Hg. simpl. apply lookup_empty.
        * rewrite Hother in Hg0 by done. congruence.
    - unfold write_comments, open_rw. destruct (h5 st) as [f|] eqn:Hf; [|done].
      simpl. unfold on_disk. simpl. by rewrite Hf. }
  split_and!.
  - apply Hdisk. repeat constructor.
  - apply Hdisk. repeat constructor.
  - unfold time_buffer. by rewrite Ht.
  - unfold cap_buffer. by rewrite Hc.
  - done.
Qed.

(** *** Cycle metadata *)

Lemma board_of_sensors_of sn idx sensor :
  sensors_of sn !! idx = Some sensor → board_of sensor = Ok sn.
Proof.
  unfold sensors_of, SERIAL_NUMBER_SENSOR_MAP. simpl.
  repeat case_decide; subst; simpl; try done;
    intros Hidx;
    repeat (destruct idx as [|idx]; simpl in Hidx;
            [injection Hidx as <-; reflexivity|]);
    done.
Qed.

Lemma board_of_unknown sensor_id :
  ¬ (1 ≤ sensor_id ≤ 24) →
  board_of sensor_id
  = Raise (ValueError "can only convert an array of size 1 to a Python scalar").
Proof.
  intros Hout. unfold board_of, SERIAL_NUMBER_SENSOR_MAP.
  rewrite !filter_cons, filter_nil. simpl.
  rewrite !decide_False; [done|..];
    rewrite !elem_of_cons, elem_of_nil; lia.
Qed.

Lemma pretty_N_go_length (x : N) (s : string) :
  String.length s ≤ String.length (pretty_N_go x s).
Proof.
  revert s. induction (N.lt_wf_0 x) as [x _ IH]; intros s.
  destruct (decide (0 < x)%N) as [Hx|Hx].
  - rewrite pretty_N_go_step by done.
    etransitivity; [|apply IH; apply N.div_lt; lia]. simpl. lia.
  - assert (x = 0%N) as -> by lia. by rewrite pretty_N_go_0.
Qed.

Lemma pretty_nat_nonempty (n : nat) : pretty n ≠ "".
Proof.
  unfold pretty, pretty_nat, pretty, pretty_N.
  case_decide; [done|]. intros Heq.
  rewrite pretty_N_go_step in Heq by lia.
  pose proof (pretty_N_go_length (N.of_nat n `div` 10)
                (String (pretty_N_char (N.of_nat n `mod` 10)) "")) as Hlen.
  rewrite Heq in Hlen. simpl in Hlen. lia.
Qed.

Lemma string_app_inj_l (s a b : string) : s +:+ a = s +:+ b → a = b.
Proof.
  induction s as [|c s IH]; intros Heq; [done|].
  apply IH. unfold String.append in Heq; fold String.append in Heq.
  by injection Heq.
Qed.

Lemma cycle_name_inj base base' c c' :
  base ∈ ["start_time"; "stop_time"; "start_vol"; "stop_vol"; "weight"] →
  base' ∈ ["start_time"; "stop_time"; "start_vol"; "stop_vol"; "weight"] →
  cycle_name base c = cycle_name base' c' → base = base' ∧ c = c'.
Proof.
  intros Hb Hb' Heq.
  assert (Hbase : base = base').
  { revert Heq. unfold cycle_name.
    repeat (apply elem_of_cons in Hb as [->|Hb]);
      [..|by apply elem_of_nil in Hb];
      repeat (apply elem_of_cons in Hb' as [->|Hb']);
      try (by apply elem_of_nil in Hb'); try done;
      repeat case_decide; simpl; intros ?; simplify_eq. }
  subst base'. split; [done|]. unfold cycle_name in Heq.
  repeat case_decide; subst; try done.
  - rewrite <- (string_app_nil_r base) in Heq at 1.
    apply string_app_inj_l in Heq. symmetry in Heq.
    by apply pretty_nat_nonempty in Heq.
  - rewrite <- (string_app_nil_r base) in Heq at 2.
    apply string_app_inj_l in Heq. by apply pretty_nat_nonempty in Heq.
  - apply string_app_inj_l in Heq. by apply (inj pretty).
Qed.

Lemma overwrite_positive_lookup_eq name (v : option num)
    (g : gmap string dataset) :
  overwrite_positive positive name v g !! name
  = match v with
    | Some x => if positive x then Some (Scalar x) else g !! name
    | None => g !! name
    end.
Proof.
  unfold overwrite_positive. destruct v as [x|]; [|done].
  destruct (positive x); [|done]. apply lookup_insert_eq.
Qed.

Lemma write_once_lookup_eq name (v : option num) (g : gmap string dataset) :
  write_once name v g !! name
  = match g !! name with
    | Some d => Some d
    | None => Scalar <$> v
    end.
Proof.
  unfold write_once. destruct v as [x|]; simpl.
  - destruct (g !! name) eqn:Hg; [done|]. apply lookup_insert_eq.
  - by destruct (g !! name).
Qed.

(** The value of a field of the cycle after [metadata_update]. *)
Definition field_after (base : string) (t0 t1 v0 v1 w : option num)
    (old : option dataset) : option dataset :=
  let timestamp v := match old with Some d => Some d | None => Scalar <$> v end in
  let measure v :=
    match v with
    | Some x => if positive x then Some (Scalar x) else old
    | None => old
    end in
  if decide (base = "start_time") then timestamp t0
  else if decide (base = "stop_time") then timestamp t1
  else if decide (base = "start_vol") then measure v0
  else if decide (base = "stop_vol") then measure v1
  else measure w.

Lemma metadata_update_lookup t0 t1 v0 v1 w cycle (g : gmap string dataset)
    base c :
  base ∈ ["start_time"; "stop_time"; "start_vol"; "stop_vol"; "weight"] →
  metadata_update positive t0 t1 v0 v1 w cycle g !! cycle_name base c
  = if decide (c = cycle)
    then field_after base t0 t1 v0 v1 w (g !! cycle_name base c)
    else g !! cycle_name base c.
Proof.
  intros Hbase.
  assert (Hne : ∀ base', 
            base' ∈ ["start_time"; "stop_time"; "start_vol"; "stop_vol"; "weight"] →
            (base, c) ≠ (base', cycle) →
            cycle_name base c ≠ cycle_name base' cycle).
  { intros base' Hbase' Hneq Heq.
    apply cycle_name_inj in Heq as [-> ->]; done. }
  unfold metadata_update, field_after.
  destruct (decide (c = cycle)) as [->|Hc].
  - repeat (apply elem_of_cons in Hbase as [->|Hbase]);
      [..|by apply elem_of_nil in Hbase]; simpl;
      repeat first
        [ rewrite overwrite_positive_lookup_ne
            by (apply Hne; [repeat constructor | congruence])
        | rewrite overwrite_positive_lookup_eq
        | rewrite write_once_lookup_ne
            by (apply Hne; [repeat constructor | congruence])
        | rewrite write_once_lookup_eq ];
      done.
  - rewrite !overwrite_positive_lookup_ne, !write_once_lookup_ne; first done;
      apply Hne; first [by repeat constructor | congruence].
Qed.

Lemma stored_write_sensor_metadata (st st1 : SensorRecorder) sensor_id
    t0 t1 v0 v1 w cycle :
  write_sensor_metadata positive st sensor_id t0 t1 v0 v1 w cycle = Ok st1 →
  ∃ sn, board_of sensor_id = Ok sn
    ∧ (∀ name, stored st1 sn sensor_id name
               = metadata_update positive t0 t1 v0 v1 w cycle
                   (default ∅ (match h5 st with
                               | Some f => file_group f sn sensor_id
                               | None => None
                               end)) !! name)
    ∧ (∀ sn' sensor' name, (sn', sensor') ≠ (sn, sensor_id) →
         stored st1 sn' sensor' name = stored st sn' sensor' name).
Proof.
  intros (f & f1 & Hf & Hw & ->)%write_sensor_metadata_Ok.
  apply write_sensor_metadata_file_spec in Hw
    as (sn & b & Hboard & Hb & _ & Hg1 & Hother).
  exists sn. split; [done|]. unfold stored. simpl. rewrite Hf. split.
  - intros name. unfold file_group. rewrite Hg1.
    unfold lookup2. rewrite Hb. done.
  - intros sn' sensor' name Hne. unfold file_group.
    rewrite Hother; [done|]. intros Heq. apply Hne.
    pose proof (f_equal fst Heq) as Hb1.
    pose proof (f_equal snd Heq) as Hs1. cbn [fst snd] in Hb1, Hs1.
    apply board_name_inj in Hb1. apply sensor_name_inj in Hs1. congruence.
Qed.

(** X5. What a call of [write_sensor_metadata] stores.  For the sensor and the
    cycle of the call: a timestamp is stored only where none is stored
    yet; a volume or weight that is greater than 0 replaces the stored
    one, and one that is absent or not greater than 0 leaves the stored
    one as it is (it is never erased).  Every field of another cycle or
    of another sensor is left as it is. *)
Theorem write_sensor_metadata_fields (st st1 : SensorRecorder) sensor_id
    (t0 t1 v0 v1 w : option num) (cycle : nat) :
  write_sensor_metadata positive st sensor_id t0 t1 v0 v1 w cycle = Ok st1 →
  ∃ sn, board_of sensor_id = Ok sn
    ∧ ∀ sn' sensor' base c,
        base ∈ ["start_time"; "stop_time"; "start_vol"; "stop_vol"; "weight"] →
        stored st1 sn' sensor' (cycle_name base c)
        = if decide ((sn', sensor', c) = (sn, sensor_id, cycle))
          then field_after base t0 t1 v0 v1 w
                 (stored st sn' sensor' (cycle_name base c))
          else stored st sn' sensor' (cycle_name base c).
Proof.
  intros Hrun.
  pose proof Hrun as (f & f1 & Hf & _ & _)%write_sensor_metadata_Ok.
  apply stored_write_sensor_metadata in Hrun as (sn & Hboard & Hown & Hother).
  exists sn. split; [done|]. intros sn' sensor' base c Hbase.
  destruct (decide ((sn', sensor') = (sn, sensor_id))) as [Heq|Hne].
  - injection Heq as -> ->. rewrite Hown, metadata_update_lookup by done.
    rewrite Hf.
    assert (Hold : ∀ name, default ∅ (file_group f sn sensor_id) !! name
                           = stored st sn sensor_id name).
    { intros name. unfold stored. rewrite Hf.
      destruct (file_group f sn sensor_id); [done | apply lookup_empty]. }
    rewrite Hold.
    destruct (decide (c = cycle)) as [->|Hc].
    + by rewrite decide_True.
    + rewrite decide_False; [done | congruence].
  - rewrite Hother by done. rewrite decide_False; [done | congruence].
Qed.

(** X6. During a session a metadata write for a sensor of a connected board
    always succeeds: the board and the sensor group are in the file from
    the start of the session on. *)
Theorem write_sensor_metadata_succeeds ctrls (st : SensorRecorder)
    sn idx sensor (t0 t1 v0 v1 w : option num) (cycle : nat) :
  at_loop_head ctrls st → sn ∈ ctrls → sensors_of sn !! idx = Some sensor →
  ∃ st', write_sensor_metadata positive st sensor t0 t1 v0 v1 w cycle = Ok st'.
Proof.
  intros Hhead Hsn Hidx.
  apply (at_loop_head_inv fill positive other_tasks sensor_reader) in Hhead
    as [_ _ _ (f & Hf & Hdisk)].
  destruct (Hdisk sn idx sensor Hsn Hidx) as (g & Hg & _).
  unfold write_sensor_metadata, write_sensor_metadata_file, open_rw.
  rewrite (board_of_sensors_of sn idx sensor Hidx), Hf. simpl.
  unfold file_group, lookup2 in Hg.
  destruct (groups f !! board_name sn) as [b|]; [|done]. simpl.
  by eexists.
Qed.

(** X7. A sensor id that belongs to no board (outside [1 .. 24]):
    [write_sensor_metadata] raises [ValueError] (from [.item()] on an
    empty array) before it opens the file, and [get_recent_samples]
    returns [(None, None)]. *)
Theorem unknown_sensor_id (st : SensorRecorder) sensor_id
    (t0 t1 v0 v1 w : option num) (cycle : nat) (num_samples : Z) :
  ¬ (1 ≤ sensor_id ≤ 24) →
  write_sensor_metadata positive st sensor_id t0 t1 v0 v1 w cycle
  = Raise (ValueError "can only convert an array of size 1 to a Python scalar")
  ∧ get_recent_samples st sensor_id num_samples = Ok None.
Proof.
  intros Hout. split.
  - unfold write_sensor_metadata. by rewrite board_of_unknown.
  - unfold get_recent_samples, SERIAL_NUMBER_SENSOR_MAP. simpl.
    rewrite !bool_decide_eq_false_2; [done|..];
      rewrite !elem_of_cons, elem_of_nil; lia.
Qed.

(** *** The live buffer *)

Lemma sensor_on_some_board sn idx sensor :
  sensors_of sn !! idx = Some sensor →
  existsb id ((fun kv : string * list nat => bool_decide (sensor ∈ kv.2))
                <$> SERIAL_NUMBER_SENSOR_MAP) = true.
Proof.
  intros Hidx.
  assert (Hin : sensor ∈ [1; 2; 3; 7; 8; 9; 4; 5; 6; 10; 11; 12;
                          13; 14; 15; 19; 20; 21; 16; 17; 18; 22; 23; 24]).
  { revert Hidx. unfold sensors_of, SERIAL_NUMBER_SENSOR_MAP. simpl.
    repeat case_decide; subst; simpl; try done; intros Hidx;
      apply list_elem_of_lookup_2 in Hidx;
      rewrite !elem_of_cons, elem_of_nil in Hidx;
      rewrite !elem_of_cons, elem_of_nil; tauto. }
  repeat (apply elem_of_cons in Hin as [->|Hin]; [by vm_compute|]).
  by apply elem_of_nil in Hin.
Qed.

Lemma get_recent_samples_buffers (st : SensorRecorder) sn idx sensor
    (tb cb : list num) (num_samples : Z) :
  sensors_of sn !! idx = Some sensor →
  time_buffer st sn sensor = Some tb → cap_buffer st sn sensor = Some cb →
  get_recent_samples st sensor num_samples
  = Ok (if decide (length cb = 0) then None
        else
          let n := (num_samples `min` Z.of_nat (length cb))%Z in
          Some (last_slice n cb, last_slice n tb)).
Proof.
  intros Hidx Htb Hcb. unfold get_recent_samples.
  rewrite (sensor_on_some_board sn idx sensor Hidx).
  rewrite (board_of_sensors_of sn idx sensor Hidx). simpl.
  unfold cap_buffer, lookup2 in Hcb. rewrite Hcb.
  apply get_buffer_Ok in Htb. rewrite Htb. simpl.
  by case_decide.
Qed.

Lemma drop_window_seq (n k : nat) :
  k ≤ n `min` HISTORY_SIZE →
  drop (n `min` HISTORY_SIZE - k) (window n) = seq (n - k) k.
Proof.
  intros Hk. unfold window. rewrite drop_seq. f_equal; lia.
Qed.

(** X8. The live view of a sensor during a session: for a positive
    [num_samples], [get_recent_samples] returns the capacitance and time
    samples of the same most recent iterations, oldest first, as many as
    were asked for or as many as the ring buffer holds
    ([min(num_samples, loop_counter, HISTORY_SIZE)]); before the first
    iteration it returns [(None, None)]. *)
Theorem get_recent_samples_latest ctrls (st : SensorRecorder) sn idx sensor
    (num_samples : Z) :
  at_loop_head ctrls st → sn ∈ ctrls → sensors_of sn !! idx = Some sensor →
  (0 < num_samples)%Z →
  let k := Z.to_nat num_samples `min` (loop_counter st `min` HISTORY_SIZE) in
  get_recent_samples st sensor num_samples
  = Ok (if decide (loop_counter st = 0) then None
        else Some (cap_sample sn idx <$> seq (loop_counter st - k) k,
                   time_sample sn idx <$> seq (loop_counter st - k) k)).
Proof.
  pose proof HISTORY_SIZE_pos as Hpos.
  intros Hhead Hsn Hidx Hnum k.
  apply (at_loop_head_inv fill positive other_tasks sensor_reader) in Hhead
    as [_ _ Hbufs _].
  destruct (Hbufs sn idx sensor Hsn Hidx) as [Htb Hcb].
  rewrite (get_recent_samples_buffers st sn idx sensor _ _ num_samples
             Hidx Htb Hcb).
  rewrite !length_fmap, length_window. f_equal.
  destruct (decide (loop_counter st = 0)) as [Hz|Hz].
  - rewrite decide_True; [done | lia].
  - rewrite decide_False by lia. cbv zeta.
    assert (Hn : (num_samples `min` Z.of_nat (loop_counter st `min` HISTORY_SIZE))%Z
                 = Z.of_nat k) by (unfold k; lia).
    rewrite Hn. unfold last_slice.
    replace (0 <? Z.of_nat k)%Z with true
      by (symmetry; apply Z.ltb_lt; unfold k; lia).
    rewrite !length_fmap, length_window, Nat2Z.id.
    rewrite <- !fmap_drop, drop_window_seq by (unfold k; lia). done.
Qed.

(** X9. A [num_samples] that is not positive does not give an empty view:
    [list(buffer)[-n:]] with [n = 0] is the whole buffer, and with
    [n = -d] the buffer without its first [d] samples. *)
Theorem get_recent_samples_nonpositive ctrls (st : SensorRecorder)
    sn idx sensor (num_samples : Z) :
  at_loop_head ctrls st → sn ∈ ctrls → sensors_of sn !! idx = Some sensor →
  (num_samples ≤ 0)%Z → 0 < loop_counter st →
  let held := drop (Z.to_nat (- num_samples)) (window (loop_counter st)) in
  get_recent_samples st sensor num_samples
  = Ok (Some (cap_sample sn idx <$> held, time_sample sn idx <$> held)).
Proof.
  pose proof HISTORY_SIZE_pos as Hpos.
  intros Hhead Hsn Hidx Hnum Hstarted held.
  apply (at_loop_head_inv fill positive other_tasks sensor_reader) in Hhead
    as [_ _ Hbufs _].
  destruct (Hbufs sn idx sensor Hsn Hidx) as [Htb Hcb].
  rewrite (get_recent_samples_buffers st sn idx sensor _ _ num_samples
             Hidx Htb Hcb).
  rewrite !length_fmap, length_window. f_equal.
  rewrite decide_False by lia. cbv zeta.
  replace (num_samples `min` Z.of_nat (loop_counter st `min` HISTORY_SIZE))%Z
    with num_samples by lia.
  unfold last_slice.
  replace (0 <? num_samples)%Z with false by (symmetry; apply Z.ltb_ge; lia).
  by rewrite <- !fmap_drop.
Qed.

End recorder_progress.

(** *** The example sessions *)

Lemma example_reader_delivers :
  reader_delivers example_reader ["FT232H0"].
Proof.
  intros i sn Hsn. apply list_elem_of_singleton in Hsn as ->.
  eexists _, _. split; [reflexivity|].
  rewrite !length_fmap, !length_seq. split; vm_compute; lia.
Qed.

Lemma example_tasks_quiet stop_at i :
  i < stop_at → Recorder.CallStop ∉ example_tasks stop_at i.
Proof.
  intros Hi. unfold example_tasks. rewrite decide_False by lia.
  apply not_elem_of_nil.
Qed.

Lemma example_boards_NoDup : NoDup ["FT232H0"].
Proof. apply NoDup_singleton. Qed.

Lemma record_sensors_raises_only_without_boards_witness :
  ∃ r, Recorder.record_sensors 0%Z (Z.ltb 0) (example_tasks 3) example_reader
         250 (Recorder.init ["FT232H0"]) = Ok r.
Proof.
  apply (record_sensors_raises_only_without_boards 0%Z (Z.ltb 0)
           (example_tasks 3) example_reader ["FT232H0"] 250).
  - exact example_boards_NoDup.
  - exact example_reader_delivers.
  - discriminate.
Defined.

Lemma stop_ends_session_after_iteration_witness :
  Recorder.record_sensors 0%Z (Z.ltb 0) (example_tasks 3) example_reader
    3 (Recorder.init ["FT232H0"]) = Ok None
  ∧ ∃ st, Recorder.record_sensors 0%Z (Z.ltb 0) (example_tasks 3)
            example_reader (3 + 2 + 0) (Recorder.init ["FT232H0"])
          = Ok (Some st)
        ∧ Recorder.loop_counter st = 4 ∧ Recorder.recording st = false.
Proof.
  destruct (stop_ends_session_after_iteration 0%Z (Z.ltb 0) (example_tasks 3)
              example_reader ["FT232H0"] 3) as [Hrunning Hend].
  - exact example_boards_NoDup.
  - discriminate.
  - exact example_reader_delivers.
  - intros i Hi. by apply example_tasks_quiet.
  - split; [exact Hrunning|]. apply Hend.
    unfold example_tasks. rewrite decide_True by done. by left.
Defined.

Lemma after_flush_head :
  Recorder.at_loop_head 0%Z (Z.ltb 0) (example_tasks 100) example_reader
    ["FT232H0"] after_flush.
Proof.
  eapply Recorder.head_next;
    [exact (example_head 100 100 before_flush before_flush_run)
    | exact before_flush_recording | exact after_flush_run].
Qed.

Lemma disk_contents_witness :
  on_disk after_flush "FT232H0" 1 "time_data"
    = time_sample 0%Z example_reader "FT232H0" 0 <$> seq 1 100
  ∧ on_disk after_flush "FT232H0" 1 "cap_data"
    = cap_sample 0%Z example_reader "FT232H0" 0 <$> seq 1 100.
Proof.
  apply (disk_contents 0%Z (Z.ltb 0) (example_tasks 100) example_reader
           ["FT232H0"] after_flush "FT232H0" 0 1).
  - exact after_flush_head.
  - by left.
  - reflexivity.
Defined.

Lemma write_sensor_metadata_fields_witness :
  stored with_metadata "FT232H0" 1 "start_vol" = Some (Recorder.Scalar 10%Z)
  ∧ stored with_metadata "FT232H0" 1 "start_vol1" = None
  ∧ stored with_metadata "FT232H0" 2 "start_vol" = None.
Proof.
  destruct (write_sensor_metadata_fields (Z.ltb 0) opened with_metadata 1
              (Some 1000%Z) (Some 2000%Z) (Some 10%Z) (Some 4%Z) (Some 25%Z) 0)
    as (sn & Hsn & Hfields); [by vm_compute|].
  injection Hsn as <-. split_and!.
  - exact (Hfields "FT232H0" 1 "start_vol" 0 ltac:(repeat constructor)).
  - exact (Hfields "FT232H0" 1 "start_vol" 1 ltac:(repeat constructor)).
  - exact (Hfields "FT232H0" 2 "start_vol" 0 ltac:(repeat constructor)).
Defined.

Lemma before_stop_head :
  Recorder.at_loop_head 0%Z (Z.ltb 0) (example_tasks 3) example_reader
    ["FT232H0"] before_stop.
Proof. exact (example_head 3 3 before_stop before_stop_run). Qed.

Lemma write_sensor_metadata_succeeds_witness :
  ∃ st', Recorder.write_sensor_metadata (Z.ltb 0) before_stop 1
           (Some 5%Z) None None None None 2 = Ok st'.
Proof.
  apply (write_sensor_metadata_succeeds 0%Z (Z.ltb 0) (example_tasks 3)
           example_reader ["FT232H0"] before_stop "FT232H0" 0 1).
  - exact before_stop_head.
  - by left.
  - reflexivity.
Defined.

Lemma unknown_sensor_id_witness :
  Recorder.write_sensor_metadata (Z.ltb 0) opened 25
    (Some 5%Z) None None None None 0
  = Raise (ValueError "can only convert an array of size 1 to a Python scalar")
  ∧ Recorder.get_recent_samples opened 25 250 = Ok None.
Proof.
  apply (unknown_sensor_id (Z.ltb 0) opened 25). lia.
Defined.

Lemma get_recent_samples_latest_witness :
  Recorder.get_recent_samples before_stop 1 2
  = Ok (Some ([1; 2]%Z, [1000; 2000]%Z)).
Proof.
  apply (get_recent_samples_latest 0%Z (Z.ltb 0) (example_tasks 3)
           example_reader ["FT232H0"] before_stop "FT232H0" 0 1 2).
  - exact before_stop_head.
  - by left.
  - reflexivity.
  - lia.
Defined.

Lemma get_recent_samples_nonpositive_witness :
  Recorder.get_recent_samples before_stop 1 0
  = Ok (Some ([0; 1; 2]%Z, [0; 1000; 2000]%Z)).
Proof.
  apply (get_recent_samples_nonpositive 0%Z (Z.ltb 0) (example_tasks 3)
           example_reader ["FT232H0"] before_stop "FT232H0" 0 1 0).
  - exact before_stop_head.
  - by left.
  - reflexivity.
  - lia.
  - vm_compute. lia.
Defined.

(** * The sensor boards *)

(** A low byte and a high byte combine into the 16-bit word. *)
Lemma lor_shiftl_8 (lo hi : Z) :
  (0 ≤ lo < 256)%Z → (0 ≤ hi)%Z →
  Z.lor lo (Z.shiftl hi 8) = (lo + 256 * hi)%Z.
Proof.
  intros Hlo Hhi.
  assert (Hland : Z.land lo (Z.shiftl hi 8) = 0%Z).
  { apply Z.bits_inj'. intros n Hn. rewrite Z.land_spec, Z.bits_0.
    destruct (decide (n < 8)%Z) as [Hlt|Hge].
    - rewrite (Z.shiftl_spec_low hi 8 n) by done. apply andb_false_r.
    - rewrite (Z.bits_above_log2 lo n); [done | lia |].
      destruct (decide (lo = 0%Z)) as [->|Hnz]; [simpl; lia|].
      assert (Z.log2 lo < 8)%Z; [|lia].
      apply Z.log2_lt_pow2; lia. }
  pose proof (Z.add_lor_land lo (Z.shiftl hi 8)) as Hadd.
  rewrite Hland, Z.add_0_r in Hadd. rewrite Hadd.
  rewrite Z.shiftl_mul_pow2 by lia. lia.
Qed.

Section manager.
Context {time : Type}.
Context (controllers : list string).
Context (read_from : string → Z → nat → result (list Z)).
Context (time_time : nat → time).

Local Abbreviation read_sensor_data :=
  (MPR121.read_sensor_data controllers read_from time_time).

(** X10. One read of a board.  From a buffer of 24 bytes [read_sensor_data]
    returns six timestamps (the six calls of [time.time()], in order) and
    six values, one for each odd channel 1, 3, ..., 11: the value at
    position [k] is the little-endian 16-bit word of the bytes [4k + 2]
    and [4k + 3] of the buffer, [lo + 256 * hi], between 0 and 65535. *)
Theorem read_sensor_data_decodes (serial_number : string) (raw : list Z) :
  serial_number ∈ controllers →
  read_from serial_number DATA 24 = Ok raw →
  length raw = 24 →
  Forall (fun b => 0 ≤ b < 256)%Z raw →
  ∃ caps,
    read_sensor_data serial_number
      = Ok (time_time <$> seq 0 6, caps, serial_number)
    ∧ length caps = 6
    ∧ ∀ k lo hi, k < 6 →
        raw !! (4 * k + 2) = Some lo → raw !! (4 * k + 3) = Some hi →
        caps !! k = Some (lo + 256 * hi)%Z ∧ (0 ≤ lo + 256 * hi < 65536)%Z.
Proof.
  intros Hsn Hread Hlen Hbytes.
  unfold MPR121.read_sensor_data. rewrite decide_True by done.
  rewrite Hread. simpl.
  do 24 (destruct raw as [|? raw]; [done|]).
  destruct raw; [|done]. clear Hlen.
  eexists. split; [reflexivity|]. split; [reflexivity|].
  intros k lo hi Hk Hlo Hhi.
  repeat (apply Forall_cons in Hbytes as [? Hbytes]).
  do 6 (destruct k as [|k];
        [simpl in Hlo, Hhi; injection Hlo as ->; injection Hhi as ->;
         simpl; rewrite lor_shiftl_8 by lia; split; [done | lia]|]).
  lia.
Qed.

(** X11. The failures of a read: for a board that is not among the controllers
    [ValueError] is raised and the port is not read; a buffer of fewer
    than 24 bytes raises [IndexError]; an error of the transport is passed
    on. *)
Theorem read_sensor_data_errors (serial_number : string) :
  (serial_number ∉ controllers →
   read_sensor_data serial_number
   = Raise (ValueError ("No controller found for " +:+ serial_number)))
  ∧ (serial_number ∈ controllers →
     ∀ raw, read_from serial_number DATA 24 = Ok raw → length raw < 24 →
       read_sensor_data serial_number = Raise IndexError)
  ∧ (serial_number ∈ controllers →
     ∀ e, read_from serial_number DATA 24 = Raise e →
       read_sensor_data serial_number = Raise e).
Proof.
  unfold MPR121.read_sensor_data. split_and!.
  - intros Hsn. by rewrite decide_False.
  - intros Hsn raw Hread Hlen. rewrite decide_True by done.
    rewrite Hread. simpl.
    do 24 (destruct raw as [|? raw]; [reflexivity|]).
    simpl in Hlen. lia.
  - intros Hsn e Hread. rewrite decide_True by done. by rewrite Hread.
Qed.

Lemma read_sensor_data_six (serial_number : string) (raw : list Z) :
  serial_number ∈ controllers →
  read_from serial_number DATA 24 = Ok raw → length raw = 24 →
  ∃ t c, read_sensor_data serial_number = Ok (t, c, serial_number)
    ∧ length t = 6 ∧ length c = 6.
Proof.
  intros Hsn Hread Hlen.
  unfold MPR121.read_sensor_data. rewrite decide_True by done.
  rewrite Hread. simpl.
  do 24 (destruct raw as [|? raw]; [done|]).
  destruct raw; [|done]. by eexists _, _.
Qed.

End manager.

(** ** A session on the boards *)

Lemma length_sensors_of sn : length (sensors_of sn) ≤ 6.
Proof.
  unfold sensors_of, SERIAL_NUMBER_SENSOR_MAP. simpl.
  repeat case_decide; simpl; lia.
Qed.

(** The reads of the recording loop:
    [executor.submit(self.mpr121_manager.read_sensor_data, sn)] at
    iteration [i], when the ports answer [read_from i] and the clock shows
    [time_time i]; the recorder stores the timestamps and the values as
    they come. *)
Definition manager_reader {time num : Type} (controllers : list string)
    (read_from : nat → string → Z → nat → result (list Z))
    (time_time : nat → nat → time)
    (of_time : time → num) (of_value : Z → num)
    (i : nat) (sn : string) : result (list num * list num) :=
  match MPR121.read_sensor_data controllers (read_from i) (time_time i) sn with
  | Ok (local_time_data, local_cap_data, _) =>
      Ok (of_time <$> local_time_data, of_value <$> local_cap_data)
  | Raise e => Raise e
  end.

(** X12. Recording from real boards never raises: when the session has at
    least one board, every board of the session is one of the manager's
    controllers and every read of a port returns its 24 bytes, the
    recording loop runs without an exception, whatever the bytes are and
    whatever the control surface calls. *)
Theorem session_on_boards_never_raises {time num : Type}
    (fill : num) (positive : num → bool)
    (other_tasks : nat → list (@Recorder.call num))
    (controllers : list string)
    (read_from : nat → string → Z → nat → result (list Z))
    (time_time : nat → nat → time)
    (of_time : time → num) (of_value : Z → num)
    (ctrls : list string) (fuel : nat) :
  NoDup ctrls → ctrls ≠ [] → ctrls ⊆ controllers →
  (∀ i sn, sn ∈ ctrls →
     ∃ raw, read_from i sn DATA 24 = Ok raw ∧ length raw = 24) →
  ∃ r, Recorder.record_sensors fill positive other_tasks
         (manager_reader controllers read_from time_time of_time of_value)
         fuel (Recorder.init ctrls) = Ok r.
Proof.
  intros Hnd Hboards Hsub Hports. apply record_sensors_succeeds; [done..|].
  intros i sn Hsn. destruct (Hports i sn Hsn) as (raw & Hread & Hlen).
  destruct (read_sensor_data_six controllers (read_from i) (time_time i)
              sn raw) as (t & c & Hdata & Ht & Hc); [by apply Hsub | done..|].
  unfold manager_reader. rewrite Hdata. simpl.
  eexists _, _. split; [done|].
  rewrite !length_fmap, Ht, Hc.
  pose proof (length_sensors_of sn). lia.
Qed.

(** *** Example boards *)

(** A board whose 12 channels read 0, 257, 514, ..., sent low byte
    first. *)
Definition example_bytes : list Z :=
  Eval vm_compute in
    flat_map (fun chan => [Z.of_nat chan; Z.of_nat chan]) (seq 0 12).
Definition example_port (sn : string) (register : Z) (n : nat)
  : result (list Z) := Ok example_bytes.

Lemma read_sensor_data_decodes_witness :
  ∃ caps,
    MPR121.read_sensor_data ["FT232H0"] example_port Z.of_nat "FT232H0"
      = Ok (Z.of_nat <$> seq 0 6, caps, "FT232H0")
    ∧ caps !! 0 = Some (1 + 256 * 1)%Z
    ∧ caps !! 5 = Some (11 + 256 * 11)%Z.
Proof.
  destruct (read_sensor_data_decodes ["FT232H0"] example_port Z.of_nat
              "FT232H0" example_bytes)
    as (caps & Hrun & _ & Hcaps).
  - by left.
  - reflexivity.
  - reflexivity.
  - unfold example_bytes. repeat (constructor; [lia|]). constructor.
  - exists caps. split; [exact Hrun|]. split.
    + exact (proj1 (Hcaps 0 1%Z 1%Z ltac:(lia) eq_refl eq_refl)).
    + exact (proj1 (Hcaps 5 11%Z 11%Z ltac:(lia) eq_refl eq_refl)).
Defined.

Definition short_port (sn : string) (register : Z) (n : nat)
  : result (list Z) := Ok [1; 2; 3]%Z.

Lemma read_sensor_data_errors_witness :
  MPR121.read_sensor_data ["FT232H0"] example_port Z.of_nat "FT232H1"
  = Raise (ValueError "No controller found for FT232H1")
  ∧ MPR121.read_sensor_data ["FT232H0"] short_port Z.of_nat "FT232H0"
    = Raise IndexError.
Proof.
  split.
  - destruct (read_sensor_data_errors ["FT232H0"] example_port Z.of_nat
                "FT232H1") as (Hunknown & _ & _).
    apply Hunknown. intros Hin.
    apply list_elem_of_singleton in Hin. discriminate Hin.
  - destruct (read_sensor_data_errors ["FT232H0"] short_port Z.of_nat
                "FT232H0") as (_ & Hshort & _).
    apply (Hshort ltac:(by left) [1; 2; 3]%Z eq_refl). simpl. lia.
Defined.

Lemma session_on_boards_never_raises_witness :
  ∃ r, Recorder.record_sensors 0%Z (Z.ltb 0) (example_tasks 3)
         (manager_reader ["FT232H0"; "FT232H1"] (fun _ => example_port)
            (fun i k => Z.of_nat (10 * i + k)) id id)
         250 (Recorder.init ["FT232H0"]) = Ok r.
Proof.
  apply (session_on_boards_never_raises 0%Z (Z.ltb 0) (example_tasks 3)
           ["FT232H0"; "FT232H1"] (fun _ => example_port)
           (fun i k => Z.of_nat (10 * i + k)) id id ["FT232H0"] 250).
  - exact example_boards_NoDup.
  - discriminate.
  - intros sn Hsn. apply list_elem_of_singleton in Hsn as ->. by left.
  - intros i sn _. eexists. split; reflexivity.
Defined.

(** * Further properties of the analysis *)

(** ** Selections *)

Lemma elem_of_select {A : Type} (l : list A) (keep : list bool) (x : A) :
  x ∈ select l keep → ∃ p, l !! p = Some x ∧ keep !! p = Some true.
Proof.
  revert keep. induction l as [|a l IH]; intros [|b keep] Hx; simpl in Hx;
    try by apply elem_of_nil in Hx.
  destruct b.
  - apply elem_of_cons in Hx as [->|Hx]; [by exists 0|].
    destruct (IH keep Hx) as (p & ? & ?). by exists (S p).
  - destruct (IH keep Hx) as (p & ? & ?). by exists (S p).
Qed.

Lemma elem_of_np_where_from (i j : nat) (mask : list bool) :
  j ∈ np_where_from i mask → i ≤ j ∧ mask !! (j - i) = Some true.
Proof.
  revert i. induction mask as [|b mask IH]; intros i Hj; simpl in Hj;
    [by apply elem_of_nil in Hj|].
  assert (Hrest : j ∈ np_where_from (S i) mask →
                  i ≤ j ∧ (b :: mask) !! (j - i) = Some true).
  { intros Hin. destruct (IH (S i) Hin) as [Hle Hm]. split; [lia|].
    replace (j - i) with (S (j - S i)) by lia. done. }
  destruct b; [|by apply Hrest].
  apply elem_of_cons in Hj as [->|Hj]; [|by apply Hrest].
  split; [done|]. by rewrite Nat.sub_diag.
Qed.

Lemma sorted_lookup_lt (l : list Z) (p q : nat) (a b : Z) :
  StronglySorted Z.lt l → l !! p = Some a → l !! q = Some b → p < q →
  (a < b)%Z.
Proof.
  intros Hs. revert p q. induction Hs as [|x l Hs IH Hall];
    intros p q Hp Hq Hpq; [done|].
  destruct q as [|q]; [lia|]. simpl in Hq.
  destruct p as [|p]; simpl in Hp.
  - injection Hp as <-. rewrite Forall_forall in Hall. apply Hall.
    by eapply list_elem_of_lookup_2.
  - apply (IH p q); [done | done | lia].
Qed.

(** ** The envelope-based detection *)

(** The trace drops by more than 15 counts into sample [i]. *)
Definition drop_at (trace : list Z) (i : Z) : Prop :=
  (1 ≤ i < Z.of_nat (length trace))%Z
  ∧ ∃ a b, trace !! (Z.to_nat i - 1) = Some a ∧ trace !! Z.to_nat i = Some b
           ∧ (b + 15 < a)%Z.

Lemma elem_of_downs (trace : list Z) (i : Z) :
  i ∈ downs trace → drop_at trace i.
Proof.
  unfold downs, np_where.
  intros (j & -> & Hj)%list_elem_of_fmap.
  apply elem_of_np_where_from in Hj as [_ Hmask].
  rewrite Nat.sub_0_r in Hmask.
  apply lookup_zip_with_Some in Hmask as (a & b & Hlt & Ha & Hb).
  symmetry in Hlt. apply Z.ltb_lt in Hlt.
  apply lookup_take_Some in Ha as [Ha Hjlt].
  rewrite lookup_drop in Hb.
  split; [lia|]. exists a, b.
  replace (Z.to_nat (Z.of_nat j + 1) - 1) with j by lia.
  replace (Z.to_nat (Z.of_nat j + 1)) with (1 + j) by lia.
  done.
Qed.

Section hilbert_properties.
Context {signal coeffs : Type}.
Context (butter : nat → Q → bool → Q → result coeffs).
Context (filtfilt : coeffs → signal → result signal).
Context (of_trace : list Z → signal).
Context (envelope_mask : signal → list bool).

Local Abbreviation hilbert_detect :=
  (hilbert_detect signal coeffs butter filtfilt of_trace envelope_mask).
Local Abbreviation kept_candidates :=
  (kept_candidates signal coeffs butter filtfilt of_trace envelope_mask).
Local Abbreviation filtered_data :=
  (filtered_data signal coeffs butter filtfilt of_trace).

Lemma hilbert_detect_Ok (fs : option Q) (trace : list Z) (d : detection) :
  hilbert_detect fs trace = Ok (Some d) →
  ∃ fs' kept keep,
    fs = Some fs'
    ∧ kept_candidates fs' trace = Ok kept
    ∧ 3 ≤ length kept
    ∧ Forall2 (fun ix b =>
                 continuous (Qtrunc ((1 # 2) * fs')) kept ix.1 ix.2 = Ok b)
        (enumerate kept) keep
    ∧ d = mk_detection
            ((fun i => inject_Z i / fs')%Q <$> select kept keep)
            (IndexArray (select kept keep))
            (length ((fun i => inject_Z i / fs')%Q <$> select kept keep)).
Proof.
  unfold Analysis.hilbert_detect. intros Hrun. destruct fs as [fs|]; [|done].
  destruct (kept_candidates fs trace) as [kept|] eqn:Hkept;
    simpl in Hrun; [|done].
  case_decide; [done|].
  unfold continuity_filter in Hrun.
  destruct (mapM _ (enumerate kept)) as [keep|] eqn:Hkeep; simpl in Hrun;
    [|done].
  apply mapM_result_Forall2 in Hkeep.
  exists fs, kept, keep. split_and!; [done | done | lia | | by inversion Hrun].
  eapply Forall2_impl; [exact Hkeep|]. by intros [i idx] b.
Qed.

Lemma kept_candidates_Ok (fs : Q) (trace : list Z) (kept : list Z) :
  kept_candidates fs trace = Ok kept →
  ∃ x, filtered_data fs trace = Ok x
    ∧ ∀ i, i ∈ kept →
        drop_at trace i ∧ np_index (envelope_mask x) i = Ok true.
Proof.
  unfold Analysis.kept_candidates, candidates_of. intros Hrun.
  destruct (filtered_data fs trace) as [x|]; simpl in Hrun; [|done].
  destruct (mapM _ (downs trace)) as [keep|] eqn:Hkeep; simpl in Hrun;
    [|done].
  apply mapM_result_Forall2 in Hkeep.
  inversion Hrun; subst kept; clear Hrun.
  exists x. split; [done|]. intros i Hi.
  assert (Hsel : i ∈ select (downs trace) keep)
    by (eapply elem_of_sublist; [exact Hi | apply dedup_sublist]).
  clear Hi. apply elem_of_select in Hsel as (p & Hp & Hk).
  split.
  - apply elem_of_downs. by eapply list_elem_of_lookup_2.
  - destruct (Forall2_lookup_l _ _ _ _ _ Hkeep Hp) as (b & Hb & Hidx).
    congruence.
Qed.

(** X13. Every lick the envelope-based algorithm reports is a sample at which
    the trace has dropped by more than 15 counts from the sample before
    and at which the envelope of the filtered signal is above its
    threshold; its time is its index divided by the sampling rate, and
    [num_licks] counts the reported indices. *)
Theorem hilbert_licks_are_gated_drops (fs : option Q) (trace : list Z)
    (d : detection) :
  hilbert_detect fs trace = Ok (Some d) →
  ∃ fs' x,
    fs = Some fs' ∧ filtered_data fs' trace = Ok x
    ∧ lick_times d
      = (fun i => inject_Z i / fs')%Q <$> indices_list (lick_indices d)
    ∧ num_licks d = length (indices_list (lick_indices d))
    ∧ ∀ i, i ∈ indices_list (lick_indices d) →
        drop_at trace i ∧ np_index (envelope_mask x) i = Ok true.
Proof.
  intros (fs' & kept & keep & -> & Hkept & _ & _ & ->)%hilbert_detect_Ok.
  destruct (kept_candidates_Ok fs' trace kept Hkept) as (x & Hx & Hgated).
  exists fs', x. simpl. split_and!; [done | done | done | |].
  - by rewrite length_fmap.
  - intros i Hi. apply Hgated.
    eapply elem_of_sublist; [exact Hi | apply select_sublist].
Qed.

(** X14. No isolated lick is reported: the algorithm reports nothing unless at
    least three candidates survive the deduplication, and every reported
    lick has a neighbouring surviving candidate (the one before or the one
    after it) less than [int(0.5 * fs)] samples away. *)
Theorem hilbert_licks_have_neighbours (fs : option Q) (trace : list Z)
    (d : detection) :
  hilbert_detect fs trace = Ok (Some d) →
  ∃ fs' kept,
    fs = Some fs' ∧ kept_candidates fs' trace = Ok kept ∧ 3 ≤ length kept
    ∧ ∀ i, i ∈ indices_list (lick_indices d) →
        i ∈ kept
        ∧ ∃ j, j ∈ kept ∧ j ≠ i
               ∧ (Z.abs (i - j) < Qtrunc ((1 # 2) * fs'))%Z.
Proof.
  intros (fs' & kept & keep & -> & Hkept & Hlen & Hkeep & ->)%hilbert_detect_Ok.
  exists fs', kept. split_and!; [done..|]. simpl. intros i Hi.
  pose proof (kept_candidates_sorted butter filtfilt of_trace envelope_mask
                fs' trace kept Hkept) as Hsorted.
  apply elem_of_select in Hi as (p & Hp & Hk).
  split; [by eapply list_elem_of_lookup_2|].
  assert (Hpe : enumerate kept !! p = Some (p, i)).
  { apply list_elem_of_lookup_2 in Hp as Hin.
    unfold enumerate. apply lookup_zip_with_Some. exists p, i.
    split_and!; [done | | done].
    apply lookup_seq. split; [done|]. by eapply lookup_lt_Some. }
  destruct (Forall2_lookup_l _ _ _ _ _ Hkeep Hpe) as (b & Hb & Hcont).
  rewrite Hk in Hb. injection Hb as <-. simpl in Hcont.
  set (max_dist := Qtrunc ((1 # 2) * fs')) in *.
  assert (Hnear : ∀ q j, kept !! q = Some j → q ≠ p →
            near i j max_dist = true →
            ∃ j, j ∈ kept ∧ j ≠ i ∧ (Z.abs (i - j) < max_dist)%Z).
  { intros q j Hq Hqp Hn. exists j. split_and!.
    - by eapply list_elem_of_lookup_2.
    - destruct (decide (q < p)) as [Hlt|Hge].
      + pose proof (sorted_lookup_lt kept q p j i Hsorted Hq Hp Hlt). lia.
      + pose proof (sorted_lookup_lt kept p q i j Hsorted Hp Hq ltac:(lia)).
        lia.
    - unfold near in Hn. by apply Z.ltb_lt in Hn. }
  unfold continuous, index in Hcont.
  destruct (decide (p = 0)) as [->|Hp0].
  - destruct (kept !! (0 + 1)) as [ir|] eqn:Hir; simpl in Hcont; [|done].
    destruct (kept !! 2) as [ir2|]; simpl in Hcont; [|done].
    injection Hcont as Hcont. apply andb_true_iff in Hcont as [Hn _].
    apply (Hnear (0 + 1) ir); [exact Hir | lia | done].
  - destruct (decide (p = length kept - 1)) as [Hlast|Hmid].
    + destruct (kept !! (p - 1)) as [il|] eqn:Hil; simpl in Hcont; [|done].
      destruct (kept !! (p - 2)) as [il2|]; simpl in Hcont; [|done].
      injection Hcont as Hcont. apply andb_true_iff in Hcont as [Hn _].
      apply (Hnear (p - 1) il); [exact Hil | lia | done].
    + destruct (kept !! (p - 1)) as [il|] eqn:Hil; simpl in Hcont; [|done].
      destruct (kept !! (p + 1)) as [ir|] eqn:Hir; simpl in Hcont; [|done].
      destruct (near i il max_dist) eqn:Hnl.
      * apply (Hnear (p - 1) il); [exact Hil | lia | done].
      * simpl in Hcont. destruct (near i ir max_dist) eqn:Hnr; [|done].
        apply (Hnear (p + 1) ir); [exact Hir | lia | done].
Qed.

End hilbert_properties.

Lemma hilbert_licks_are_gated_drops_witness :
  ∃ d, Analysis.hilbert_detect (list Z) unit plain_butter plain_filtfilt id
         plain_mask (Some 10%Q) toothed_trace = Ok (Some d)
    ∧ indices_list (lick_indices d) = [1; 3; 5]%Z
    ∧ num_licks d = 3
    ∧ ∀ i, i ∈ indices_list (lick_indices d) → drop_at toothed_trace i.
Proof.
  destruct (Analysis.hilbert_detect (list Z) unit plain_butter plain_filtfilt
              id plain_mask (Some 10%Q) toothed_trace)
    as [[d|]|e] eqn:Hd; [|by vm_compute in Hd..].
  destruct (hilbert_licks_are_gated_drops plain_butter plain_filtfilt id
              plain_mask (Some 10%Q) toothed_trace d Hd)
    as (fs' & x & _ & _ & _ & Hnum & Hgated).
  exists d. split; [done|].
  vm_compute in Hd. injection Hd as <-.
  split_and!; [reflexivity | exact Hnum |].
  intros i Hi. by apply Hgated.
Defined.

Lemma hilbert_licks_have_neighbours_witness :
  ∃ d, Analysis.hilbert_detect (list Z) unit plain_butter plain_filtfilt id
         plain_mask (Some 10%Q) toothed_trace = Ok (Some d)
    ∧ ∃ kept, 3 ≤ length kept
        ∧ ∀ i, i ∈ indices_list (lick_indices d) →
            ∃ j, j ∈ kept ∧ j ≠ i ∧ (Z.abs (i - j) < 5)%Z.
Proof.
  destruct (Analysis.hilbert_detect (list Z) unit plain_butter plain_filtfilt
              id plain_mask (Some 10%Q) toothed_trace)
    as [[d|]|e] eqn:Hd; [|by vm_compute in Hd..].
  destruct (hilbert_licks_have_neighbours plain_butter plain_filtfilt id
              plain_mask (Some 10%Q) toothed_trace d Hd)
    as (fs' & kept & Hfs & _ & Hlen & Hnear).
  injection Hfs as <-.
  exists d. split; [done|]. exists kept. split; [exact Hlen|].
  intros i Hi. destruct (Hnear i Hi) as (_ & j & Hj & Hne & Hdist).
  exists j. split_and!; [exact Hj | exact Hne | exact Hdist].
Defined.

(** ** The analysis window of a sensor *)

Lemma np_index_Ok_nonempty {A : Type} (l : list A) (i : Z) (x : A) :
  np_index l i = Ok x → 0 < length l.
Proof.
  unfold np_index. destruct l as [|a l]; [|simpl; lia].
  cbv zeta. intros Hi.
  destruct ((0 <=? _) && _)%Z eqn:Hc; [|done].
  apply andb_true_iff in Hc as [H1 H2].
  apply Z.leb_le in H1. apply Z.ltb_lt in H2. simpl in H1, H2. lia.
Qed.

Lemma np_index_nil {A : Type} (i : Z) : np_index (@nil A) i = Raise IndexError.
Proof.
  destruct (np_index (@nil A) i) as [x|e] eqn:Hi.
  - apply np_index_Ok_nonempty in Hi. simpl in Hi. lia.
  - revert Hi. unfold np_index. cbv zeta.
    destruct ((0 <=? _) && _)%Z; [done|]. by intros [= <-].
Qed.

Lemma nearest_bound (time : list Q) (t : Q) (i : nat) :
  nearest time t = Ok i → i < length time.
Proof.
  unfold nearest. intros Hi%argmin_bound. by rewrite length_fmap in Hi.
Qed.

Lemma length_slice {A : Type} (lo hi : nat) (l : list A) :
  length (slice lo hi l) = (hi - lo) `min` (length l - lo).
Proof. unfold slice. by rewrite length_take, length_drop. Qed.

(** X15. The truncated recording.  When the truncation of a sensor succeeds,
    the window it used is not empty and lies inside the recording:
    [used_start_idx < used_stop_idx < len(time_data)].  The truncated time
    axis is [time_data[start:stop] - time_data[start]] and the truncated
    trace [cap_data[start:stop]]: the sample nearest to the stop time is
    itself left out, and the time axis has [stop - start] samples. *)
Theorem process_sensor_window board_id sensor_id (sd : sensor_data)
    (data : subject_data) (w w' : world) (t : list Q) (c : list Z) :
  run (process_sensor board_id sensor_id sd) w = (Ok data, w') →
  time_data sd = Some t → cap_data sd = Some c →
  ∃ t0, t !! used_start_idx data = Some t0
    ∧ used_start_idx data < used_stop_idx data < length t
    ∧ s_time_data data
      = (fun x => x - t0)%Q
          <$> slice (used_start_idx data) (used_stop_idx data) t
    ∧ s_cap_data data = slice (used_start_idx data) (used_stop_idx data) c
    ∧ length (s_time_data data) = used_stop_idx data - used_start_idx data.
Proof.
  unfold process_sensor. simpl.
  destruct (run (resolve_window board_id sensor_id sd) w)
    as [[[start_time stop_time]|e] w1]; [|done].
  simpl. intros Hrun Ht Hc. injection Hrun as Hrun _.
  rewrite Ht, Hc in Hrun. simpl in Hrun.
  destruct (nearest t start_time) as [start_idx|] eqn:Hstart;
    simpl in Hrun; [|done].
  destruct (nearest t stop_time) as [stop_idx|] eqn:Hstop;
    simpl in Hrun; [|done].
  unfold index in Hrun at 1.
  destruct (t !! start_idx) as [t0|] eqn:Ht0; simpl in Hrun; [|done].
  destruct (np_index _ (-1)) as [t_last|] eqn:Hlast; simpl in Hrun; [|done].
  destruct (np_index _ 0) as [t_first|]; simpl in Hrun; [|done].
  destruct (match dict_get "stop_vol" (fields sd) with
            | Some _ => _ | None => _ end) as [fields'|];
    simpl in Hrun; [|done].
  injection Hrun as <-. simpl.
  apply nearest_bound in Hstart, Hstop.
  apply np_index_Ok_nonempty in Hlast.
  rewrite length_fmap, length_slice in Hlast.
  exists t0. split_and!; [done | lia | lia | done | done |].
  rewrite length_fmap, length_slice. lia.
Qed.

(** X16. A sensor group without a [time_data] array, which is what a session
    that ends before the first flush leaves in the file, cannot be
    truncated: [KeyError('time_data')] is raised. *)
Theorem process_sensor_without_samples board_id sensor_id (sd : sensor_data)
    (w : world) :
  time_data sd = None →
  ∃ w', run (process_sensor board_id sensor_id sd) w
        = (Raise (KeyError "time_data"), w').
Proof.
  intros Ht. unfold process_sensor, resolve_window, time_at. rewrite Ht.
  pose proof (last_start_spec (fields sd).*1) as Hlast.
  destruct (last_start (fields sd).*1) as [k|]; simpl.
  - destruct Hlast as [Hk _].
    destruct (dict_get_is_Some k (fields sd) Hk) as [start_time Hstart].
    rewrite Hstart. simpl.
    destruct (dict_get (stop_key k) (fields sd)); simpl; by eexists.
  - by eexists.
Qed.

(** X17. A window that is empty raises [IndexError]: when the sample nearest to
    the stop time is not after the sample nearest to the start time (a
    start time at or after the end of the recording, a stop time before
    the start time, a recording of one sample), the truncated time axis is
    empty and [time_data[-1]] fails. *)
Theorem process_sensor_empty_window board_id sensor_id (sd : sensor_data)
    (w w1 : world) (t : list Q) (c : list Z) (start_time stop_time : Q)
    (start_idx stop_idx : nat) :
  time_data sd = Some t → cap_data sd = Some c →
  run (resolve_window board_id sensor_id sd) w
    = (Ok (start_time, stop_time), w1) →
  nearest t start_time = Ok start_idx → nearest t stop_time = Ok stop_idx →
  stop_idx ≤ start_idx →
  run (process_sensor board_id sensor_id sd) w = (Raise IndexError, w1).
Proof.
  intros Ht Hc Hwindow Hstart Hstop Hle.
  unfold process_sensor. simpl. rewrite Hwindow. simpl.
  rewrite Ht, Hc. simpl. rewrite Hstart, Hstop. simpl.
  apply nearest_bound in Hstart.
  destruct (lookup_lt_is_Some_2 t start_idx Hstart) as [t0 Ht0].
  unfold index. rewrite Ht0. simpl.
  unfold slice. replace (stop_idx - start_idx) with 0 by lia.
  rewrite take_0, fmap_nil. cbn [mbind result_bind].
  by rewrite np_index_nil.
Qed.

(** A sensor whose only start time lies after the end of the recording. *)
Definition late_start_sensor : sensor_data :=
  mk_sensor_data (Some example_times) (Some example_trace)
    [("start_time", 1 # 2)]%Q.

Definition no_samples_sensor : sensor_data :=
  mk_sensor_data None None [("start_time", 1 # 2)]%Q.

Lemma process_sensor_window_witness :
  ∃ data,
    run (process_sensor "board_FT232H0" "sensor_1" two_cycle_sensor)
      empty_world = (Ok data, empty_world)
    ∧ used_start_idx data = 3 ∧ used_stop_idx data = 16
    ∧ length (s_time_data data) = 13
    ∧ s_cap_data data = [8; 6; 4; 6; 8; 10; 10; 10; 8; 6; 4; 2; 6]%Z.
Proof.
  destruct (run (process_sensor "board_FT232H0" "sensor_1" two_cycle_sensor)
              empty_world) as [[data|e] w1] eqn:Hrun; [|by vm_compute in Hrun].
  destruct (process_sensor_window "board_FT232H0" "sensor_1" two_cycle_sensor
              data empty_world w1 example_times example_trace Hrun
              eq_refl eq_refl) as (t0 & _ & _ & _ & Hcap & Hlen).
  exists data. vm_compute in Hrun. injection Hrun as <- <-.
  split_and!; [reflexivity | reflexivity | reflexivity | exact Hlen | exact Hcap].
Defined.

Lemma process_sensor_without_samples_witness :
  ∃ w', run (process_sensor "board_FT232H0" "sensor_1" no_samples_sensor)
          empty_world = (Raise (KeyError "time_data"), w').
Proof.
  apply (process_sensor_without_samples "board_FT232H0" "sensor_1"
           no_samples_sensor empty_world).
  reflexivity.
Defined.

Lemma process_sensor_empty_window_witness :
  run (process_sensor "board_FT232H0" "sensor_1" late_start_sensor)
    empty_world = (Raise IndexError, empty_world).
Proof.
  apply (process_sensor_empty_window "board_FT232H0" "sensor_1"
           late_start_sensor empty_world empty_world
           example_times example_trace (1 # 2)%Q
           (List.last example_times 0%Q) 17 17);
    [reflexivity | reflexivity | by vm_compute | by vm_compute
    | by vm_compute | lia].
Defined.

(** ** From sensors to animals *)

Lemma sensor_in_range (sensor : nat) :
  1 ≤ sensor ≤ 24 →
  sensor ∈ [1; 2; 3; 4; 5; 6; 7; 8; 9; 10; 11; 12; 13; 14; 15; 16; 17; 18;
            19; 20; 21; 22; 23; 24].
Proof.
  intros Hs. do 25 (destruct sensor as [|sensor];
                    [try lia; rewrite !elem_of_cons; tauto|]).
  lia.
Qed.

Lemma board_of_sensor_known (sensor : nat) (board_id : option string) :
  1 ≤ sensor ≤ 24 →
  board_of_sensor sensor board_id = board_of_sensor sensor None
  ∧ is_Some (board_of_sensor sensor None).
Proof.
  intros Hin%sensor_in_range.
  repeat (apply elem_of_cons in Hin as [->|Hin]; [by vm_compute; eauto|]).
  by apply elem_of_nil in Hin.
Qed.

Lemma board_of_sensor_unknown (sensor : nat) (board_id : option string) :
  ¬ (1 ≤ sensor ≤ 24) → board_of_sensor sensor board_id = board_id.
Proof.
  intros Hout. unfold board_of_sensor.
  rewrite !bool_decide_eq_false_2; [done|..];
    rewrite !elem_of_cons, elem_of_nil; lia.
Qed.

(** X18. The analysis and the recorder agree on the board of a sensor: the
    board group in which [filter_data] looks for a sensor is the one in
    which the recorder, by [SERIAL_NUMBER_SENSOR_MAP], has stored it. *)
Theorem analysis_board_matches_recorder (sensor : nat) (sn : string)
    (board_id : option string) :
  Recorder.board_of sensor = Ok sn →
  board_of_sensor sensor board_id = Some (board_name sn).
Proof.
  intros Hboard.
  destruct (decide (1 ≤ sensor ≤ 24)) as [Hin|Hout].
  - apply sensor_in_range in Hin. revert Hboard.
    repeat (apply elem_of_cons in Hin as [->|Hin];
            [vm_compute; by intros [= <-]|]).
    by apply elem_of_nil in Hin.
  - by rewrite board_of_unknown in Hboard.
Qed.

(** *** The names of the cycles *)

Lemma pretty_N_char_digit (r : N) :
  (r < 10)%N → (pretty_N_char r, Z.of_N r) ∈ digit_values.
Proof.
  intros Hr.
  assert (r = 0 ∨ r = 1 ∨ r = 2 ∨ r = 3 ∨ r = 4 ∨ r = 5 ∨ r = 6 ∨ r = 7
          ∨ r = 8 ∨ r = 9)%N as Hcases by lia.
  unfold digit_values. rewrite !elem_of_cons.
  repeat (destruct Hcases as [->|Hcases]; [simpl; tauto|]).
  subst r. simpl. tauto.
Qed.

(** What stdpp's printer of numbers writes is a numeral of the number. *)
Lemma pretty_N_go_numeral (n : N) (tail : string) :
  (0 < n)%N →
  ∃ s, pretty_N_go n tail = s +:+ tail ∧ numeral s (Z.of_N n).
Proof.
  revert tail. induction (N.lt_wf_0 n) as [n _ IH]. intros tail Hn.
  rewrite pretty_N_go_step by done.
  pose proof (pretty_N_char_digit (n `mod` 10)%N) as Hdigit.
  assert (Hmod : (n `mod` 10 < 10)%N) by (apply N.mod_lt; lia).
  specialize (Hdigit Hmod).
  pose proof (N.div_mod n 10) as Hdiv.
  destruct (decide (n `div` 10 = 0)%N) as [Hsmall|Hlarge].
  - rewrite Hsmall, pretty_N_go_0.
    exists (String (pretty_N_char (n `mod` 10)) ""). split; [done|].
    replace (Z.of_N n) with (Z.of_N (n `mod` 10)) by lia.
    by apply numeral_digit.
  - destruct (IH (n `div` 10)%N) with
      (tail := String (pretty_N_char (n `mod` 10)) tail)
      as (s & Hs & Hnum).
    + apply N.div_lt; lia.
    + lia.
    + exists (s +:+ String (pretty_N_char (n `mod` 10)) "").
      split; [by rewrite Hs, string_app_assoc|].
      replace (Z.of_N n)
        with (10 * Z.of_N (n `div` 10) + Z.of_N (n `mod` 10))%Z by lia.
      by apply numeral_snoc.
Qed.

Lemma pretty_nat_numeral (n : nat) : 0 < n → numeral (pretty n) (Z.of_nat n).
Proof.
  intros Hn. unfold pretty, pretty_nat, pretty, pretty_N.
  rewrite decide_False by lia.
  destruct (pretty_N_go_numeral (N.of_nat n) "") as (s & -> & Hs); [lia|].
  rewrite string_app_nil_r. by rewrite nat_N_Z in Hs.
Qed.

(** X24. The analysis reads the number of a cycle back from the names the
    recorder writes: the start-time field of cycle 0, the bare name,
    counts as -1 and that of a later cycle as the number of the cycle, so
    that the field with the highest number is that of the last cycle for
    which a start time was written; and the stop-time field that the
    analysis looks up for it is the one the recorder writes for the same
    cycle. *)
Theorem cycle_names_read_back (cycle : nat) :
  match_start_time (Recorder.cycle_name "start_time" cycle)
  = Some (if decide (cycle = 0) then (-1)%Z else Z.of_nat cycle)
  ∧ stop_key (Recorder.cycle_name "start_time" cycle)
    = Recorder.cycle_name "stop_time" cycle.
Proof.
  unfold Recorder.cycle_name.
  destruct (decide (cycle = 0)) as [->|Hcycle]; [done|].
  split; [|apply stop_key_start_time].
  apply match_start_time_spec.
  rewrite <- (string_app_nil_r (pretty cycle)).
  apply cycle_field; [apply pretty_nat_numeral; lia | by left].
Qed.

(** *** The dict that the truncation loop leaves *)

(** The datasets among the entries of [data_dict] are stored under
    [comments]. *)
Definition datasets_are_comments (data_dict : list (string * dict_node))
  : Prop :=
  ∀ name, dict_get name data_dict = Some DictDataset → name = "comments".

Lemma board_name_not_comments (sn : string) : board_name sn ≠ "comments".
Proof.
  unfold board_name.
  change ("board_" +:+ sn) with (String "b" ("oard_" +:+ sn)). discriminate.
Qed.

(** When the truncation loop succeeds, every top-level dataset of the raw
    file is the [comments] field, and [data_dict] holds a dataset under the
    key of a dataset and a dict under the key of a board group. *)
Lemma process_boards_nodes (raw : list top_level) data_dict w w' :
  run (process_boards raw) w = (Ok data_dict, w') →
  datasets_are_comments data_dict
  ∧ ∀ t, t ∈ raw →
      match t with
      | TopDataset name =>
          name = "comments" ∧ dict_get name data_dict = Some DictDataset
      | BoardGroup sn _ =>
          ∃ board, dict_get (board_name sn) data_dict = Some (DictBoard board)
      end.
Proof.
  revert data_dict w.
  induction raw as [|t raw IH]; intros data_dict w Hrun.
  - simpl in Hrun. injection Hrun as <- <-. split; [done|].
    intros t Ht. by apply elem_of_nil in Ht.
  - cbn [process_boards] in Hrun. rewrite run_bind in Hrun.
    assert (Hhead : ∃ node w1 rest_dict,
              run (process_boards raw) w1 = (Ok rest_dict, w')
              ∧ data_dict = (key_of t, node) :: rest_dict
              ∧ match t with
                | TopDataset name => name = "comments" ∧ node = DictDataset
                | BoardGroup _ _ => ∃ board, node = DictBoard board
                end).
    { destruct t as [sn sensors|name].
      - rewrite run_bind in Hrun.
        destruct (run (process_sensors (board_name sn) sensors) w)
          as [[board|e] w1]; [|done].
        cbn [mret M_ret run] in Hrun. rewrite run_bind in Hrun.
        destruct (run (process_boards raw) w1) as [[rest_dict|e] w2] eqn:Hrest;
          [|done].
        cbn [mret M_ret run] in Hrun. injection Hrun as <- <-.
        exists (DictBoard board), w1, rest_dict. eauto.
      - destruct (decide (name = "comments")) as [->|Hname]; [|done].
        cbn [mret M_ret run] in Hrun. rewrite run_bind in Hrun.
        destruct (run (process_boards raw) w) as [[rest_dict|e] w2] eqn:Hrest;
          [|done].
        cbn [mret M_ret run] in Hrun. injection Hrun as <- <-.
        exists DictDataset, w, rest_dict. eauto. }
    destruct Hhead as (node & w1 & rest_dict & Hrest & -> & Hnode).
    destruct (IH rest_dict w1 Hrest) as [Hdatasets Hnodes].
    assert (Hkey : key_of t = "comments" → node = DictDataset).
    { destruct t as [sn sensors|name]; simpl.
      - intros Hsn. by apply board_name_not_comments in Hsn.
      - by destruct Hnode as [_ ->]. }
    split.
    + intros name. simpl. case_decide as Hname; [|apply Hdatasets].
      intros [= ->]. subst name.
      destruct t as [sn sensors|name]; simpl.
      * by destruct Hnode.
      * by destruct Hnode as [-> _].
    + intros t' [->|Ht']%elem_of_cons.
      * destruct t as [sn sensors|name]; simpl; rewrite decide_True by done.
        -- destruct Hnode as [board ->]. by exists board.
        -- destruct Hnode as [-> ->]. done.
      * specialize (Hnodes t' Ht').
        destruct t' as [sn' sensors'|name']; simpl.
        -- case_decide as Hsame; [|done].
           destruct t as [sn sensors|name].
           ++ destruct Hnode as [board ->]. by exists board.
           ++ destruct Hnode as [-> _]. simpl in Hsame.
              by apply board_name_not_comments in Hsame.
        -- destruct Hnodes as [-> Hget]. split; [done|].
           case_decide as Hsame; [|done]. by rewrite (Hkey (eq_sym Hsame)).
Qed.

(** *** The loop over the rows *)

Lemma partition_board_not_dataset data_dict sensor board_id b :
  datasets_are_comments data_dict → 1 ≤ sensor ≤ 24 →
  board_of_sensor sensor board_id = Some b →
  dict_get b data_dict ≠ Some DictDataset.
Proof.
  intros Hdatasets Hin%sensor_in_range Hb Hget.
  apply Hdatasets in Hget. subst b. revert Hb.
  repeat (apply elem_of_cons in Hin as [->|Hin]; [by vm_compute|]).
  by apply elem_of_nil in Hin.
Qed.

(** One row whose board is not a dataset: the loop goes on with the
    board of the row. *)
Lemma by_animal_cons data_dict sensor animal rest board_id b acc w :
  board_of_sensor sensor board_id = Some b →
  dict_get b data_dict ≠ Some DictDataset →
  ∃ acc' w1,
    run (by_animal data_dict ((sensor, animal) :: rest) board_id acc) w
    = run (by_animal data_dict rest (Some b) acc') w1.
Proof.
  intros Hb Hnode. cbn [by_animal]. rewrite Hb.
  destruct (dict_get b data_dict) as [[board|]|]; [| done |].
  - destruct (dict_get (sensor_name sensor) board); by eexists _, _.
  - by eexists _, _.
Qed.

Lemma by_animal_succeeds data_dict rows (b : string) acc w :
  datasets_are_comments data_dict →
  dict_get b data_dict ≠ Some DictDataset →
  ∃ r w', run (by_animal data_dict rows (Some b) acc) w = (Ok r, w').
Proof.
  intros Hdatasets. revert b acc w.
  induction rows as [|[sensor animal] rows IH]; intros b acc w Hb;
    [by eexists _, _|].
  assert (Hnext : ∃ b', board_of_sensor sensor (Some b) = Some b'
                    ∧ dict_get b' data_dict ≠ Some DictDataset).
  { destruct (decide (1 ≤ sensor ≤ 24)) as [Hin|Hout].
    - destruct (board_of_sensor_known sensor (Some b) Hin) as [Hsame [b' Hb']].
      exists b'. rewrite Hsame. split; [done|].
      by apply (partition_board_not_dataset data_dict sensor None).
    - exists b. by rewrite board_of_sensor_unknown. }
  destruct Hnext as (b' & Hboard & Hb').
  destruct (by_animal_cons data_dict sensor animal rows (Some b) b' acc w
              Hboard Hb') as (acc' & w1 & ->).
  by apply IH.
Qed.

(** [data_dict[board_id][f"sensor_{sensor}"]], when both keys exist. *)
Definition sensor_entry (data_dict : list (string * dict_node))
    (sensor : nat) : option subject_data :=
  b ← board_of_sensor sensor None;
  node ← dict_get b data_dict;
  match node with
  | DictBoard board => dict_get (sensor_name sensor) board
  | DictDataset => None
  end.

Lemma by_animal_lookup data_dict rows board_id acc w r w' :
  Forall (fun row : nat * string => 1 ≤ row.1 ≤ 24) rows →
  NoDup rows.*2 →
  run (by_animal data_dict rows board_id acc) w = (Ok r, w') →
  (∀ sensor animal, (sensor, animal) ∈ rows →
     dict_get animal r
     = match sensor_entry data_dict sensor with
       | Some data => Some data
       | None => dict_get animal acc
       end)
  ∧ (∀ animal, animal ∉ rows.*2 → dict_get animal r = dict_get animal acc).
Proof.
  revert board_id acc w.
  induction rows as [|[s a] rows IH]; intros board_id acc w Hknown Hnd Hrun.
  - simpl in Hrun. injection Hrun as <- <-. split; [|done].
    intros sensor animal Hin. by apply elem_of_nil in Hin.
  - apply Forall_cons in Hknown as [Hs Hknown]. simpl in Hs.
    rewrite fmap_cons in Hnd. apply NoDup_cons in Hnd as [Ha Hnd].
    simpl in Ha.
    destruct (board_of_sensor_known s board_id Hs) as [Hsame [b Hb]].
    cbn [by_animal] in Hrun. rewrite Hsame, Hb in Hrun.
    assert (Hstep : ∃ acc' w1,
              run (by_animal data_dict rows (Some b) acc') w1 = (Ok r, w')
              ∧ dict_get a acc'
                = match sensor_entry data_dict s with
                  | Some data => Some data
                  | None => dict_get a acc
                  end
              ∧ ∀ animal, animal ≠ a → dict_get animal acc' = dict_get animal acc).
    { unfold sensor_entry. rewrite Hb. simpl in *.
      destruct (dict_get b data_dict) as [[board|]|]; simpl in *.
      - destruct (dict_get (sensor_name s) board) as [data|]; simpl in *.
        + eexists _, _. split; [exact Hrun|]. split.
          * apply dict_get_set_eq.
          * intros animal Hne. by apply dict_get_set_ne.
        + eexists _, _. split; [exact Hrun|]. done.
      - done.
      - eexists _, _. split; [exact Hrun|]. done. }
    destruct Hstep as (acc' & w1 & Hrest & Hhead & Hother).
    destruct (IH (Some b) acc' w1 Hknown Hnd Hrest) as [IHin IHout].
    split.
    + intros sensor animal [Heq|Hin]%elem_of_cons.
      * injection Heq as -> ->. rewrite (IHout a Ha). exact Hhead.
      * rewrite (IHin sensor animal Hin).
        destruct (sensor_entry data_dict sensor); [done|].
        apply Hother. intros ->. apply Ha.
        apply list_elem_of_fmap. by exists (sensor, a).
    + intros animal Hnotin. rewrite fmap_cons in Hnotin.
      apply not_elem_of_cons in Hnotin as [Hne Hnotin]. simpl in Hne.
      rewrite (IHout animal Hnotin). by apply Hother.
Qed.

(** X19. What the reorganisation by animal does with a row whose sensor
    is outside the partition (1 to 24): it reads [board_id] as the
    previous row or, at the first row, the truncation loop has left it,
    that is, bound to the last top-level key of the raw file.  After a
    truncation loop that succeeded, the loop over the rows returns
    normally when its first row names a sensor of the partition, whatever
    the later rows and the file hold (a sensor whose data is missing is
    reported and skipped).  When the first row names another sensor, the
    outcome depends on the last top-level object of the raw file: with no
    object at all [board_id] is unbound and [UnboundLocalError] is
    raised; with the [comments] dataset last, the dataset is indexed with
    the sensor name and h5py's [ValueError] leaves the loop; with a board
    group last, the loop returns normally. *)
Theorem by_animal_first_row (raw : list top_level) data_dict w0 w1
    sensor animal rest :
  run (process_boards raw) w0 = (Ok data_dict, w1) →
  (1 ≤ sensor ≤ 24 →
   ∃ r w',
     run (by_animal data_dict ((sensor, animal) :: rest)
            (last (key_of <$> raw)) []) w1
     = (Ok r, w'))
  ∧ (¬ (1 ≤ sensor ≤ 24) →
     match last raw with
     | None =>
         run (by_animal data_dict ((sensor, animal) :: rest)
                (last (key_of <$> raw)) []) w1
         = (Raise UnboundLocalError, w1)
     | Some (TopDataset _) =>
         run (by_animal data_dict ((sensor, animal) :: rest)
                (last (key_of <$> raw)) []) w1
         = (Raise (ValueError "Field names only allowed for compound types"),
            w1)
     | Some (BoardGroup _ _) =>
         ∃ r w',
           run (by_animal data_dict ((sensor, animal) :: rest)
                  (last (key_of <$> raw)) []) w1
           = (Ok r, w')
     end).
Proof.
  intros [Hdatasets Hnodes]%process_boards_nodes. split.
  - intros Hs.
    destruct (board_of_sensor_known sensor (last (key_of <$> raw)) Hs)
      as [Hsame [b Hb]].
    rewrite <- Hsame in Hb.
    pose proof (partition_board_not_dataset data_dict sensor _ b
                  Hdatasets Hs Hb) as Hnode.
    destruct (by_animal_cons data_dict sensor animal rest _ b [] w1 Hb Hnode)
      as (acc' & w2 & ->).
    by apply by_animal_succeeds.
  - intros Hs. rewrite fmap_last.
    pose proof (board_of_sensor_unknown sensor (key_of <$> last raw) Hs)
      as Hboard.
    destruct (last raw) as [[sn sensors|name]|] eqn:Hlast.
    + apply last_Some_elem_of, Hnodes in Hlast as [board Hget].
      assert (Hnode : dict_get (board_name sn) data_dict ≠ Some DictDataset)
        by (by rewrite Hget).
      destruct (by_animal_cons data_dict sensor animal rest _ _ [] w1
                  Hboard Hnode) as (acc' & w2 & ->).
      by apply by_animal_succeeds.
    + apply last_Some_elem_of, Hnodes in Hlast as [-> Hget].
      cbn [by_animal]. rewrite Hboard. simpl. by rewrite Hget.
    + cbn [by_animal]. by rewrite Hboard.
Qed.

(** X20. Every animal gets the data of its own sensor.  With sensors of the
    partition and one row per animal, the entry of an animal after the
    reorganisation is the group of its sensor in the board group that the
    partition assigns to the sensor, whatever [board_id] was before the
    loop; when that group is missing the animal has no entry. *)
Theorem by_animal_assigns data_dict rows board_id r w w' :
  Forall (fun row : nat * string => 1 ≤ row.1 ≤ 24) rows →
  NoDup rows.*2 →
  run (by_animal data_dict rows board_id []) w = (Ok r, w') →
  ∀ sensor animal, (sensor, animal) ∈ rows →
    dict_get animal r = sensor_entry data_dict sensor.
Proof.
  intros Hknown Hnd Hrun sensor animal Hin.
  destruct (by_animal_lookup data_dict rows board_id [] w r w' Hknown Hnd Hrun)
    as [Hrows _].
  rewrite (Hrows sensor animal Hin).
  by destruct (sensor_entry data_dict sensor).
Qed.

(** A file with the sensors 1 and 4; sensor 2 was not recorded. *)
Definition example_subject (n : nat) : subject_data :=
  mk_subject_data [] [] None [] n n.
Definition example_dict : list (string * dict_node) :=
  [ ("board_FT232H0", DictBoard [("sensor_1", example_subject 1)]);
    ("board_FT232H1", DictBoard [("sensor_4", example_subject 4)]) ].
Definition example_rows : list (nat * string) :=
  [(1, "mouse A"); (2, "mouse B"); (4, "mouse C")].

(** A raw file with one recorded sensor and with comments. *)
Definition example_raw : list top_level :=
  [ BoardGroup "FT232H0" [("sensor_1", two_cycle_sensor)];
    TopDataset "comments" ].

Lemma analysis_board_matches_recorder_witness :
  board_of_sensor 10 None = Some "board_FT232H1".
Proof.
  apply (analysis_board_matches_recorder 10 "FT232H1" None). reflexivity.
Defined.

(** With the comments last in the file, a first row for sensor 25 ends
    the analysis with a [ValueError]; a first row for sensor 1 does
    not. *)
Lemma by_animal_first_row_witness :
  ∃ data_dict w1,
    run (process_boards example_raw) empty_world = (Ok data_dict, w1)
    ∧ run (by_animal data_dict [(25, "mouse D"); (1, "mouse A")]
             (last (key_of <$> example_raw)) []) w1
      = (Raise (ValueError "Field names only allowed for compound types"),
         w1)
    ∧ ∃ r w',
        run (by_animal data_dict [(1, "mouse A"); (25, "mouse D")]
               (last (key_of <$> example_raw)) []) w1
        = (Ok r, w').
Proof.
  destruct (run (process_boards example_raw) empty_world)
    as [[data_dict|e] w1] eqn:Hrun; [|by vm_compute in Hrun].
  exists data_dict, w1. split; [done|]. split.
  - destruct (by_animal_first_row example_raw data_dict empty_world w1
                25 "mouse D" [(1, "mouse A")] Hrun) as [_ Hout].
    apply Hout. lia.
  - destruct (by_animal_first_row example_raw data_dict empty_world w1
                1 "mouse A" [(25, "mouse D")] Hrun) as [Hin _].
    apply Hin. lia.
Defined.

Lemma by_animal_assigns_witness :
  ∃ r w',
    run (by_animal example_dict example_rows (Some "comments") [])
      empty_world = (Ok r, w')
    ∧ dict_get "mouse C" r = Some (example_subject 4)
    ∧ dict_get "mouse B" r = None.
Proof.
  destruct (run (by_animal example_dict example_rows (Some "comments") [])
              empty_world) as [[r|e] w'] eqn:Hrun; [|by vm_compute in Hrun].
  exists r, w'. split; [done|].
  assert (Hknown : Forall (fun row : nat * string => 1 ≤ row.1 ≤ 24)
                     example_rows)
    by (repeat constructor; simpl; lia).
  assert (Hnd : NoDup example_rows.*2)
    by (apply (bool_decide_unpack _); vm_compute; exact I).
  split.
  - apply (by_animal_assigns example_dict example_rows (Some "comments") r
             empty_world w' Hknown Hnd Hrun 4 "mouse C").
    unfold example_rows. rewrite !elem_of_cons. tauto.
  - apply (by_animal_assigns example_dict example_rows (Some "comments") r
             empty_world w' Hknown Hnd Hrun 2 "mouse B").
    unfold example_rows. rewrite !elem_of_cons. tauto.
Defined.

(** ** The threshold scan never fails *)

Lemma np_index_succeeds {A : Type} (l : list A) (i : Z) :
  (- Z.of_nat (length l) ≤ i < Z.of_nat (length l))%Z →
  ∃ x, np_index l i = Ok x.
Proof.
  intros Hi. unfold np_index. cbv zeta.
  set (j := if (i <? 0)%Z then (i + Z.of_nat (length l))%Z else i).
  assert (Hj : (0 ≤ j < Z.of_nat (length l))%Z).
  { unfold j. destruct (i <? 0)%Z eqn:Hneg; [|apply Z.ltb_ge in Hneg]; lia. }
  replace ((0 <=? j) && (j <? Z.of_nat (length l)))%Z with true
    by (symmetry; apply andb_true_iff; split;
        [apply Z.leb_le | apply Z.ltb_lt]; lia).
  destruct (lookup_lt_is_Some_2 l (Z.to_nat j)) as [x Hx]; [lia|].
  rewrite Hx. by eexists.
Qed.

Lemma index_lookup {A : Type} (l : list A) (i : nat) (x : A) :
  l !! i = Some x → index l i = Ok x.
Proof. unfold index. by intros ->. Qed.

Lemma peak_bounds_succeeds (trace : list Z) (thr : Q) :
  trace ≠ [] → ∃ starts ends, peak_bounds trace thr = Ok (starts, ends).
Proof.
  intros Hne. unfold peak_bounds.
  set (below := (fun x => Qltb (inject_Z x) thr) <$> trace).
  assert (Hlen : 0 < length below).
  { unfold below. rewrite length_fmap. destruct trace; [done | simpl; lia]. }
  destruct (np_index_succeeds below 0) as [first Hfirst]; [lia|].
  destruct (np_index_succeeds below (-1)) as [last Hlast]; [lia|].
  rewrite Hfirst. simpl. rewrite Hlast. simpl. by eexists _, _.
Qed.

Lemma runs_within_bounds lo hi starts ends :
  runs_within lo hi starts ends →
  Forall (fun s => s < hi) starts ∧ Forall (fun e => e < hi) ends.
Proof.
  induction 1 as [|lo hi s e starts ends ? ? ? _ [IHs IHe]];
    [split; constructor|].
  split; constructor; [lia | done | done | done].
Qed.

Lemma deep_peaks_succeeds trace starts ends depth_thr good :
  Forall (fun p => p < length starts ∧ p < length ends) good →
  ∃ good', deep_peaks trace starts ends depth_thr good = Ok good'.
Proof.
  induction good as [|p good IH]; intros Hall; simpl; [by eexists|].
  apply Forall_cons in Hall as [[Hs He] Hall].
  destruct (lookup_lt_is_Some_2 starts p Hs) as [s Hsp].
  destruct (lookup_lt_is_Some_2 ends p He) as [e Hep].
  unfold peak_trace, index. rewrite Hsp, Hep. simpl.
  destruct (IH Hall) as [good' ->]. simpl.
  case_decide; by eexists.
Qed.

Definition in_trace (trace : list Z) (b : Z) : Prop :=
  (0 ≤ b < Z.of_nat (length trace))%Z.

Lemma threshold_peaks_succeeds trace times thresholds i_thr :
  trace ≠ [] → length trace ≤ length times → i_thr < length thresholds →
  ∃ bins, threshold_peaks trace times thresholds i_thr = Ok bins
    ∧ Forall (in_trace trace) bins.
Proof.
  intros Hne Htimes Hthr. unfold threshold_peaks.
  destruct (lookup_lt_is_Some_2 thresholds i_thr Hthr) as [thr Hi].
  rewrite (index_lookup _ _ _ Hi). simpl.
  destruct (peak_bounds_succeeds trace thr Hne) as (starts & ends & Hbounds).
  rewrite Hbounds. simpl.
  apply peak_bounds_runs in Hbounds as Hruns.
  case_decide; [eexists; split; [done | constructor]|].
  pose proof (runs_within_length _ _ _ _ Hruns) as Hlen.
  pose proof (runs_within_bounds _ _ _ _ Hruns) as [Hsb Heb].
  rewrite <- Hlen, Nat.min_id, firstn_all.
  rewrite Hlen, firstn_all.
  destruct (mapM_succeeds (index times) ends) as [t_ends Hte].
  { intros e He. rewrite Forall_forall in Heb. specialize (Heb e He).
    destruct (lookup_lt_is_Some_2 times e) as [x Hx]; [lia|].
    unfold index. rewrite Hx. by eexists. }
  destruct (mapM_succeeds (index times) starts) as [t_starts Hts].
  { intros s Hs. rewrite Forall_forall in Hsb. specialize (Hsb s Hs).
    destruct (lookup_lt_is_Some_2 times s) as [x Hx]; [lia|].
    unfold index. rewrite Hx. by eexists. }
  rewrite Hte. simpl. rewrite Hts. simpl.
  apply mapM_result_Forall2 in Hte, Hts.
  apply Forall2_length in Hte, Hts.
  set (good_peaks := np_where _).
  assert (Hgood : Forall (fun p => p < length starts ∧ p < length ends)
                    good_peaks).
  { unfold good_peaks, np_where.
    eapply Forall_impl; [apply np_where_from_spec|].
    intros p Hp. simpl in Hp.
    rewrite length_fmap, length_zip_with in Hp. lia. }
  case_decide; [eexists; split; [done | constructor]|].
  destruct (lookup_lt_is_Some_2 thresholds (i_thr - 2)) as [depth_thr Hd];
    [lia|].
  rewrite (index_lookup _ _ _ Hd). simpl.
  destruct (deep_peaks_succeeds trace starts ends depth_thr good_peaks Hgood)
    as [good' Hdeep].
  rewrite Hdeep. simpl.
  case_decide; [eexists; split; [done | constructor]|].
  apply deep_peaks_sublist in Hdeep.
  set (event := fun p_idx : nat => _).
  destruct (mapM_succeeds event good') as [bins Hbins].
  { intros p Hp. unfold event.
    assert (Hpb : p < length starts ∧ p < length ends).
    { rewrite Forall_forall in Hgood. apply Hgood.
      by eapply elem_of_sublist. }
    destruct Hpb as [Hps Hpe].
    destruct (lookup_lt_is_Some_2 starts p Hps) as [s Hsp].
    destruct (lookup_lt_is_Some_2 ends p Hpe) as [e Hep].
    unfold peak_trace, index. rewrite Hsp, Hep. simpl.
    destruct (slice s (e + 1) trace) as [|c tr]; [by eexists|].
    simpl. by eexists. }
  exists bins. split; [done|].
  apply mapM_result_Forall2 in Hbins.
  apply Forall_forall. intros b Hb.
  apply list_elem_of_lookup_1 in Hb as [k Hk].
  destruct (Forall2_lookup_r _ _ _ _ _ Hbins Hk) as (p & Hp & Hev).
  unfold event in Hev.
  apply (peak_event_in_run trace starts ends p b Hruns) in Hev
    as (s & e & Hs & He & Hb).
  destruct (runs_within_lookup _ _ _ _ _ _ _ Hruns Hs He) as (_ & _ & Hhi).
  unfold in_trace. lia.
Qed.

Lemma length_thresholds_of (u : list Z) :
  length (thresholds_of u) = length u - 1.
Proof.
  unfold thresholds_of.
  rewrite length_zip_with, length_take, length_drop. lia.
Qed.

(** What the loop over the thresholds has established when it has handled
    the thresholds below [k]. *)
Definition scanned (trace : list Z) (len k : nat)
    (s : list (option nat) * list (option (list Z))) : Prop :=
  length s.2 = len
  ∧ s.1 = (fun bins : option (list Z) => length <$> bins) <$> s.2
  ∧ (∀ i b, s.2 !! i = Some (Some b) → Forall (in_trace trace) b)
  ∧ (∀ i, 2 ≤ i < k → ∃ b, s.2 !! i = Some (Some b)).

Lemma scan_prefix trace times thresholds n :
  trace ≠ [] → length trace ≤ length times → n ≤ length thresholds - 2 →
  ∃ s, forM_ (seq 2 n)
         (fun i_thr '(n_peaks, peak_bins) =>
            bins ← threshold_peaks trace times thresholds i_thr;
            Ok (<[i_thr := Some (length bins)]> n_peaks,
                <[i_thr := Some bins]> peak_bins))
         (replicate (length thresholds) None,
          replicate (length thresholds) None) = Ok s
    ∧ scanned trace (length thresholds) (2 + n) s.
Proof.
  intros Hne Htimes. induction n as [|n IH]; intros Hn.
  - eexists. split; [done|]. split_and!; simpl.
    + apply length_replicate.
    + by rewrite fmap_replicate.
    + intros i b Hi. apply lookup_replicate in Hi as [Hi _]. done.
    + intros i Hi. lia.
  - destruct IH as ([n_peaks peak_bins] & Hrun & Hlen & Hn_peaks & Hin & Hsome);
      [lia|].
    simpl in Hlen, Hn_peaks, Hin, Hsome.
    rewrite seq_S, forM__app, Hrun. simpl.
    destruct (threshold_peaks_succeeds trace times thresholds (2 + n))
      as (bins & Hbins & Hrange); [done | done | lia|].
    simpl in Hbins. rewrite Hbins. simpl.
    eexists. split; [done|]. split_and!; simpl.
    + by rewrite length_insert.
    + rewrite Hn_peaks. by rewrite list_fmap_insert.
    + intros i b Hi.
      apply list_lookup_insert_Some in Hi as [(_ & Heq & _)|[_ Hi]].
      * by injection Heq as <-.
      * by eapply Hin.
    + intros i Hi. destruct (decide (i = S (S n))) as [->|Hne'].
      * exists bins. apply list_lookup_insert_eq. lia.
      * rewrite list_lookup_insert_ne by done. apply Hsome. lia.
Qed.

Lemma nanmax_cases (row : list (option nat)) :
  (∃ j, row !! j = Some (Some (nanmax row)))
  ∨ (Forall (fun x => x = None) row ∧ nanmax row = 0).
Proof.
  induction row as [|x row IH]; [right; split; [constructor | done]|].
  simpl. destruct x as [m|].
  - destruct (decide (nanmax row ≤ m)) as [Hle|Hgt].
    + left. exists 0. simpl. do 2 f_equal. lia.
    + destruct IH as [[j Hj]|[_ Hz]]; [|lia].
      left. exists (S j). simpl. rewrite Hj. do 2 f_equal. lia.
  - destruct IH as [[j Hj]|[Hnone Hz]].
    + left. by exists (S j).
    + right. split; [by constructor | done].
Qed.

Lemma nanmax_attained (row : list (option nat)) i n :
  row !! i = Some (Some n) → ∃ j, row !! j = Some (Some (nanmax row)).
Proof.
  intros Hi. destruct (nanmax_cases row) as [Hj|[Hnone _]]; [done|].
  rewrite Forall_forall in Hnone.
  by specialize (Hnone (Some n) (list_elem_of_lookup_2 _ _ _ Hi)).
Qed.

Lemma np_where_from_first (i : nat) (mask : list bool) j :
  mask !! j = Some true →
  ∃ k, np_where_from i mask !! 0 = Some k ∧ mask !! (k - i) = Some true
       ∧ i ≤ k.
Proof.
  revert i j. induction mask as [|b mask IH]; intros i j Hj; [done|].
  simpl. destruct b.
  - exists i. rewrite Nat.sub_diag. done.
  - destruct j as [|j]; [done|]. simpl in Hj.
    destruct (IH (S i) j Hj) as (k & Hk & Hm & Hle).
    exists k. split_and!; [done | | lia].
    replace (k - i) with (S (k - S i)) by lia. done.
Qed.

Lemma first_index_of_Ok (m : nat) (row : list (option nat)) i :
  row !! i = Some (Some m) →
  ∃ j, first_index_of m row = Ok j ∧ row !! j = Some (Some m).
Proof.
  intros Hi. unfold first_index_of, np_where.
  destruct (np_where_from_first 0
              ((fun x => bool_decide (x = Some m)) <$> row) i)
    as (k & Hk & Hm & _).
  { rewrite list_lookup_fmap, Hi. simpl. by rewrite bool_decide_eq_true_2. }
  rewrite (index_lookup _ _ _ Hk). exists k. split; [done|].
  rewrite Nat.sub_0_r, list_lookup_fmap in Hm.
  destruct (row !! k) as [x|]; [|done]. simpl in Hm.
  injection Hm as Hm. apply bool_decide_eq_true_1 in Hm. by subst.
Qed.

(** What the scan hands to [int(pb_)] and to the caller: with one event
    the release of NumPy decides. *)
Definition basic_result (numpy : numpy_release) (d : detection)
  : result (option detection) :=
  match numpy with
  | numpy_up_to_2_3 => Ok (Some d)
  | numpy_from_2_4 =>
      if decide (num_licks d = 1) then Raise TypeError else Ok (Some d)
  end.

Lemma basic_detect_succeeds (trace : list Z) (times : list Q) :
  length trace ≤ length times → 3 < length (np_unique trace) →
  ∃ d, (∀ numpy, basic_detect numpy trace times = basic_result numpy d)
    ∧ Forall (in_trace trace) (indices_list (lick_indices d))
    ∧ mapM (np_index times) (indices_list (lick_indices d))
      = Ok (lick_times d)
    ∧ num_licks d = length (indices_list (lick_indices d)).
Proof.
  intros Htimes Hunique.
  assert (Hne : trace ≠ []).
  { intros ->. simpl in Hunique. lia. }
  set (thresholds := thresholds_of (np_unique trace)).
  assert (Hlen : 3 ≤ length thresholds).
  { unfold thresholds. rewrite length_thresholds_of. lia. }
  destruct (scan_prefix trace times thresholds (length thresholds - 2))
    as ([n_peaks peak_bins] & Hscan & Hplen & Hn_peaks & Hin & Hsome);
    [done | done | lia|].
  simpl in Hplen, Hn_peaks, Hin, Hsome.
  destruct (Hsome 2) as [b2 Hb2]; [lia|].
  assert (Hn2 : n_peaks !! 2 = Some (Some (length b2))).
  { by rewrite Hn_peaks, list_lookup_fmap, Hb2. }
  assert (Hnot : forallb (fun x : option nat => bool_decide (x = None)) n_peaks
                 = false).
  { destruct (forallb _ n_peaks) eqn:Hall; [|done].
    rewrite forallb_forall in Hall.
    specialize (Hall (Some (length b2))).
    rewrite bool_decide_eq_false_2 in Hall by done.
    symmetry. apply Hall, list_elem_of_In. by eapply list_elem_of_lookup_2. }
  destruct (nanmax_attained n_peaks 2 _ Hn2) as [j0 Hj0].
  destruct (first_index_of_Ok (nanmax n_peaks) n_peaks j0 Hj0)
    as (i_thr & Hfirst & Hi_thr).
  rewrite Hn_peaks, list_lookup_fmap in Hi_thr.
  destruct (peak_bins !! i_thr) as [[pb|]|] eqn:Hpb; simpl in Hi_thr;
    [|done..].
  pose proof (Hin i_thr pb Hpb) as Hrange.
  assert (Htimes_ok : ∃ ts, mapM (np_index times) pb = Ok ts).
  { apply mapM_succeeds. intros b Hb. apply np_index_succeeds.
    rewrite Forall_forall in Hrange. specialize (Hrange b Hb).
    unfold in_trace in Hrange. lia. }
  destruct Htimes_ok as [ts Hts].
  assert (Hlts : length ts = length pb).
  { apply mapM_result_Forall2, Forall2_length in Hts. done. }
  assert (Hchosen : ∀ numpy,
            basic_detect numpy trace times
            = match pb with
              | [i] =>
                  pb_ ← int_of_array numpy i;
                  t ← np_index times pb_;
                  Ok (Some (mk_detection [t] (IndexScalar pb_) 1))
              | _ =>
                  ts ← mapM (np_index times) pb;
                  Ok (Some (mk_detection ts (IndexArray pb) (length ts)))
              end).
  { intros numpy. unfold basic_detect, scan_thresholds.
    rewrite decide_True by done. fold thresholds. rewrite Hscan. simpl.
    rewrite Hnot, Hfirst. simpl. rewrite (index_lookup _ _ _ Hpb). simpl.
    by destruct pb as [|i [|i' pb']]. }
  destruct pb as [|i [|i' pb]].
  - exists (mk_detection ts (IndexArray []) (length ts)). split_and!.
    + intros numpy. rewrite Hchosen, Hts. simpl.
      destruct numpy; simpl; [done|].
      rewrite decide_False; [done | simpl in Hlts; lia].
    + done.
    + done.
    + done.
  - apply Forall_cons in Hrange as [Hi Hnil].
    destruct (np_index_succeeds times i) as [t Ht];
      [unfold in_trace in Hi; lia|].
    exists (mk_detection [t] (IndexScalar i) 1). split_and!.
    + intros numpy. rewrite Hchosen.
      destruct numpy; simpl; [by rewrite Ht | done].
    + by constructor.
    + simpl. by rewrite Ht.
    + done.
  - exists (mk_detection ts (IndexArray (i :: i' :: pb)) (length ts)).
    split_and!.
    + intros numpy. rewrite Hchosen, Hts. simpl.
      destruct numpy; simpl; [done|].
      rewrite decide_False; [done | simpl in Hlts; lia].
    + done.
    + done.
    + done.
Qed.

(** X21. The threshold scan on a trace with more than three distinct
    values, given a time axis at least as long as the trace, never skips
    the subject and fails in one case only.  The scan determines a
    detection: every lick index is a sample index of the trace,
    [lick_times] holds the times at these indices, and [num_licks] is
    their number (possibly zero).  This detection is the result, except
    that with exactly one event [int(pb_)] raises [TypeError] on NumPy 2.4
    and later. *)
Theorem basic_detect_total (numpy : numpy_release) (trace : list Z)
    (times : list Q) :
  length trace ≤ length times →
  3 < size (list_to_set trace : gset Z) →
  ∃ d,
    Forall (fun i => 0 ≤ i < Z.of_nat (length trace))%Z
      (indices_list (lick_indices d))
    ∧ mapM (np_index times) (indices_list (lick_indices d))
      = Ok (lick_times d)
    ∧ num_licks d = length (indices_list (lick_indices d))
    ∧ basic_detect numpy trace times
      = match numpy with
        | numpy_up_to_2_3 => Ok (Some d)
        | numpy_from_2_4 =>
            if decide (num_licks d = 1) then Raise TypeError
            else Ok (Some d)
        end.
Proof.
  intros Htimes Hdistinct. rewrite <- length_np_unique in Hdistinct.
  destruct (basic_detect_succeeds trace times Htimes Hdistinct)
    as (d & Hd & Hrange & Hts & Hnum).
  exists d. split_and!; [done..|]. apply Hd.
Qed.

(** A trace with a single dip. *)
Definition one_dip_trace : list Z := [10; 8; 6; 4; 6; 8; 10]%Z.
Definition one_dip_times : list Q :=
  (fun i => inject_Z (Z.of_nat i) / 100)%Q <$> seq 0 7.

Lemma basic_detect_total_witness :
  (∃ d, basic_detect numpy_from_2_4 example_trace example_times = Ok (Some d)
      ∧ Forall (fun i => 0 ≤ i < 18)%Z (indices_list (lick_indices d))
      ∧ num_licks d = 2)
  ∧ basic_detect numpy_from_2_4 one_dip_trace one_dip_times = Raise TypeError
  ∧ ∃ d, basic_detect numpy_up_to_2_3 one_dip_trace one_dip_times
         = Ok (Some d)
      ∧ lick_indices d = IndexScalar 3.
Proof.
  split_and!.
  - destruct (basic_detect_total numpy_from_2_4 example_trace example_times)
      as (d & Hrange & _ & Hnum & Hd).
    + vm_compute. lia.
    + vm_compute. lia.
    + assert (Hrun : basic_detect numpy_from_2_4 example_trace example_times
                     = Ok (Some (mk_detection (lick_times d) (lick_indices d)
                                   2)) ∧ num_licks d = 2).
      { destruct (basic_detect numpy_from_2_4 example_trace example_times)
          as [[d'|]|e] eqn:Hd'; vm_compute in Hd'; [|done..].
        injection Hd' as <-. case_decide; [done|].
        injection Hd as <-. done. }
      destruct Hrun as [_ Hnum2]. exists d. split_and!; [|done..].
      case_decide; [lia | done].
  - reflexivity.
  - eexists. split; reflexivity.
Defined.

(** ** The batch of the threshold scan *)

(** The subject's scan finds exactly one event. *)
Definition one_event (trace : list Z) (times : list Q) : Prop :=
  ∃ d, basic_detect numpy_up_to_2_3 trace times = Ok (Some d)
    ∧ num_licks d = 1.

(** The batch does not meet the conversion that NumPy 2.4 refuses. *)
Definition converts (numpy : numpy_release)
    (subjects : list (string * subject_data)) : Prop :=
  numpy = numpy_from_2_4 →
  Forall (fun s : string * subject_data =>
            ¬ one_event (s_cap_data s.2) (s_time_data s.2)) subjects.

Lemma converts_cons numpy s subjects :
  converts numpy (s :: subjects) →
  (numpy = numpy_from_2_4 → ¬ one_event (s_cap_data s.2) (s_time_data s.2))
  ∧ converts numpy subjects.
Proof.
  intros Hc. split.
  - intros Hn. by apply Hc, Forall_cons in Hn as [? _].
  - intros Hn. by apply Hc, Forall_cons in Hn as [_ ?].
Qed.

Lemma basic_detect_converted numpy trace times :
  length trace ≤ length times → 3 < length (np_unique trace) →
  (numpy = numpy_from_2_4 → ¬ one_event trace times) →
  ∃ d, basic_detect numpy trace times = Ok (Some d).
Proof.
  intros Hlen Hmany Hconv.
  destruct (basic_detect_succeeds trace times Hlen Hmany) as (d & Hd & _).
  exists d. rewrite Hd. destruct numpy; simpl; [done|].
  case_decide as Hone; [|done].
  destruct (Hconv eq_refl). exists d. by rewrite Hd.
Qed.

(** X22. A batch of the threshold scan into an output file that holds none
    of its subjects never raises when the subjects are distinct, each has
    a time axis at least as long as its trace and, on NumPy 2.4 and later,
    none has exactly one event.  Afterwards a subject whose trace has more
    than three distinct values has a group with its detection, the window
    indices and whichever of [consumed_vol] and [weight] it has; a subject
    with at most three has no group; and the groups of all other names are
    as before. *)
Theorem basic_algorithm_writes_detected_subjects (numpy : numpy_release)
    (subjects : list (string * subject_data)) (w : world) :
  NoDup subjects.*1 →
  (∀ animal, animal ∈ subjects.*1 → dict_get animal (filtered_h5f w) = None) →
  Forall (fun s : string * subject_data =>
            length (s_cap_data s.2) ≤ length (s_time_data s.2)) subjects →
  converts numpy subjects →
  ∃ w',
    run (basic_algorithm numpy subjects) w = (Ok tt, w')
    ∧ (∀ other, other ∉ subjects.*1 →
         dict_get other (filtered_h5f w') = dict_get other (filtered_h5f w))
    ∧ ∀ animal data, (animal, data) ∈ subjects →
        if decide (3 < size (list_to_set (s_cap_data data) : gset Z))
        then ∃ d, basic_detect numpy (s_cap_data data) (s_time_data data)
                  = Ok (Some d)
               ∧ dict_get animal (filtered_h5f w')
                 = Some (stored_group data d)
        else dict_get animal (filtered_h5f w') = None.
Proof.
  revert w. induction subjects as [|[a data] subjects IH];
    intros w Hnd Hfresh Hlen Hconv.
  - exists w. split_and!; [done | done |].
    intros animal data Hin. by apply elem_of_nil in Hin.
  - rewrite fmap_cons in Hnd. apply NoDup_cons in Hnd as [Ha Hnd].
    simpl in Ha. apply Forall_cons in Hlen as [Hla Hlen]. simpl in Hla.
    apply converts_cons in Hconv as [Hconva Hconv]. simpl in Hconva.
    assert (Hhead : ∃ w1,
              run (d ← lift (basic_detect numpy (s_cap_data data)
                               (s_time_data data));
                   match d with
                   | None => mret tt
                   | Some d =>
                       _ ← print (licks_message a (num_licks d));
                       save_filtered_data data d a
                   end) w = (Ok tt, w1)
              ∧ (∀ other, other ≠ a →
                   dict_get other (filtered_h5f w1)
                   = dict_get other (filtered_h5f w))
              ∧ if decide (3 < size (list_to_set (s_cap_data data) : gset Z))
                then ∃ d, basic_detect numpy (s_cap_data data)
                            (s_time_data data) = Ok (Some d)
                       ∧ dict_get a (filtered_h5f w1)
                         = Some (stored_group data d)
                else dict_get a (filtered_h5f w1) = None).
    { destruct (decide (3 < size (list_to_set (s_cap_data data) : gset Z)))
        as [Hmany|Hfew].
      - rewrite <- length_np_unique in Hmany.
        destruct (basic_detect_converted numpy _ _ Hla Hmany Hconva)
          as [d Hd].
        simpl. rewrite Hd. simpl.
        set (w0 := mk_world _ _ _).
        destruct (save_filtered_data_stores data d a w0)
          as (w1 & Hsave & Hg & _).
        { simpl. apply Hfresh. by left. }
        exists w1. split_and!; [done | | by exists d].
        intros other Hne.
        by rewrite (save_filtered_data_frame data d a w0 w1 _ Hsave other Hne).
      - exists w. simpl. unfold basic_detect.
        rewrite decide_False by (rewrite length_np_unique; lia). simpl.
        split_and!; [done | done |]. apply Hfresh. by left. }
    destruct Hhead as (w1 & Hrun1 & Hframe1 & Hentry).
    destruct (IH w1 Hnd) as (w' & Hrun & Hframe & Hentries); [|done..|].
    { intros animal Hin. rewrite Hframe1; [|by intros ->].
      apply Hfresh. by right. }
    exists w'. split_and!.
    + unfold basic_algorithm in *. cbn [for_each]. rewrite run_bind.
      cbn beta iota. rewrite Hrun1. exact Hrun.
    + intros other Hother. rewrite fmap_cons in Hother.
      apply not_elem_of_cons in Hother as [Hne Hother]. simpl in Hne.
      rewrite (Hframe other Hother). by apply Hframe1.
    + intros animal data' [Heq|Hin]%elem_of_cons.
      * injection Heq as -> ->. rewrite (Hframe a Ha). exact Hentry.
      * by apply Hentries.
Qed.

Definition example_subjects : list (string * subject_data) :=
  [("A", mk_subject_data example_times example_trace None [] 0 18);
   ("B", mk_subject_data [] [] None [] 0 0)].

Lemma example_subjects_convert numpy : converts numpy example_subjects.
Proof.
  intros _. unfold example_subjects. repeat constructor.
  - intros (d & Hd & Hone). vm_compute in Hd. injection Hd as <-.
    discriminate Hone.
  - intros (d & Hd & _). by vm_compute in Hd.
Qed.

Lemma basic_algorithm_writes_detected_subjects_witness :
  ∃ w', run (basic_algorithm numpy_from_2_4 example_subjects) empty_world
        = (Ok tt, w')
    ∧ dict_get "B" (filtered_h5f w') = None
    ∧ ∃ d, basic_detect numpy_from_2_4 example_trace example_times
           = Ok (Some d)
        ∧ dict_get "A" (filtered_h5f w')
          = Some (stored_group
                    (mk_subject_data example_times example_trace None [] 0 18)
                    d).
Proof.
  destruct (basic_algorithm_writes_detected_subjects numpy_from_2_4
              example_subjects empty_world) as (w' & Hrun & _ & Hentries).
  - apply (bool_decide_unpack _). by vm_compute.
  - intros animal _. reflexivity.
  - unfold example_subjects. repeat constructor; simpl; lia.
  - apply example_subjects_convert.
  - exists w'. split; [exact Hrun|]. split.
    + pose proof (Hentries "B" (mk_subject_data [] [] None [] 0 0)) as HB.
      destruct (decide (3 < size (list_to_set
                  (s_cap_data (mk_subject_data [] [] None [] 0 0)) : gset Z)))
        as [Hmany|_].
      * vm_compute in Hmany. lia.
      * apply HB. unfold example_subjects. set_solver.
    + pose proof (Hentries "A"
        (mk_subject_data example_times example_trace None [] 0 18)) as HA.
      destruct (decide (3 < size (list_to_set
                  (s_cap_data
                     (mk_subject_data example_times example_trace None [] 0 18))
                  : gset Z))) as [_|Hfew].
      * apply HA. unfold example_subjects. set_solver.
      * exfalso. apply Hfew. vm_compute. lia.
Defined.

Lemma save_filtered_data_existing (data : subject_data) (d : detection)
    (animal : string) (g : out_group) (w : world) :
  dict_get animal (filtered_h5f w) = Some g →
  run (save_filtered_data data d animal) w = (Raise group_exists, w).
Proof.
  intros Hg. unfold save_filtered_data. simpl. by rewrite Hg.
Qed.

(** X23. The threshold scan does not overwrite: when the output file
    already holds a group for every subject of the batch whose trace has
    more than three distinct values, there is such a subject and, on
    NumPy 2.4 and later, no subject has exactly one event, the batch
    raises the [ValueError] of [create_group] at the first of them; the
    output file and the log file are left as they were. *)
Theorem basic_algorithm_refuses_existing_groups (numpy : numpy_release)
    (subjects : list (string * subject_data)) (w : world) :
  Forall (fun s : string * subject_data =>
            length (s_cap_data s.2) ≤ length (s_time_data s.2)) subjects →
  converts numpy subjects →
  (∀ animal data, (animal, data) ∈ subjects →
     3 < size (list_to_set (s_cap_data data) : gset Z) →
     ∃ g, dict_get animal (filtered_h5f w) = Some g) →
  Exists (fun s : string * subject_data =>
            3 < size (list_to_set (s_cap_data s.2) : gset Z)) subjects →
  ∃ msg w',
    run (basic_algorithm numpy subjects) w = (Raise (ValueError msg), w')
    ∧ filtered_h5f w' = filtered_h5f w
    ∧ logfile w' = logfile w.
Proof.
  induction subjects as [|[a data] subjects IH]; intros Hlen Hconv Hheld Hex.
  - by apply Exists_nil in Hex.
  - apply Forall_cons in Hlen as [Hla Hlen]. simpl in Hla.
    apply converts_cons in Hconv as [Hconva Hconv]. simpl in Hconva.
    unfold basic_algorithm in *. cbn [for_each]. rewrite run_bind.
    cbn beta iota. rewrite run_bind. cbn [lift run].
    destruct (decide (3 < size (list_to_set (s_cap_data data) : gset Z)))
      as [Hmany|Hfew].
    + destruct (Hheld a data) as [g Hg]; [by left | done |].
      rewrite <- length_np_unique in Hmany.
      destruct (basic_detect_converted numpy _ _ Hla Hmany Hconva)
        as [d ->].
      rewrite run_bind. cbn [print run].
      erewrite save_filtered_data_existing by exact Hg.
      eexists _, _. split_and!; reflexivity.
    + unfold basic_detect at 1.
      rewrite decide_False by (rewrite length_np_unique; lia).
      cbn [mret M_ret run].
      apply Exists_cons in Hex as [Hhead|Hex]; [done|].
      apply IH; [done | done | | done].
      intros animal data' Hin. apply Hheld. by right.
Qed.

Definition example_output : world :=
  mk_world [] []
    [("A", mk_out_group None None None None None None)].

Lemma basic_algorithm_refuses_existing_groups_witness :
  ∃ msg w',
    run (basic_algorithm numpy_from_2_4 example_subjects) example_output
    = (Raise (ValueError msg), w')
    ∧ filtered_h5f w' = filtered_h5f example_output
    ∧ logfile w' = logfile example_output.
Proof.
  apply (basic_algorithm_refuses_existing_groups numpy_from_2_4
           example_subjects example_output).
  - unfold example_subjects. repeat constructor; simpl; lia.
  - apply example_subjects_convert.
  - intros animal data [Heq|Hin]%elem_of_cons Hmany.
    + injection Heq as -> _. eexists. reflexivity.
    + apply list_elem_of_singleton in Hin. injection Hin as _ ->.
      vm_compute in Hmany. lia.
  - apply Exists_cons_hd. simpl. vm_compute. lia.
Defined.
